(** * The XUnit reporter of build/reporters/xunit-spec.js

    A shallow embedding of the reporter: the values it handles, the [tag]
    helper, the listeners with their console and sink effects, the
    constructor and [done]; a reader of the XML it writes; then the
    properties of the specification, each proved on the embedding. *)

From Stdlib Require Import String Ascii List ZArith QArith Lia Bool DecimalString.
Import ListNotations.
Close Scope Q_scope.
Open Scope list_scope.
Open Scope string_scope.

(** ** Strings *)

Module Str.

(** The double quote, which a string literal cannot hold. *)
Definition dquote : ascii := "034"%char.

Definition is_empty (s : string) : bool :=
  match s with EmptyString => true | String _ _ => false end.

(** [Array.prototype.join] on an array of strings. *)
Fixpoint join (sep : string) (l : list string) : string :=
  match l with
  | [] => ""
  | [x] => x
  | x :: rest => x ++ sep ++ join sep rest
  end.

(** Every character of [s] passes the test [p]. *)
Fixpoint all (p : ascii -> bool) (s : string) : bool :=
  match s with
  | EmptyString => true
  | String c r => p c && all p r
  end.

Fixpoint flat (l : list string) : string :=
  match l with
  | [] => ""
  | x :: rest => x ++ flat rest
  end.

End Str.

(** ** Numbers

    The numbers of the report are counters, millisecond counts and their
    thousandths.  A finite number is kept as an exact decimal [m / 10^e];
    [NaN] and the infinities are kept as such.  Binary rounding is not
    modelled: a millisecond count below 10^15 divided by 1000 prints in
    JavaScript as the exact decimal, and the property on the text of a
    duration is stated for such counts. *)

Inductive number : Type :=
| Dec (m : Z) (e : nat)
| NaN
| Infinity (negative : bool).

Definition of_Z (z : Z) : number := Dec z 0.

(** [x / 1000] *)
Definition div1000 (x : number) : number :=
  match x with
  | Dec m e => Dec m (e + 3)
  | NaN => NaN
  | Infinity s => Infinity s
  end.

(** ToBoolean on a number: zero and NaN are falsy. *)
Definition truthy_number (x : number) : bool :=
  match x with
  | Dec m _ => negb (m =? 0)%Z
  | NaN => false
  | Infinity _ => true
  end.

(** [x || y] on numbers. *)
Definition or_number (x y : number) : number :=
  if truthy_number x then x else y.

(** ToNumber of a field that holds a number or is undefined. *)
Definition ToNumber (v : option number) : number :=
  match v with
  | Some x => x
  | None => NaN
  end.

(** Trailing zeros of the fraction are not printed. *)
Fixpoint strip_zeros (e : nat) (m : Z) : Z * nat :=
  match e with
  | O => (m, O)
  | S e' => if (m mod 10 =? 0)%Z then strip_zeros e' (m / 10)%Z else (m, e)
  end.

Definition digits (z : Z) : string :=
  NilZero.string_of_uint (N.to_uint (Z.to_N z)).

Fixpoint zeros (n : nat) : string :=
  match n with
  | O => ""
  | S k => String "0" (zeros k)
  end.

Definition pad_left (width : nat) (s : string) : string :=
  zeros (width - String.length s) ++ s.

(** Number::toString, radix 10, for the decimals of the report. *)
Definition number_to_string (x : number) : string :=
  match x with
  | NaN => "NaN"
  | Infinity false => "Infinity"
  | Infinity true => "-Infinity"
  | Dec m e =>
      let '(m', e') := strip_zeros e m in
      let sign := if (m' <? 0)%Z then "-" else "" in
      let a := Z.abs m' in
      match e' with
      | O => sign ++ digits a
      | S _ =>
          let p := (10 ^ Z.of_nat e')%Z in
          sign ++ digits (a / p) ++ "." ++ pad_left e' (digits (a mod p))
      end
  end.

(** ** Values of attributes and console arguments *)

Inductive jsval : Type :=
| VUndefined
| VStr (s : string)
| VNum (x : number).

(** [String(v)] *)
Definition String_of (v : jsval) : string :=
  match v with
  | VUndefined => "undefined"
  | VStr s => s
  | VNum x => number_to_string x
  end.

(** ** utils.escape *)

(** Modelled from the spec: [utils.escape] is mocha's (lib/utils, not under
    src/).  The specification asks that the characters [&], [<], [>] and the
    double quote are XML-escaped, and shows [x<y] rendered as [x&lt;y]: each of
    the four characters becomes its predefined entity reference, every other
    character stays. *)
Definition escape_char (c : ascii) : string :=
  if (c =? "&")%char then "&amp;"
  else if (c =? "<")%char then "&lt;"
  else if (c =? ">")%char then "&gt;"
  else if (c =? Str.dquote)%char then "&quot;"
  else String c "".

Fixpoint escape_string (s : string) : string :=
  match s with
  | EmptyString => ""
  | String c r => escape_char c ++ escape_string r
  end.

(** [escape(html)] applies [String] to its argument first. *)
Definition escape (html : jsval) : string := escape_string (String_of html).

(** ** The tag helper *)

(** ToBoolean on the optional [content] argument: absent and the empty string
    are falsy. *)
Definition truthy_content (content : option string) : bool :=
  match content with
  | Some s => negb (Str.is_empty s)
  | None => false
  end.

Definition content_text (content : option string) : string :=
  match content with
  | Some s => s
  | None => ""
  end.

(** The attributes object: own enumerable keys in insertion order. *)
Definition attributes := list (string * jsval).

Definition pair_text (kv : string * jsval) : string :=
  fst kv ++ "=" ++ String Str.dquote (escape (snd kv) ++ String Str.dquote "").

Definition tag (name : string) (attrs : attributes) (close : bool)
    (content : option string) : string :=
  let end_ := if close then "/>" else ">" in
  let pairs := map pair_text attrs in
  let tag :=
    "<" ++ name
        ++ (match pairs with [] => "" | _ :: _ => " " ++ Str.join " " pairs end)
        ++ end_ in
  if truthy_content content
  then tag ++ content_text content ++ "</" ++ name ++ end_
  else tag.

(** ** Tests, events and the run summary *)

Inductive test_state : Type := STATE_FAILED | STATE_PASSED | STATE_PENDING.

(** [test.err], with what [Base] makes of it: [generated_diff] is
    [Some (Base.generateDiff(err.actual, err.expected))] when [Base.hideDiff]
    is off and [Base.showDiff(err)] holds, and [None] otherwise. *)
Record Err : Type := {
  message : string;
  stack : string;
  generated_diff : option string
}.

(** A test as the runner hands it over, with what the reporter reads of it.
    [parent_fullTitle] is [test.parent.fullTitle()] and [isPending] is
    [test.isPending()].  The runner sets [state], [duration] and [err] before
    it emits the event of the test.  The reporter keeps the reference and
    reads the test again when the run ends; it never writes to a test, and
    the runner is taken to leave a test as it is once its event is out. *)
Record Test : Type := {
  title : string;
  parent_fullTitle : string;
  duration : option number;
  state : option test_state;
  isPending : bool;
  speed : string;
  err : Err
}.

Inductive event : Type :=
| EVENT_RUN_BEGIN
| EVENT_SUITE_BEGIN (suite_title : string)
| EVENT_SUITE_END
| EVENT_TEST_PENDING (test : Test)
| EVENT_TEST_PASS (test : Test)
| EVENT_TEST_FAIL (test : Test)
| EVENT_RUN_END.

(** [this.stats], the run summary shared with the runner. *)
Record Stats : Type := {
  stats_tests : Z;
  stats_passes : Z;
  stats_failures : Z;
  stats_duration : option number
}.

(** ** Effects

    What the reporter does to the outside, in the order it does it. *)

Inductive callback : Type :=
| call_fn (failures : Z).                (* function () { fn(failures); } *)

Inductive effect : Type :=
| ConsoleLog (fmt : option string) (args : list jsval)  (* Base.consoleLog(fmt, ...args) *)
| StdoutWrite (chunk : string)                          (* process.stdout.write(chunk) *)
| MkdirSync (dir : string)                              (* fs.mkdirSync(dir, {recursive: true}) *)
| CreateWriteStream (path : string)                     (* fs.createWriteStream(path) *)
| FileWrite (chunk : string)                            (* this.fileStream.write(chunk) *)
| FileEnd (cb : callback)                               (* this.fileStream.end(cb) *)
| Epilogue                                              (* self.epilogue() *)
| Completion (failures : Z).                            (* fn(failures) *)

Inductive exn : Type :=
| RangeError (msg : string)
| TypeError (msg : string)
| UnsupportedError (msg : string)
| FsError (msg : string).

(** ** The reporter *)

(** The reporter instance with the variables its closures share.  [fileStream]
    holds the path the stream was opened on; [once_run_end] says the run-end
    listener, registered with [runner.once], has not fired yet. *)
Record XUnit : Type := {
  stats : Stats;
  tests : list Test;
  indents : Z;
  n : Z;
  suiteName : string;
  fileStream : option string;
  once_run_end : bool;
  log : list effect
}.

Inductive result (A : Type) : Type :=
| Ok (a : A) (s : XUnit)
| Throw (e : exn) (s : XUnit).
Arguments Ok {A} a s.
Arguments Throw {A} e s.

(** Code that reads and writes the reporter and may throw: the state it
    leaves behind is kept in both cases. *)
Definition M (A : Type) : Type := XUnit -> result A.

Definition ret {A} (a : A) : M A := fun s => Ok a s.

Definition bind {A B} (m : M A) (k : A -> M B) : M B :=
  fun s => match m s with
           | Ok a s' => k a s'
           | Throw e s' => Throw e s'
           end.

Definition throw {A} (e : exn) : M A := fun s => Throw e s.

Declare Scope xunit_scope.
Delimit Scope xunit_scope with xunit.
Notation "x <- m ;; k" := (bind m (fun x => k))
  (at level 61, m at next level, right associativity) : xunit_scope.
Notation "m ;; k" := (bind m (fun _ => k))
  (at level 61, right associativity) : xunit_scope.
Open Scope xunit_scope.

Definition final {A} (r : result A) : XUnit :=
  match r with
  | Ok _ s => s
  | Throw _ s => s
  end.

Definition thrown {A} (r : result A) : option exn :=
  match r with
  | Ok _ _ => None
  | Throw e _ => Some e
  end.

Definition emit_effect (e : effect) : M unit :=
  fun s => Ok tt {| stats := stats s; tests := tests s; indents := indents s;
                    n := n s; suiteName := suiteName s;
                    fileStream := fileStream s; once_run_end := once_run_end s;
                    log := (log s ++ [e])%list |}.

Definition tests_push (t : Test) : M unit :=
  fun s => Ok tt {| stats := stats s; tests := (tests s ++ [t])%list;
                    indents := indents s; n := n s; suiteName := suiteName s;
                    fileStream := fileStream s; once_run_end := once_run_end s;
                    log := log s |}.

Definition set_indents (z : Z) : M unit :=
  fun s => Ok tt {| stats := stats s; tests := tests s; indents := z;
                    n := n s; suiteName := suiteName s;
                    fileStream := fileStream s; once_run_end := once_run_end s;
                    log := log s |}.

Definition set_n (z : Z) : M unit :=
  fun s => Ok tt {| stats := stats s; tests := tests s; indents := indents s;
                    n := z; suiteName := suiteName s;
                    fileStream := fileStream s; once_run_end := once_run_end s;
                    log := log s |}.

Definition set_suiteName (name : string) : M unit :=
  fun s => Ok tt {| stats := stats s; tests := tests s; indents := indents s;
                    n := n s; suiteName := name;
                    fileStream := fileStream s; once_run_end := once_run_end s;
                    log := log s |}.

Definition set_fileStream (f : option string) : M unit :=
  fun s => Ok tt {| stats := stats s; tests := tests s; indents := indents s;
                    n := n s; suiteName := suiteName s;
                    fileStream := f; once_run_end := once_run_end s;
                    log := log s |}.

Definition set_once_run_end (b : bool) : M unit :=
  fun s => Ok tt {| stats := stats s; tests := tests s; indents := indents s;
                    n := n s; suiteName := suiteName s;
                    fileStream := fileStream s; once_run_end := b;
                    log := log s |}.

Definition set_stats (st : Stats) : M unit :=
  fun s => Ok tt {| stats := st; tests := tests s; indents := indents s;
                    n := n s; suiteName := suiteName s;
                    fileStream := fileStream s; once_run_end := once_run_end s;
                    log := log s |}.

Definition get {A} (f : XUnit -> A) : M A := fun s => Ok (f s) s.

(** [Base.consoleLog(fmt, ...args)]; [None] is the call with no argument. *)
Definition consoleLog (fmt : option string) (args : list jsval) : M unit :=
  emit_effect (ConsoleLog fmt args).

(** [Array(length).join(sep)]: a negative length is a RangeError; the join of
    [length] empty slots is [length - 1] separators. *)
Fixpoint repeat_string (k : nat) (sep : string) : string :=
  match k with
  | O => ""
  | S k' => sep ++ repeat_string k' sep
  end.

Definition Array_join (length : Z) (sep : string) : exn + string :=
  if (length <? 0)%Z then inl (RangeError "Invalid array length")
  else inr (repeat_string (Z.to_nat length - 1) sep).

Definition indent : M string :=
  fun s => match Array_join (indents s) "  " with
           | inl e => Throw e s
           | inr i => Ok i s
           end.

(** ** What the reporter finds around it *)

(** [options.reporterOptions] *)
Record ReporterOptions : Type := {
  output : option string;
  option_suiteName : option string
}.

Record Options : Type := {
  reporterOptions : option ReporterOptions
}.

(** The process and the modules the reporter calls.  [createWriteStream] says
    whether [fs.createWriteStream] is there; [mkdirSync] gives the message of
    the file-system error the call throws on a directory, if any;
    [process_stdout] says whether
    [process.stdout] is there; [now_toUTCString] is what
    [new Date().toUTCString()] reads when the run ends. *)
Record Env : Type := {
  MOCHA_FILE : option string;
  createWriteStream : bool;
  mkdirSync : string -> option string;
  dirname : string -> string;
  process_stdout : bool;
  color : string -> string -> string;
  symbols_ok : string;
  now_toUTCString : string;
  elapsed : option number
}.

(** ToBoolean on a string that may be undefined. *)
Definition truthy (v : option string) : bool :=
  match v with
  | Some s => negb (Str.is_empty s)
  | None => false
  end.

Definition DEFAULT_SUITE_NAME : string := "Mocha Tests".

Definition createUnsupportedError (msg : string) : exn := UnsupportedError msg.

(** Modelled from the spec: the counters of [stats] are kept by mocha's stats
    collector (lib/stats-collector, not under src/), whose listeners run
    before the reporter's.  The specification's run summary holds the total
    of tests, the passed and the failed count, with one test for each pass,
    fail or pending event, and the total duration, set when the run ends. *)
Definition collect (elapsed : option number) (ev : event) (st : Stats) : Stats :=
  match ev with
  | EVENT_TEST_PENDING _ =>
      {| stats_tests := stats_tests st + 1; stats_passes := stats_passes st;
         stats_failures := stats_failures st; stats_duration := stats_duration st |}
  | EVENT_TEST_PASS _ =>
      {| stats_tests := stats_tests st + 1; stats_passes := stats_passes st + 1;
         stats_failures := stats_failures st; stats_duration := stats_duration st |}
  | EVENT_TEST_FAIL _ =>
      {| stats_tests := stats_tests st + 1; stats_passes := stats_passes st;
         stats_failures := stats_failures st + 1; stats_duration := stats_duration st |}
  | EVENT_RUN_END =>
      {| stats_tests := stats_tests st; stats_passes := stats_passes st;
         stats_failures := stats_failures st; stats_duration := elapsed |}
  | _ => st
  end%Z.

Definition no_stats : Stats :=
  {| stats_tests := 0; stats_passes := 0; stats_failures := 0;
     stats_duration := None |}.

(** [x / 1000 || 0] on a duration field. *)
Definition seconds (d : option number) : number :=
  or_number (div1000 (ToNumber d)) (of_Z 0).

Definition js_of_duration (d : option number) : jsval :=
  match d with
  | Some x => VNum x
  | None => VUndefined
  end.

Section Reporter.

Variable env : Env.

(** *** XUnit.prototype.write *)
Definition write (line : string) : M unit :=
  f <- get fileStream ;;
  match f with
  | Some _ => emit_effect (FileWrite (line ++ String "010" ""))
  | None =>
      if process_stdout env
      then emit_effect (StdoutWrite (line ++ String "010" ""))
      else consoleLog (Some line) []
  end.

(** *** XUnit.prototype.test *)
Definition test_attrs (test : Test) : attributes :=
  [("classname", VStr (parent_fullTitle test));
   ("name", VStr (title test));
   ("time", VNum (seconds (duration test)))].

Definition diff_text (e : Err) : string :=
  match generated_diff e with
  | Some d => String "010" d
  | None => ""
  end.

Definition failure_content (e : Err) : string :=
  escape (VStr (message e)) ++ escape (VStr (diff_text e))
    ++ String "010" (escape (VStr (stack e))).

Definition is_failed (t : Test) : bool :=
  match state t with
  | Some STATE_FAILED => true
  | _ => false
  end.

Definition test_line (test : Test) : string :=
  let attrs := test_attrs test in
  if is_failed test then
    tag "testcase" attrs false
        (Some (tag "failure" [] false (Some (failure_content (err test)))))
  else if isPending test then
    tag "testcase" attrs false (Some (tag "skipped" [] true None))
  else
    tag "testcase" attrs true None.

Definition test (t : Test) : M unit := write (test_line t).

(** *** The listeners *)

Definition on_test_pending (test : Test) : M unit :=
  tests_push test ;;
  i <- indent ;;
  consoleLog (Some (i ++ color env "pending" "  - %s")) [VStr (title test)].

Definition on_test_pass (test : Test) : M unit :=
  tests_push test ;;
  if (speed test =? "fast")%string then
    i <- indent ;;
    consoleLog
      (Some (i ++ color env "checkmark" ("  " ++ symbols_ok env)
               ++ color env "pass" " %s"))
      [VStr (title test)]
  else
    i <- indent ;;
    consoleLog
      (Some (i ++ color env "checkmark" ("  " ++ symbols_ok env)
               ++ color env "pass" " %s"
               ++ color env (speed test) " (%dms)"))
      [VStr (title test); js_of_duration (duration test)].

Definition on_test_fail (test : Test) : M unit :=
  tests_push test ;;
  i <- indent ;;
  k <- get n ;;
  set_n (k + 1) ;;
  consoleLog (Some (i ++ color env "fail" "  %d) %s"))
             [VNum (of_Z (k + 1)); VStr (title test)].

Definition root_attrs (s : XUnit) : attributes :=
  let stats := stats s in
  [("name", VStr (suiteName s));
   ("tests", VNum (of_Z (stats_tests stats)));
   ("failures", VNum (of_Z 0));
   ("errors", VNum (of_Z (stats_failures stats)));
   ("skipped",
    VNum (of_Z (stats_tests stats - stats_failures stats - stats_passes stats)));
   ("timestamp", VStr (now_toUTCString env));
   ("time", VNum (seconds (stats_duration stats)))].

(** [tests.forEach(function (t) { self.test(t); })] *)
Fixpoint forEach (l : list Test) (f : Test -> M unit) : M unit :=
  match l with
  | [] => ret tt
  | t :: rest => f t ;; forEach rest f
  end.

Definition on_run_end : M unit :=
  s <- get (fun s => s) ;;
  write (tag "testsuite" (root_attrs s) false None) ;;
  forEach (tests s) test ;;
  write "</testsuite>" ;;
  emit_effect Epilogue.

Definition on_run_begin : M unit := consoleLog None [].

Definition on_suite_begin (suite_title : string) : M unit :=
  d <- get indents ;;
  set_indents (d + 1) ;;
  i <- indent ;;
  consoleLog (Some (color env "suite" "%s%s")) [VStr i; VStr suite_title].

Definition on_suite_end : M unit :=
  d <- get indents ;;
  set_indents (d - 1) ;;
  if (d - 1 =? 1)%Z then consoleLog None [] else ret tt.

(** The runner emits an event: the stats collector first, then the listener
    the reporter registered for it.  The run-end listener is a [once]
    listener. *)
Definition emit (ev : event) : M unit :=
  st <- get stats ;;
  set_stats (collect (elapsed env) ev st) ;;
  match ev with
  | EVENT_TEST_PENDING t => on_test_pending t
  | EVENT_TEST_PASS t => on_test_pass t
  | EVENT_TEST_FAIL t => on_test_fail t
  | EVENT_RUN_END =>
      armed <- get once_run_end ;;
      if armed then set_once_run_end false ;; on_run_end else ret tt
  | EVENT_RUN_BEGIN => on_run_begin
  | EVENT_SUITE_BEGIN title => on_suite_begin title
  | EVENT_SUITE_END => on_suite_end
  end.

(** The events of a run, one after the other; a listener that throws ends it. *)
Fixpoint run (evs : list event) : M unit :=
  match evs with
  | [] => ret tt
  | ev :: rest => emit ev ;; run rest
  end.

(** *** The constructor *)

(** The object [Base.call(this, runner, options)] leaves, before the body of
    the constructor runs. *)
Definition blank : XUnit :=
  {| stats := no_stats; tests := []; indents := 0; n := 0;
     suiteName := ""; fileStream := None; once_run_end := false; log := [] |}.

(** Lines 72 to 79: the output path and the suite name the options give. *)
Definition resolve_outputPath (options : option Options) : option string :=
  let outputPath := MOCHA_FILE env in
  match options with
  | Some {| reporterOptions := Some ro |} =>
      if truthy (output ro) && negb (truthy outputPath)
      then output ro
      else outputPath
  | _ => outputPath
  end.

Definition resolve_suiteName (options : option Options) : option string :=
  match options with
  | Some {| reporterOptions := Some ro |} => option_suiteName ro
  | _ => None
  end.

Definition open_file (outputPath : string) : M unit :=
  (if createWriteStream env then ret tt
   else throw (createUnsupportedError "file output not supported in browser")) ;;
  emit_effect (MkdirSync (dirname env outputPath)) ;;
  match mkdirSync env (dirname env outputPath) with
  | Some msg => throw (FsError msg)
  | None =>
      emit_effect (CreateWriteStream outputPath) ;;
      set_fileStream (Some outputPath)
  end.

Definition construct (options : option Options) : M unit :=
  let outputPath := resolve_outputPath options in
  let suiteName := resolve_suiteName options in
  (if truthy outputPath then open_file (content_text outputPath) else ret tt) ;;
  set_suiteName (if truthy suiteName then content_text suiteName
                 else DEFAULT_SUITE_NAME) ;;
  set_once_run_end true.

(** [new XUnit(runner, options)] *)
Definition new_XUnit (options : option Options) : result unit :=
  construct options blank.

(** *** XUnit.prototype.done *)
Definition done (failures : Z) : M unit :=
  f <- get fileStream ;;
  match f with
  | Some _ => emit_effect (FileEnd (call_fn failures))
  | None => emit_effect (Completion failures)
  end.

End Reporter.

(** ** Reading the report back

    A reader of the XML the report is written in: elements with attributes in
    double quotes, character data and the predefined entity references.  It
    goes through the text one character at a time and refuses what is not
    well formed: a name that starts with no name-start character, a [<]
    inside a value, an [&] that starts no reference, a repeated attribute, an
    end tag that does not match, text outside the root element.  It knows
    nothing of comments, processing instructions and CDATA sections, which
    the report never holds, and it leaves XML's character range and the
    normalisation of line ends and of attribute values aside: it gives the
    characters back as they stand in the text.  It is the means of reading
    an attribute or a child element out of a report; what a conforming
    processor makes of the characters is added in [standard_parse], further
    down, which the properties on a standard parser are stated with. *)

Module Xml.

#[local] Set Warnings "-register-all".

Inductive node : Type :=
| Element (name : string) (attrs : list (string * string)) (selfclosing : bool)
          (children : list node)
| Text (s : string).

Definition is_space (c : ascii) : bool :=
  (c =? " ")%char || (c =? "009")%char || (c =? "010")%char || (c =? "013")%char.

(** A letter, [_] or [:] starts a name; digits, [-] and [.] may follow. *)
Definition is_name_start (c : ascii) : bool :=
  let k := nat_of_ascii c in
  (((97 <=? k) && (k <=? 122)) || ((65 <=? k) && (k <=? 90))
   || (k =? 95) || (k =? 58))%nat.

Definition is_name_char (c : ascii) : bool :=
  let k := nat_of_ascii c in
  (is_name_start c || ((48 <=? k) && (k <=? 57)) || (k =? 45) || (k =? 46))%nat.

Definition entity (name : string) : option ascii :=
  if (name =? "amp")%string then Some "&"%char
  else if (name =? "lt")%string then Some "<"%char
  else if (name =? "gt")%string then Some ">"%char
  else if (name =? "quot")%string then Some Str.dquote
  else if (name =? "apos")%string then Some "'"%char
  else None.

(** Character data with its references replaced; [ref] holds the name of
    the reference being read. *)
Fixpoint decode_from (ref : option string) (s : string) : option string :=
  match s with
  | EmptyString => match ref with None => Some "" | Some _ => None end
  | String c r =>
      match ref with
      | None =>
          if (c =? "&")%char then decode_from (Some "") r
          else if (c =? "<")%char then None
          else option_map (String c) (decode_from None r)
      | Some name =>
          if (c =? ";")%char then
            match entity name with
            | Some x => option_map (String x) (decode_from None r)
            | None => None
            end
          else decode_from (Some (name ++ String c "")) r
      end
  end.

Definition decode (s : string) : option string := decode_from None s.

(** An element whose start tag has been read and whose end tag has not. *)
Record frame : Type := {
  f_name : string;
  f_attrs : list (string * string);
  f_children : list node
}.

Inductive mode : Type :=
| Content (raw : string)
| Lt
| OpenName (name : string)
| Gap (name : string) (attrs : list (string * string))
| Key (name : string) (attrs : list (string * string)) (key : string)
| Eq (name : string) (attrs : list (string * string)) (key : string)
| Val (name : string) (attrs : list (string * string)) (key raw : string)
| AfterVal (name : string) (attrs : list (string * string))
| Slash (name : string) (attrs : list (string * string))
| CloseName (name : string).

(** The open elements, innermost first; the last frame is the document. *)
Definition pstate : Type := mode * list frame.

Definition with_child (f : frame) (x : node) : frame :=
  {| f_name := f_name f; f_attrs := f_attrs f;
     f_children := (f_children f ++ [x])%list |}.

Definition add_child (x : node) (stack : list frame) : option (list frame) :=
  match stack with
  | f :: rest => Some (with_child f x :: rest)
  | [] => None
  end.

Definition flush (raw : string) (stack : list frame) : option (list frame) :=
  if Str.is_empty raw then Some stack
  else match decode raw with
       | Some s => add_child (Text s) stack
       | None => None
       end.

Fixpoint has_key (k : string) (attrs : list (string * string)) : bool :=
  match attrs with
  | [] => false
  | (k', _) :: rest => (k =? k')%string || has_key k rest
  end.

Definition tag_delim (name : string) (attrs : list (string * string))
    (stack : list frame) (c : ascii) : option pstate :=
  if is_space c then Some (Gap name attrs, stack)
  else if (c =? "/")%char then Some (Slash name attrs, stack)
  else if (c =? ">")%char then
    Some (Content "",
          {| f_name := name; f_attrs := attrs; f_children := [] |} :: stack)
  else None.

Definition step (st : pstate) (c : ascii) : option pstate :=
  let '(m, stack) := st in
  match m with
  | Content raw =>
      if (c =? "<")%char then
        match flush raw stack with
        | Some stack' => Some (Lt, stack')
        | None => None
        end
      else Some (Content (raw ++ String c ""), stack)
  | Lt =>
      if (c =? "/")%char then Some (CloseName "", stack)
      else if is_name_start c then Some (OpenName (String c ""), stack)
      else None
  | OpenName name =>
      if is_name_char c then Some (OpenName (name ++ String c ""), stack)
      else tag_delim name [] stack c
  | Gap name attrs =>
      if is_name_start c then Some (Key name attrs (String c ""), stack)
      else tag_delim name attrs stack c
  | Key name attrs key =>
      if (c =? "=")%char then Some (Eq name attrs key, stack)
      else if is_name_char c then Some (Key name attrs (key ++ String c ""), stack)
      else None
  | Eq name attrs key =>
      if (c =? Str.dquote)%char then Some (Val name attrs key "", stack)
      else None
  | Val name attrs key raw =>
      if (c =? Str.dquote)%char then
        match decode raw with
        | Some v =>
            if has_key key attrs then None
            else Some (AfterVal name (attrs ++ [(key, v)])%list, stack)
        | None => None
        end
      else if (c =? "<")%char then None
      else Some (Val name attrs key (raw ++ String c ""), stack)
  | AfterVal name attrs => tag_delim name attrs stack c
  | Slash name attrs =>
      if (c =? ">")%char then
        match add_child (Element name attrs true []) stack with
        | Some stack' => Some (Content "", stack')
        | None => None
        end
      else None
  | CloseName name =>
      if (c =? ">")%char then
        match stack with
        | f :: parent :: rest =>
            if (f_name f =? name)%string then
              match add_child (Element (f_name f) (f_attrs f) false (f_children f))
                              (parent :: rest) with
              | Some stack' => Some (Content "", stack')
              | None => None
              end
            else None
        | _ => None
        end
      else if is_name_char c then Some (CloseName (name ++ String c ""), stack)
      else None
  end.

Fixpoint sax (st : pstate) (s : string) : option pstate :=
  match s with
  | EmptyString => Some st
  | String c r =>
      match step st c with
      | Some st' => sax st' r
      | None => None
      end
  end.

Definition document : frame :=
  {| f_name := ""; f_attrs := []; f_children := [] |}.

Definition is_blank_text (x : node) : bool :=
  match x with
  | Text s => Str.all is_space s
  | Element _ _ _ _ => false
  end.

(** A document is one root element, with nothing but white space around. *)
Definition finish (st : pstate) : option node :=
  match st with
  | (Content raw, [doc]) =>
      if Str.all is_space raw then
        match filter (fun x => negb (is_blank_text x)) (f_children doc) with
        | [Element name attrs sc kids] => Some (Element name attrs sc kids)
        | _ => None
        end
      else None
  | _ => None
  end.

Definition parse (s : string) : option node :=
  match sax (Content "", [document]) s with
  | Some st => finish st
  | None => None
  end.

Definition is_element (x : node) : bool :=
  match x with
  | Element _ _ _ _ => true
  | Text _ => false
  end.

(** The child elements of an element, in document order. *)
Definition elements (x : node) : list node :=
  match x with
  | Element _ _ _ kids => filter is_element kids
  | Text _ => []
  end.

Fixpoint lookup (k : string) (attrs : list (string * string)) : option string :=
  match attrs with
  | [] => None
  | (k', v) :: rest => if (k =? k')%string then Some v else lookup k rest
  end.

(** The value of an attribute of an element. *)
Definition attribute (k : string) (x : node) : option string :=
  match x with
  | Element _ attrs _ _ => lookup k attrs
  | Text _ => None
  end.

Definition attribute_names (x : node) : list string :=
  match x with
  | Element _ attrs _ _ => map fst attrs
  | Text _ => []
  end.

End Xml.

Import Xml.

(** * What the properties speak of *)

(** ** The report as its sink receives it *)

(** The text the reporter has sent to its XML sink. *)
Definition written_chunk (e : effect) : string :=
  match e with
  | FileWrite chunk => chunk
  | StdoutWrite chunk => chunk
  | ConsoleLog (Some line) [] => line ++ String "010" ""
  | _ => ""
  end.

Definition report (s : XUnit) : string := Str.flat (map written_chunk (log s)).

Definition with_log (s : XUnit) (l : list effect) : XUnit :=
  {| stats := stats s; tests := tests s; indents := indents s; n := n s;
     suiteName := suiteName s; fileStream := fileStream s;
     once_run_end := once_run_end s; log := l |}.

(** The call [write] makes for a line, by the sink the reporter has. *)
Definition write_effect (env : Env) (f : option string) (line : string) : effect :=
  match f with
  | Some _ => FileWrite (line ++ String "010" "")
  | None =>
      if process_stdout env then StdoutWrite (line ++ String "010" "")
      else ConsoleLog (Some line) []
  end.

(** The lines of the report: the root start tag, a line for each test, the
    root end tag. *)
Definition report_lines (env : Env) (s : XUnit) : list string :=
  (tag "testsuite" (root_attrs env s) false None
     :: map test_line (tests s) ++ ["</testsuite>"])%list.

Definition lines_text (lines : list string) : string :=
  Str.flat (map (fun line => line ++ String "010" "") lines).

(** ** What a reader finds in the report *)

(** A name a start tag, an end tag or an attribute may carry. *)
Definition name_ok (s : string) : bool :=
  match s with
  | EmptyString => false
  | String c r => is_name_start c && Str.all is_name_char r
  end.

(** The attributes as the reader gives them back: the keys, with the text of
    each value. *)
Definition read_attrs (attrs : attributes) : list (string * string) :=
  map (fun kv => (fst kv, String_of (snd kv))) attrs.

Fixpoint keys_ok (seen : list (string * string)) (attrs : attributes) : bool :=
  match attrs with
  | [] => true
  | (k, v) :: rest =>
      name_ok k && negb (has_key k seen)
      && keys_ok (seen ++ [(k, String_of v)])%list rest
  end.

Definition attrs_text (attrs : attributes) : string :=
  Str.flat (map (fun kv => " " ++ pair_text kv) attrs).

Definition end_text (close : bool) : string := if close then "/>" else ">".

(** The text of a failure, before it is escaped. *)
Definition failure_text (e : Err) : string :=
  message e ++ diff_text e ++ String "010" (stack e).

(** What a reader finds in the line of a test: the strings are those of the
    test itself, not their escaped form. *)
Definition test_node (t : Test) : node :=
  let attrs :=
    [("classname", parent_fullTitle t); ("name", title t);
     ("time", number_to_string (seconds (duration t)))] in
  if is_failed t then
    Element "testcase" attrs false
            [Element "failure" [] false [Text (failure_text (err t))]]
  else if isPending t then
    Element "testcase" attrs false [Element "skipped" [] true []]
  else
    Element "testcase" attrs true [].

Definition summary_attrs (env : Env) (name : string) (st : Stats) : attributes :=
  [("name", VStr name);
   ("tests", VNum (of_Z (stats_tests st)));
   ("failures", VNum (of_Z 0));
   ("errors", VNum (of_Z (stats_failures st)));
   ("skipped",
    VNum (of_Z (stats_tests st - stats_failures st - stats_passes st)));
   ("timestamp", VStr (now_toUTCString env));
   ("time", VNum (seconds (stats_duration st)))].

Definition document_text (env : Env) (name : string) (st : Stats)
    (ts : list Test) : string :=
  lines_text (tag "testsuite" (summary_attrs env name st) false None
                :: map test_line ts ++ ["</testsuite>"])%list.

(** What a reader finds in the report: the root with the summary, and a
    [testcase] for each test, in their order, each after a line break. *)
Definition document_node (env : Env) (name : string) (st : Stats)
    (ts : list Test) : Xml.node :=
  Xml.Element "testsuite" (read_attrs (summary_attrs env name st)) false
    (flat_map (fun t => [Xml.Text (String "010" ""); test_node t]) ts
       ++ [Xml.Text (String "010" "")])%list.

Definition with_children (f : Xml.frame) (l : list Xml.node) : Xml.frame :=
  {| Xml.f_name := Xml.f_name f; Xml.f_attrs := Xml.f_attrs f;
     Xml.f_children := (Xml.f_children f ++ l)%list |}.



(** The outcome a buffered test shows when the report is written:
    [XUnit.prototype.test] looks at [test.state] first and at
    [test.isPending()] next. *)
Inductive Outcome : Type := Passed | Failed | Pending.

Definition outcome (t : Test) : Outcome :=
  match state t with
  | Some STATE_FAILED => Failed
  | _ => if isPending t then Pending else Passed
  end.

Definition testcase_attrs (t : Test) : list (string * string) :=
  [("classname", parent_fullTitle t);
   ("name", title t);
   ("time", number_to_string (seconds (duration t)))].

(** The [testcase] element of each outcome. *)
Definition shape (o : Outcome) (t : Test) : Xml.node :=
  match o with
  | Failed =>
      Xml.Element "testcase" (testcase_attrs t) false
        [Xml.Element "failure" [] false [Xml.Text (failure_text (err t))]]
  | Pending =>
      Xml.Element "testcase" (testcase_attrs t) false
        [Xml.Element "skipped" [] true []]
  | Passed => Xml.Element "testcase" (testcase_attrs t) true []
  end.

Definition time_of (x : Xml.node) : option string := Xml.attribute "time" x.

(** ** Events and the counter *)

Definition tests_of_event (ev : event) : list Test :=
  match ev with
  | EVENT_TEST_PENDING t | EVENT_TEST_PASS t | EVENT_TEST_FAIL t => [t]
  | _ => []
  end.

(** The tests of the pass, fail and pending events, in the order of arrival. *)
Definition tests_of (evs : list event) : list Test :=
  flat_map tests_of_event evs.

Definition delta (ev : event) : Z :=
  match ev with
  | EVENT_SUITE_BEGIN _ => 1
  | EVENT_SUITE_END => -1
  | _ => 0
  end.

(** The listeners that call [indent()]. *)
Definition calls_indent (ev : event) : bool :=
  match ev with
  | EVENT_TEST_PENDING _ | EVENT_TEST_PASS _ | EVENT_TEST_FAIL _
  | EVENT_SUITE_BEGIN _ => true
  | _ => false
  end.

Definition is_run_end (ev : event) : bool :=
  match ev with
  | EVENT_RUN_END => true
  | _ => false
  end.

Definition is_test_event (ev : event) : bool :=
  match ev with
  | EVENT_TEST_PENDING _ | EVENT_TEST_PASS _ | EVENT_TEST_FAIL _ => true
  | _ => false
  end.

Definition is_pass (ev : event) : bool :=
  match ev with EVENT_TEST_PASS _ => true | _ => false end.

Definition is_fail (ev : event) : bool :=
  match ev with EVENT_TEST_FAIL _ => true | _ => false end.

(** The number of the events of [evs] that pass the test [p]. *)
Definition count (p : event -> bool) (evs : list event) : Z :=
  Z.of_nat (List.length (filter p evs)).

(** No listener of [evs] finds a negative counter when it calls [indent()],
    the counter being [d] before the first event. *)
Fixpoint safe (d : Z) (evs : list event) : bool :=
  match evs with
  | [] => true
  | ev :: rest =>
      negb (calls_indent ev && (d + delta ev <? 0)%Z) && safe (d + delta ev) rest
  end.

Definition summary (env : Env) (evs : list event) (st : Stats) : Stats :=
  fold_left (fun st ev => collect (elapsed env) ev st) evs st.

(** The summary when the run-end listener of the reporter runs. *)
Definition final_summary (env : Env) (evs : list event) : Stats :=
  collect (elapsed env) EVENT_RUN_END (summary env evs no_stats).

Definition is_suite_begin (ev : event) : bool :=
  match ev with EVENT_SUITE_BEGIN _ => true | _ => false end.

Definition is_suite_end (ev : event) : bool :=
  match ev with EVENT_SUITE_END => true | _ => false end.

Definition begins (evs : list event) : nat := List.length (filter is_suite_begin evs).

Definition ends (evs : list event) : nat := List.length (filter is_suite_end evs).

(** At every prefix the suite-end events do not outnumber the suite-begin
    events. *)
Definition balanced (evs : list event) : Prop :=
  forall k, (ends (firstn k evs) <= begins (firstn k evs))%nat.

(** The counter after [evs], from [d]. *)
Definition depth (d : Z) (evs : list event) : Z :=
  fold_left (fun d ev => (d + delta ev)%Z) evs d.

(** The indentation [indent()] prints at a value of the counter, when it
    returns one. *)
Definition printed_indent (d : Z) : option string :=
  match Array_join d "  " with
  | inr i => Some i
  | inl _ => None
  end.

(** The indentation is back at the top level: lines carried an indentation
    before, and carry none now. *)
Definition returns_to_top_level (before after : Z) : Prop :=
  printed_indent after = Some ""
  /\ exists i, printed_indent before = Some i /\ i <> "".

(** ** Construction *)

(** [options.reporterOptions.output], when the options have it. *)
Definition option_output (options : option Options) : option string :=
  match options with
  | Some {| reporterOptions := Some ro |} => output ro
  | _ => None
  end.

(** The reporter a construction that does not throw returns. *)
Definition constructed (env : Env) (options : option Options) : XUnit :=
  let outputPath := resolve_outputPath env options in
  let suiteName := resolve_suiteName options in
  {| stats := no_stats; tests := []; indents := 0; n := 0;
     suiteName := if truthy suiteName then content_text suiteName
                  else DEFAULT_SUITE_NAME;
     fileStream := if truthy outputPath then Some (content_text outputPath)
                   else None;
     once_run_end := true;
     log := if truthy outputPath
            then [MkdirSync (dirname env (content_text outputPath));
                  CreateWriteStream (content_text outputPath)]
            else [] |}.

(** C7, as the specification states it: the [output] of the options is the
    path used only when the environment variable is unset. *)
Definition precedence_as_stated : Prop :=
  forall (env : Env) (options : option Options) (path : string),
    option_output options = Some path ->
    resolve_outputPath env options = Some path ->
    MOCHA_FILE env <> Some path ->
    MOCHA_FILE env = None.

(** ** Numbers *)

(** The value of a finite number. *)
Definition value (x : number) : option Q :=
  match x with
  | Dec m e => Some (inject_Z m / inject_Z (10 ^ Z.of_nat e))%Q
  | _ => None
  end.

(** ** The file sink *)

(** Modelled from the spec: the file sink is the stream [fs.createWriteStream]
    returns (the runtime's, not under src/).  [write] queues a chunk; the
    chunks reach the file in the order they were queued, one at each turn of
    the event loop; [end(cb)] asks the stream to finish, and the stream calls
    [cb] once, when it has finished: after the last queued chunk has reached
    the file. *)
Record WriteStream : Type := {
  queued : list string;
  file : list string;
  on_finish : option callback;
  finished : bool
}.

(** The sink and what its callbacks have done: each call of [fn], with the
    chunks the file held at that time. *)
Record World : Type := {
  stream : WriteStream;
  completions : list (Z * list string)
}.

Definition opened : World :=
  {| stream := {| queued := []; file := []; on_finish := None; finished := false |};
     completions := [] |}.

Inductive tick : Type :=
| Call (e : effect)     (* the reporter calls the stream *)
| Turn.                 (* the event loop gives the stream a turn *)

Definition stream_call (e : effect) (w : WriteStream) : WriteStream :=
  match e with
  | FileWrite chunk =>
      {| queued := (queued w ++ [chunk])%list; file := file w;
         on_finish := on_finish w; finished := finished w |}
  | FileEnd cb =>
      {| queued := queued w; file := file w;
         on_finish := Some cb; finished := finished w |}
  | _ => w
  end.

Definition turn (w : World) : World :=
  let st := stream w in
  match queued st with
  | chunk :: rest =>
      {| stream := {| queued := rest; file := (file st ++ [chunk])%list;
                      on_finish := on_finish st; finished := finished st |};
         completions := completions w |}
  | [] =>
      match on_finish st, finished st with
      | Some (call_fn failures), false =>
          {| stream := {| queued := []; file := file st;
                          on_finish := on_finish st; finished := true |};
             completions := (completions w ++ [(failures, file st)])%list |}
      | _, _ => w
      end
  end.

Definition play_tick (w : World) (t : tick) : World :=
  match t with
  | Call e => {| stream := stream_call e (stream w); completions := completions w |}
  | Turn => turn w
  end.

Definition play (sched : list tick) (w : World) : World :=
  fold_left play_tick sched w.

Definition calls (sched : list tick) : list effect :=
  flat_map (fun t => match t with Call e => [e] | Turn => [] end) sched.

Definition is_file_call (e : effect) : bool :=
  match e with
  | FileWrite _ | FileEnd _ => true
  | _ => false
  end.

Definition is_file_end (e : effect) : bool :=
  match e with
  | FileEnd _ => true
  | _ => false
  end.

(** The chunks the reporter has written to its file stream. *)
Definition file_chunks (l : list effect) : list string :=
  flat_map (fun e => match e with FileWrite chunk => [chunk] | _ => [] end) l.

(** Where the stream stands after the calls of [chunks], and of [end] with a
    callback on [ended] if there is one. *)
Definition stream_inv (chunks : list string) (ended : option Z) (w : World) : Prop :=
  (file (stream w) ++ queued (stream w))%list = chunks
  /\ on_finish (stream w) = option_map call_fn ended
  /\ ((completions w = [] /\ finished (stream w) = false)
      \/ (exists f, ended = Some f /\ queued (stream w) = []
                    /\ finished (stream w) = true
                    /\ completions w = [(f, chunks)])).

(** ** Sample inputs *)

Definition sample_env : Env :=
  {| MOCHA_FILE := None; createWriteStream := true; mkdirSync := fun _ => None;
     dirname := fun p => p; process_stdout := true;
     color := fun _ s => s; symbols_ok := "ok";
     now_toUTCString := "Thu, 01 Jan 1970 00:00:00 GMT";
     elapsed := Some (of_Z 7) |}.

Definition t1 : Test :=
  {| title := "t1"; parent_fullTitle := "A"; duration := Some (of_Z 5);
     state := Some STATE_PASSED; isPending := false; speed := "fast";
     err := {| message := ""; stack := ""; generated_diff := None |} |}.

Definition t2 : Test :=
  {| title := "t2"; parent_fullTitle := "A"; duration := Some (of_Z 12);
     state := Some STATE_FAILED; isPending := false; speed := "fast";
     err := {| message := "x<y"; stack := "at <anonymous>"; generated_diff := None |} |}.

Definition t3 : Test :=
  {| title := "a & b say " ++ String Str.dquote ("<hi>" ++ String Str.dquote "");
     parent_fullTitle := "Suite <T> & more";
     duration := None; state := Some STATE_FAILED; isPending := false;
     speed := "fast";
     err := {| message := "expected 1 < 0 && true";
               stack := "Error: at <anonymous> & co";
               generated_diff := Some "+ <a>" |} |}.

Definition scenario : list event :=
  [EVENT_SUITE_BEGIN "A"; EVENT_TEST_PASS t1; EVENT_TEST_FAIL t2;
   EVENT_SUITE_END; EVENT_RUN_END].

Definition sample_tests : list event := [EVENT_TEST_PASS t1; EVENT_TEST_FAIL t2].

Definition file_env : Env :=
  {| MOCHA_FILE := Some "out/report.xml"; createWriteStream := true;
     mkdirSync := fun _ => None; dirname := fun _ => "out";
     process_stdout := true;
     color := fun _ s => s; symbols_ok := "ok";
     now_toUTCString := "Thu, 01 Jan 1970 00:00:00 GMT";
     elapsed := Some (of_Z 7) |}.

(** A reporter with a file sink, after a run that wrote three lines. *)
Definition three_writes : XUnit :=
  final (run file_env [EVENT_TEST_PASS t1; EVENT_RUN_END]
             (constructed file_env None)).

(** The calls of that reporter, then [end], with turns of the stream between. *)
Definition three_writes_sched : list tick :=
  (map Call (log three_writes)
     ++ [Turn; Call (FileEnd (call_fn 0)); Turn; Turn; Turn])%list.

Definition no_stream_env : Env :=
  {| MOCHA_FILE := Some "report.xml"; createWriteStream := false;
     mkdirSync := fun _ => None; dirname := fun p => p; process_stdout := false;
     color := fun _ s => s; symbols_ok := "ok";
     now_toUTCString := "Thu, 01 Jan 1970 00:00:00 GMT";
     elapsed := None |}.

Definition empty_variable_env : Env :=
  {| MOCHA_FILE := Some ""; createWriteStream := true;
     mkdirSync := fun _ => None; dirname := fun p => p; process_stdout := true;
     color := fun _ s => s; symbols_ok := "ok";
     now_toUTCString := "Thu, 01 Jan 1970 00:00:00 GMT";
     elapsed := None |}.

Definition output_options : option Options :=
  Some {| reporterOptions :=
            Some {| output := Some "report.xml"; option_suiteName := None |} |}.

(** ** Markup built with the tag helper *)

#[local] Set Warnings "-register-all".

(** An element as calls of [tag] nest it: self-closing, with escaped text as
    its content, or with other elements as its content. *)
Inductive markup : Type :=
| Empty (name : string) (attrs : attributes)
| TextElement (name : string) (attrs : attributes) (text : string)
| Parent (name : string) (attrs : attributes) (children : list markup).

(** The calls of [tag] that write the element. *)
Fixpoint render (m : markup) : string :=
  match m with
  | Empty name attrs => tag name attrs true None
  | TextElement name attrs text =>
      tag name attrs false (Some (escape (VStr text)))
  | Parent name attrs children =>
      tag name attrs false (Some (Str.flat (map render children)))
  end.

(** What a reader is to find. *)
Fixpoint tree (m : markup) : node :=
  match m with
  | Empty name attrs => Element name (read_attrs attrs) true []
  | TextElement name attrs text =>
      Element name (read_attrs attrs) false [Text text]
  | Parent name attrs children =>
      Element name (read_attrs attrs) false (map tree children)
  end.

(** Names are names, no key comes twice, and no content is empty: [tag]
    leaves an element with empty content open. *)
Fixpoint well_formed (m : markup) : bool :=
  match m with
  | Empty name attrs => name_ok name && keys_ok [] attrs
  | TextElement name attrs text =>
      name_ok name && keys_ok [] attrs && negb (Str.is_empty text)
  | Parent name attrs children =>
      name_ok name && keys_ok [] attrs
      && negb (match children with [] => true | _ :: _ => false end)
      && forallb well_formed children
  end.

Definition sample_markup : markup :=
  Parent "testsuite" [("name", VStr "a < b"); ("tests", VNum (of_Z 2))]
    [Empty "testcase" [("name", VStr "one")];
     Parent "testcase" [("name", VStr "two")]
       [TextElement "failure" [] ("x<y & " ++ String Str.dquote "z")]].

(** ** The calls of the listeners *)

(** A call that prints a line of the console transcript: [Base.consoleLog]
    with no argument, or with a format and arguments for it. *)
Definition is_console_line (e : effect) : bool :=
  match e with
  | ConsoleLog None [] => true
  | ConsoleLog (Some _) (_ :: _) => true
  | _ => false
  end.

Definition is_epilogue (e : effect) : bool :=
  match e with
  | Epilogue => true
  | _ => false
  end.

(** A call on the file system or on the file stream. *)
Definition is_fs_call (e : effect) : bool :=
  match e with
  | MkdirSync _ | CreateWriteStream _ | FileWrite _ | FileEnd _ => true
  | _ => false
  end.

(** A call that sends a line of the report to the sink [write] chooses for a
    reporter whose [fileStream] is [f]. *)
Definition sink_call (env : Env) (f : option string) (e : effect) : bool :=
  match e, f with
  | FileWrite _, Some _ => true
  | StdoutWrite _, None => process_stdout env
  | ConsoleLog (Some _) [], None => negb (process_stdout env)
  | _, _ => false
  end.

Definition run_call (env : Env) (f : option string) (e : effect) : bool :=
  is_console_line e || is_epilogue e || sink_call env f e.

Definition not_run_end (ev : event) : bool := negb (is_run_end ev).

(** The line the listener of a test or of a suite prints, [i] being what
    [indent()] returns and [k] the failures counted before. *)
Definition console_line (env : Env) (i : string) (k : Z) (ev : event)
    : list effect :=
  match ev with
  | EVENT_SUITE_BEGIN suite_title =>
      [ConsoleLog (Some (color env "suite" "%s%s")) [VStr i; VStr suite_title]]
  | EVENT_TEST_PENDING t =>
      [ConsoleLog (Some (i ++ color env "pending" "  - %s")) [VStr (title t)]]
  | EVENT_TEST_PASS t =>
      if (speed t =? "fast")%string then
        [ConsoleLog
           (Some (i ++ color env "checkmark" ("  " ++ symbols_ok env)
                    ++ color env "pass" " %s"))
           [VStr (title t)]]
      else
        [ConsoleLog
           (Some (i ++ color env "checkmark" ("  " ++ symbols_ok env)
                    ++ color env "pass" " %s"
                    ++ color env (speed t) " (%dms)"))
           [VStr (title t); js_of_duration (duration t)]]
  | EVENT_TEST_FAIL t =>
      [ConsoleLog (Some (i ++ color env "fail" "  %d) %s"))
                  [VNum (of_Z (k + 1)); VStr (title t)]]
  | _ => []
  end.

(** The reporter when its run-end listener starts: the collector has set the
    duration, and the listener is no longer registered. *)
Definition at_run_end (env : Env) (s : XUnit) : XUnit :=
  {| stats := collect (elapsed env) EVENT_RUN_END (stats s);
     tests := tests s; indents := indents s; n := n s;
     suiteName := suiteName s; fileStream := fileStream s;
     once_run_end := false; log := log s |}.

(** The calls the listener of [ev] makes on a reporter [s]. *)
Definition listener_calls (env : Env) (s : XUnit) (ev : event) : list effect :=
  match ev with
  | EVENT_RUN_BEGIN => [ConsoleLog None []]
  | EVENT_SUITE_END =>
      if (indents s - 1 =? 1)%Z then [ConsoleLog None []] else []
  | EVENT_RUN_END =>
      if once_run_end s
      then (map (write_effect env (fileStream s))
                (report_lines env (at_run_end env s)) ++ [Epilogue])%list
      else []
  | _ =>
      match printed_indent (indents s + delta ev) with
      | Some i => console_line env i (n s) ev
      | None => []
      end
  end.

(** ** The failures on the console *)

(** The number and the title of a line of the form [%d) %s]. *)
Definition failure_line (e : effect) : list (number * string) :=
  match e with
  | ConsoleLog (Some _) [VNum k; VStr name] => [(k, name)]
  | _ => []
  end.

Definition failure_lines (l : list effect) : list (number * string) :=
  flat_map failure_line l.

(** The tests of the fail events, in the order of arrival. *)
Definition failed_of (evs : list event) : list Test :=
  flat_map (fun ev => match ev with EVENT_TEST_FAIL t => [t] | _ => [] end) evs.

(** Titles numbered from [k + 1] on. *)
Fixpoint numbered (k : Z) (titles : list string) : list (number * string) :=
  match titles with
  | [] => []
  | name :: rest => (of_Z (k + 1), name) :: numbered (k + 1) rest
  end.

(** The suites that are open after [evs]. *)
Definition open_suites (evs : list event) : Z :=
  (Z.of_nat (begins evs) - Z.of_nat (ends evs))%Z.

Definition is_suite_event (ev : event) : bool :=
  is_suite_begin ev || is_suite_end ev.

(** ** More sample inputs *)

Definition two_ends : list event :=
  [EVENT_RUN_BEGIN; EVENT_SUITE_BEGIN ""; EVENT_SUITE_BEGIN "A";
   EVENT_TEST_PASS t1; EVENT_TEST_FAIL t2; EVENT_SUITE_END; EVENT_SUITE_END;
   EVENT_RUN_END; EVENT_TEST_FAIL t3; EVENT_RUN_END].

Definition nested : list event :=
  [EVENT_RUN_BEGIN; EVENT_SUITE_BEGIN ""; EVENT_SUITE_BEGIN "A";
   EVENT_TEST_FAIL t2; EVENT_SUITE_BEGIN "B"; EVENT_TEST_PASS t1;
   EVENT_TEST_FAIL t3; EVENT_SUITE_END; EVENT_SUITE_END; EVENT_SUITE_END].

Definition named_options : option Options :=
  Some {| reporterOptions :=
            Some {| output := None; option_suiteName := Some "Unit <tests>" |} |}.


Definition failing_mkdir_env : Env :=
  {| MOCHA_FILE := Some "out/report.xml"; createWriteStream := true;
     mkdirSync := fun _ => Some "EACCES: permission denied";
     dirname := fun _ => "out"; process_stdout := true;
     color := fun _ s => s; symbols_ok := "ok";
     now_toUTCString := "Thu, 01 Jan 1970 00:00:00 GMT";
     elapsed := Some (of_Z 7) |}.

Definition console_env : Env :=
  {| MOCHA_FILE := None; createWriteStream := false; mkdirSync := fun _ => None;
     dirname := fun p => p; process_stdout := false;
     color := fun _ s => s; symbols_ok := "ok";
     now_toUTCString := "Thu, 01 Jan 1970 00:00:00 GMT";
     elapsed := Some (of_Z 7) |}.

(** ** The indentation claim as the specification states it *)

(** C10, second half, as the specification states it: once the suite-end
    events outnumber the suite-begin events, a run in which a later handler
    computes an indent throws. *)
Definition outnumbering_as_stated : Prop :=
  forall (env : Env) (options : option Options) (s : XUnit)
         (pre rest : list event),
    new_XUnit env options = Ok tt s ->
    (begins pre < ends pre)%nat ->
    existsb calls_indent rest = true ->
    thrown (run env (pre ++ rest) s) <> None.

(** A suite-end event first, then a suite with two tests. *)
Definition late_begin : list event :=
  [EVENT_SUITE_END; EVENT_SUITE_BEGIN "A"; EVENT_TEST_PASS t1;
   EVENT_TEST_FAIL t2; EVENT_RUN_END].

(** ** The value of a duration field *)

(** What [test.duration] can hold when [test()] divides it by 1000: the
    runner sets a number or leaves the field undefined; [null], a boolean, a
    string, a BigInt and a Symbol are what else a caller can put there.
    Objects, whose conversion runs their own [valueOf], are left out. *)
Inductive dvalue : Type :=
| DUndefined
| DNull
| DBoolean (b : bool)
| DNumber (x : number)
| DString (s : string)
| DBigInt (z : Z)
| DSymbol (description : string).

(** The left operand of [v / 1000] as a number (ToNumeric, and both operands
    of one type): a Symbol has no number, and a BigInt does not divide by
    the number 1000.  [StringToNumber] is the number a string stands for,
    NaN when it stands for none. *)
Definition numeric_operand (StringToNumber : string -> number) (v : dvalue)
    : exn + number :=
  match v with
  | DUndefined => inr NaN
  | DNull => inr (of_Z 0)
  | DBoolean b => inr (of_Z (if b then 1 else 0))
  | DNumber x => inr x
  | DString s => inr (StringToNumber s)
  | DBigInt _ =>
      inl (TypeError "Cannot mix BigInt and other types, use explicit conversions")
  | DSymbol _ => inl (TypeError "Cannot convert a Symbol value to a number")
  end.

(** [v / 1000 || 0] *)
Definition seconds_of_value (StringToNumber : string -> number) (v : dvalue)
    : exn + number :=
  match numeric_operand StringToNumber v with
  | inl e => inl e
  | inr x => inr (or_number (div1000 x) (of_Z 0))
  end.

(** The field of a test of the runner: a number, or undefined. *)
Definition value_of_field (d : option number) : dvalue :=
  match d with
  | Some x => DNumber x
  | None => DUndefined
  end.

Definition with_duration (t : Test) (d : option number) : Test :=
  {| title := title t; parent_fullTitle := parent_fullTitle t; duration := d;
     state := state t; isPending := isPending t; speed := speed t;
     err := err t |}.

(** [XUnit.prototype.test] on a test whose [duration] holds [v], its other
    fields being those of [t]: the attributes are built first (lines 207 to
    211), so that a division that throws leaves nothing written. *)
Definition test_with_duration (env : Env) (StringToNumber : string -> number)
    (v : dvalue) (t : Test) : M unit :=
  match numeric_operand StringToNumber v with
  | inl e => throw e
  | inr x => test env (with_duration t (Some x))
  end.

(** C8, its last part, as the specification states it: no value of a
    duration makes [test()] throw. *)
Definition no_duration_error_as_stated : Prop :=
  forall (env : Env) (StringToNumber : string -> number) (v : dvalue)
         (t : Test) (s : XUnit),
    thrown (test_with_duration env StringToNumber v t s) = None.

(** A reading of strings that knows no numeral. *)
Definition no_numeral (s : string) : number := NaN.

(** ** The decimal notation of thousandths *)

(** The durations of the runner are whole milliseconds, differences of two
    [Date]s.  Below 10^15 their thousandth has at most 15 significant
    digits, and JavaScript prints the quotient as this exact decimal. *)
Definition whole_ms (d : Z) : bool := ((0 <=? d) && (d <? 10 ^ 15))%Z.

Definition digit (k : Z) : ascii := ascii_of_nat (48 + Z.to_nat k).

(** The fraction of [r] thousandths, [r] below 1000: nothing for 0, and
    else a point and the three digits of [r] without the zeros at the end. *)
Definition thousandths (r : Z) : string :=
  let a := (r / 100)%Z in
  let b := ((r / 10) mod 10)%Z in
  let c := (r mod 10)%Z in
  if negb (c =? 0)%Z then
    String "." (String (digit a) (String (digit b) (String (digit c) "")))
  else if negb (b =? 0)%Z then
    String "." (String (digit a) (String (digit b) ""))
  else if negb (a =? 0)%Z then String "." (String (digit a) "")
  else "".

(** [d] milliseconds in seconds: the whole seconds, then the thousandths. *)
Definition decimal_text (d : Z) : string :=
  digits (d / 1000) ++ thousandths (d mod 1000).

(** The fraction as [number_to_string] prints it for [r] thousandths. *)
Definition printed_fraction (r : Z) : string :=
  if negb (r mod 10 =? 0)%Z then "." ++ pad_left 3 (digits r)
  else if negb ((r / 10) mod 10 =? 0)%Z then "." ++ pad_left 2 (digits (r / 10))
  else if negb ((r / 100) mod 10 =? 0)%Z then "." ++ pad_left 1 (digits (r / 100))
  else "".

(** ** Sample durations *)

Definition t_slow : Test :=
  {| title := "slow"; parent_fullTitle := "A"; duration := Some (of_Z 1250);
     state := Some STATE_PASSED; isPending := false; speed := "slow";
     err := {| message := ""; stack := ""; generated_diff := None |} |}.

(** A reporter at the end of a run of 61 seconds and 5 milliseconds. *)
Definition after_a_minute : XUnit :=
  {| stats := {| stats_tests := 1; stats_passes := 1; stats_failures := 0;
                 stats_duration := Some (of_Z 61005) |};
     tests := [t_slow]; indents := 0; n := 0; suiteName := "Mocha Tests";
     fileStream := None; once_run_end := true; log := [] |}.

(** ** What a conforming processor does with the characters

    The reader [Xml] reads a part of XML 1.0 and gives the characters back
    as they stand in the text.  A conforming processor does more with the
    characters of a document (XML 1.0, fifth edition):
    - section 2.2: a document holds characters of the production Char only,
      which are TAB, LF, CR and the characters from U+0020 on (a string is
      read here as one character for each [ascii], up to U+00FF);
    - section 2.11: CR LF and a CR alone are read as LF;
    - section 3.3.3: in an attribute value TAB, LF and CR are read as a
      space;
    - section 2.4: character data does not hold the end of a CDATA section,
      two closing square brackets and a [>].
    [prepare] does this to a text, one character at a time, and
    [standard_parse] reads what [prepare] gives.  [standard_parse] knows no
    more of XML than [Xml.parse] does: a document it reads, a conforming
    processor reads the same; a document [prepare] refuses or changes, a
    conforming processor refuses or changes. *)

(** Where a character stands: in character data, after so many closing
    square brackets; inside a tag; or inside an attribute value. *)
Inductive context : Type :=
| InContent (brackets : nat)
| InTag
| InValue.

(** The production Char, up to U+00FF. *)
Definition is_char (c : ascii) : bool :=
  (32 <=? nat_of_ascii c)%nat
  || (c =? "009")%char || (c =? "010")%char || (c =? "013")%char.

(** One character: what is read for it, and where the next one stands.  The
    flag says that the character before was a CR, whose LF is dropped. *)
Definition prepare_step (st : context * bool) (c : ascii)
    : option (string * (context * bool)) :=
  let '(k, after_cr) := st in
  if negb (is_char c) then None
  else if after_cr && (c =? "010")%char then Some ("", (k, false))
  else
    let cr := (c =? "013")%char in
    let c' := if cr then "010"%char else c in
    match k with
    | InValue =>
        if (c' =? Str.dquote)%char then Some (String c' "", (InTag, cr))
        else if (c' =? "009")%char || (c' =? "010")%char
             then Some (" ", (InValue, cr))
        else Some (String c' "", (InValue, cr))
    | InTag =>
        if (c' =? Str.dquote)%char then Some (String c' "", (InValue, cr))
        else if (c' =? ">")%char then Some (String c' "", (InContent 0, cr))
        else Some (String c' "", (InTag, cr))
    | InContent b =>
        if (c' =? "<")%char then Some (String c' "", (InTag, cr))
        else if (c' =? "]")%char then Some (String c' "", (InContent (S b), cr))
        else if (c' =? ">")%char then
          if (2 <=? b)%nat then None else Some (String c' "", (InContent 0, cr))
        else Some (String c' "", (InContent 0, cr))
    end.

Fixpoint prepare_from (st : context * bool) (s : string)
    : option (string * (context * bool)) :=
  match s with
  | EmptyString => Some ("", st)
  | String c r =>
      match prepare_step st c with
      | Some (out, st') =>
          match prepare_from st' r with
          | Some (rest, st'') => Some (out ++ rest, st'')
          | None => None
          end
      | None => None
      end
  end.

Definition prepare (s : string) : option string :=
  option_map fst (prepare_from (InContent 0, false) s).

(** A document as a conforming processor reads it. *)
Definition standard_parse (s : string) : option Xml.node :=
  match prepare s with
  | Some s' => Xml.parse s'
  | None => None
  end.

(** A character that an attribute value gives back as it is: a character of
    XML that is not TAB, LF or CR. *)
Definition attr_plain (c : ascii) : bool := (32 <=? nat_of_ascii c)%nat.

(** A character that character data gives back as it is: a character of XML
    that is not CR. *)
Definition text_plain (c : ascii) : bool :=
  (32 <=? nat_of_ascii c)%nat || (c =? "009")%char || (c =? "010")%char.

Definition plain_value (v : jsval) : bool :=
  match v with
  | VStr s => Str.all attr_plain s
  | _ => true
  end.

Definition plain_attrs (attrs : attributes) : bool :=
  forallb (fun kv => plain_value (snd kv)) attrs.


Fixpoint plain (m : markup) : bool :=
  match m with
  | Empty _ attrs => plain_attrs attrs
  | TextElement _ attrs text => plain_attrs attrs && Str.all text_plain text
  | Parent _ attrs children => plain_attrs attrs && forallb plain children
  end.

(** A text that [prepare] leaves as it is, read inside a tag, inside a
    value, and as character data. *)
Definition tag_kept (s : string) : Prop :=
  prepare_from (InTag, false) s = Some (s, (InTag, false)).

Definition value_kept (s : string) : Prop :=
  prepare_from (InValue, false) s = Some (s, (InValue, false)).

Definition kept (s : string) : Prop :=
  forall b, exists b',
    prepare_from (InContent b, false) s = Some (s, (InContent b', false)).

(** ** Strings that a conforming processor does not give back *)




(** * Properties *)

(** ** Strings *)

Module StrFacts.

Lemma app_nil_r (s : string) : s ++ "" = s.
Proof. induction s as [|c s IH]; simpl; [reflexivity | now rewrite IH]. Qed.

Lemma app_assoc (a b c : string) : (a ++ b) ++ c = a ++ (b ++ c).
Proof. induction a as [|x a IH]; simpl; [reflexivity | now rewrite IH]. Qed.

Lemma flat_app (l1 l2 : list string) :
  Str.flat (l1 ++ l2)%list = Str.flat l1 ++ Str.flat l2.
Proof.
  induction l1 as [|x l1 IH]; simpl; [reflexivity|].
  now rewrite IH, app_assoc.
Qed.

(** A space before every item is the same text as a space and the join. *)
Lemma join_spaces (l : list string) :
  (match l with [] => "" | _ :: _ => " " ++ Str.join " " l end)
  = Str.flat (map (fun p => " " ++ p) l).
Proof.
  destruct l as [|x l]; [reflexivity|].
  revert x; induction l as [|y l IH]; intros x.
  - simpl. now rewrite app_nil_r.
  - specialize (IH y).
    change (Str.join " " (x :: y :: l)) with (x ++ " " ++ Str.join " " (y :: l)).
    change (Str.flat (map (fun p => " " ++ p) (x :: y :: l)))
      with ((" " ++ x) ++ Str.flat (map (fun p => " " ++ p) (y :: l))).
    rewrite <- IH. now rewrite !app_assoc.
Qed.

End StrFacts.

(** ** The reader on escaped text *)

Lemma sax_app (a b : string) : forall st,
  sax st (a ++ b) = match sax st a with Some st' => sax st' b | None => None end.
Proof.
  induction a as [|c a IH]; intros st; simpl; [reflexivity|].
  destruct (step st c); [apply IH | reflexivity].
Qed.

Lemma escape_string_app (a b : string) :
  escape_string (a ++ b) = escape_string a ++ escape_string b.
Proof.
  induction a as [|c a IH]; simpl; [reflexivity|].
  now rewrite IH, StrFacts.app_assoc.
Qed.

Lemma option_map_cons (c : ascii) (v : string) (x : option string) :
  option_map (String c) (option_map (append v) x)
  = option_map (append (String c v)) x.
Proof. now destruct x. Qed.

(** Decoding undoes [escape_string]. *)
Lemma decode_escape (v t : string) :
  decode_from None (escape_string v ++ t)
  = option_map (append v) (decode_from None t).
Proof.
  induction v as [|c v IH].
  - simpl. now destruct (decode_from None t).
  - simpl. rewrite StrFacts.app_assoc. unfold escape_char.
    destruct (c =? "&")%char eqn:Eamp.
    { apply Ascii.eqb_eq in Eamp; subst c. simpl. rewrite IH.
      apply option_map_cons. }
    destruct (c =? "<")%char eqn:Elt.
    { apply Ascii.eqb_eq in Elt; subst c. simpl. rewrite IH.
      apply option_map_cons. }
    destruct (c =? ">")%char eqn:Egt.
    { apply Ascii.eqb_eq in Egt; subst c. simpl. rewrite IH.
      apply option_map_cons. }
    destruct (c =? Str.dquote)%char eqn:Eq.
    { apply Ascii.eqb_eq in Eq; subst c. simpl. rewrite IH.
      apply option_map_cons. }
    simpl. rewrite Eamp, Elt, IH. apply option_map_cons.
Qed.

Lemma decode_escaped (v : string) : decode (escape_string v) = Some v.
Proof.
  unfold decode. rewrite <- (StrFacts.app_nil_r (escape_string v)).
  rewrite decode_escape. simpl. now rewrite StrFacts.app_nil_r.
Qed.

(** Inside an attribute value the escaped text is read to its end. *)
Lemma sax_value_escaped (name key : string) (attrs : list (string * string))
    (stack : list frame) (v : string) : forall raw rest,
  sax (Val name attrs key raw, stack) (escape_string v ++ rest)
  = sax (Val name attrs key (raw ++ escape_string v), stack) rest.
Proof.
  induction v as [|c v IH]; intros raw rest.
  - simpl. now rewrite StrFacts.app_nil_r.
  - simpl escape_string. rewrite !StrFacts.app_assoc.
    assert (Hc : sax (Val name attrs key raw, stack)
                     (escape_char c ++ escape_string v ++ rest)
                 = sax (Val name attrs key (raw ++ escape_char c), stack)
                       (escape_string v ++ rest)).
    { unfold escape_char.
      destruct (c =? "&")%char eqn:Eamp; [simpl; now rewrite !StrFacts.app_assoc|].
      destruct (c =? "<")%char eqn:Elt; [simpl; now rewrite !StrFacts.app_assoc|].
      destruct (c =? ">")%char eqn:Egt; [simpl; now rewrite !StrFacts.app_assoc|].
      destruct (c =? Str.dquote)%char eqn:Eq; [simpl; now rewrite !StrFacts.app_assoc|].
      simpl. now rewrite Eq, Elt. }
    rewrite Hc, IH. now rewrite !StrFacts.app_assoc.
Qed.

(** So is it in character data. *)
Lemma sax_content_escaped (stack : list frame) (v : string) : forall raw rest,
  sax (Content raw, stack) (escape_string v ++ rest)
  = sax (Content (raw ++ escape_string v), stack) rest.
Proof.
  induction v as [|c v IH]; intros raw rest.
  - simpl. now rewrite StrFacts.app_nil_r.
  - simpl escape_string. rewrite !StrFacts.app_assoc.
    assert (Hc : sax (Content raw, stack)
                     (escape_char c ++ escape_string v ++ rest)
                 = sax (Content (raw ++ escape_char c), stack)
                       (escape_string v ++ rest)).
    { unfold escape_char.
      destruct (c =? "&")%char eqn:Eamp; [simpl; now rewrite !StrFacts.app_assoc|].
      destruct (c =? "<")%char eqn:Elt; [simpl; now rewrite !StrFacts.app_assoc|].
      destruct (c =? ">")%char eqn:Egt; [simpl; now rewrite !StrFacts.app_assoc|].
      destruct (c =? Str.dquote)%char eqn:Eq; [simpl; now rewrite !StrFacts.app_assoc|].
      simpl. now rewrite Elt. }
    rewrite Hc, IH. now rewrite !StrFacts.app_assoc.
Qed.

(** *** Names and attributes *)

Lemma name_char_facts (c : ascii) :
  is_name_char c = true ->
  is_space c = false /\ (c =? "/")%char = false /\ (c =? ">")%char = false
  /\ (c =? "=")%char = false.
Proof.
  destruct c as [[] [] [] [] [] [] [] []]; vm_compute; intros H;
    try discriminate H; repeat split.
Qed.

Lemma name_start_facts (c : ascii) :
  is_name_start c = true ->
  is_name_char c = true /\ (c =? "/")%char = false.
Proof.
  destruct c as [[] [] [] [] [] [] [] []]; vm_compute; intros H;
    try discriminate H; repeat split.
Qed.

Lemma name_ok_all (s : string) :
  name_ok s = true -> Str.all is_name_char s = true.
Proof.
  destruct s as [|c s]; [discriminate|]. cbn [name_ok Str.all].
  intros H. apply andb_true_iff in H as [Hc Hs].
  destruct (name_start_facts c Hc) as [Hc' _]. now rewrite Hc', Hs.
Qed.

Lemma sax_open_name (stack : list frame) (s : string) : forall name rest,
  Str.all is_name_char s = true ->
  sax (OpenName name, stack) (s ++ rest) = sax (OpenName (name ++ s), stack) rest.
Proof.
  induction s as [|c s IH]; intros name rest H; simpl.
  - now rewrite StrFacts.app_nil_r.
  - simpl in H. apply andb_true_iff in H as [Hc Hs].
    rewrite Hc, (IH _ _ Hs). now rewrite StrFacts.app_assoc.
Qed.

Lemma sax_close_name (stack : list frame) (s : string) : forall name rest,
  Str.all is_name_char s = true ->
  sax (CloseName name, stack) (s ++ rest)
  = sax (CloseName (name ++ s), stack) rest.
Proof.
  induction s as [|c s IH]; intros name rest H; simpl.
  - now rewrite StrFacts.app_nil_r.
  - simpl in H. apply andb_true_iff in H as [Hc Hs].
    destruct (name_char_facts c Hc) as (_ & _ & Hgt & _).
    rewrite Hgt, Hc, (IH _ _ Hs). now rewrite StrFacts.app_assoc.
Qed.

Lemma sax_key (stack : list frame) (name : string)
    (attrs : list (string * string)) (s : string) : forall key rest,
  Str.all is_name_char s = true ->
  sax (Key name attrs key, stack) (s ++ rest)
  = sax (Key name attrs (key ++ s), stack) rest.
Proof.
  induction s as [|c s IH]; intros key rest H; simpl.
  - now rewrite StrFacts.app_nil_r.
  - simpl in H. apply andb_true_iff in H as [Hc Hs].
    destruct (name_char_facts c Hc) as (_ & _ & _ & Heq).
    rewrite Heq, Hc, (IH _ _ Hs). now rewrite StrFacts.app_assoc.
Qed.

#[local] Arguments pair_text : simpl never.
#[local] Arguments attrs_text : simpl never.
#[local] Arguments escape : simpl never.
#[local] Arguments decode : simpl never.

Lemma sax_pair (stack : list frame) (name k : string) (v : jsval)
    (seen : list (string * string)) (rest : string) :
  name_ok k = true -> has_key k seen = false ->
  sax (Gap name seen, stack) (pair_text (k, v) ++ rest)
  = sax (AfterVal name (seen ++ [(k, String_of v)])%list, stack) rest.
Proof.
  intros Hk Hfresh.
  destruct k as [|c k]; [discriminate Hk|].
  cbn [name_ok] in Hk. apply andb_true_iff in Hk as [Hc Hk].
  unfold pair_text. cbn [fst snd]. rewrite !StrFacts.app_assoc.
  cbn [append sax step]. rewrite Hc.
  rewrite (sax_key _ _ _ _ _ _ Hk).
  cbn [append sax step]. cbn.
  unfold escape. rewrite StrFacts.app_assoc, sax_value_escaped.
  cbn [append sax step]. cbn.
  rewrite decode_escaped, Hfresh. reflexivity.
Qed.

Lemma attrs_text_cons (kv : string * jsval) (attrs : attributes) :
  attrs_text (kv :: attrs) = String " " (pair_text kv ++ attrs_text attrs).
Proof. reflexivity. Qed.

Lemma sax_pairs (stack : list frame) (name rest : string) (attrs : attributes) :
  forall seen,
  keys_ok seen attrs = true ->
  sax (AfterVal name seen, stack) (attrs_text attrs ++ rest)
  = sax (AfterVal name (seen ++ read_attrs attrs)%list, stack) rest.
Proof.
  induction attrs as [|[k v] attrs IH]; intros seen H.
  - simpl. now rewrite List.app_nil_r.
  - simpl in H. apply andb_true_iff in H as [H Hrest].
    apply andb_true_iff in H as [Hk Hfresh].
    apply negb_true_iff in Hfresh.
    rewrite attrs_text_cons. cbn [append]. rewrite StrFacts.app_assoc. cbn.
    rewrite (sax_pair _ _ _ _ _ _ Hk Hfresh), (IH _ Hrest).
    cbn [read_attrs map fst snd]. now rewrite <- List.app_assoc.
Qed.

(** *** Tags *)

(** The text [tag] builds, piece by piece. *)
Lemma tag_text (name : string) (attrs : attributes) (close : bool)
    (content : option string) :
  tag name attrs close content
  = "<" ++ name ++ attrs_text attrs ++ end_text close
        ++ (if truthy_content content
            then content_text content ++ "</" ++ name ++ end_text close
            else "").
Proof.
  unfold tag, attrs_text, end_text.
  rewrite (StrFacts.join_spaces (map pair_text attrs)), List.map_map.
  destruct (truthy_content content).
  - now rewrite !StrFacts.app_assoc.
  - now rewrite StrFacts.app_nil_r.
Qed.

Lemma sax_tag_head (stack : list frame) (name : string) (attrs : attributes)
    (c : ascii) (rest : string) :
  name_ok name = true -> keys_ok [] attrs = true -> is_name_char c = false ->
  sax (Lt, stack) (name ++ attrs_text attrs ++ String c rest)
  = match tag_delim name (read_attrs attrs) stack c with
    | Some st => sax st rest
    | None => None
    end.
Proof.
  intros Hname Hkeys Hc.
  destruct name as [|c0 name]; [discriminate Hname|].
  cbn [name_ok] in Hname. apply andb_true_iff in Hname as [Hc0 Hname].
  destruct (name_start_facts c0 Hc0) as (_ & Hslash).
  cbn [append sax step]. rewrite Hslash, Hc0.
  rewrite (sax_open_name _ _ _ _ Hname). cbn [append].
  destruct attrs as [|[k v] attrs].
  - change (attrs_text []) with "". cbn [append sax step]. now rewrite Hc.
  - simpl in Hkeys. apply andb_true_iff in Hkeys as [Hk Hrest].
    apply andb_true_iff in Hk as [Hk _].
    rewrite attrs_text_cons. cbn [append]. rewrite StrFacts.app_assoc. cbn.
    change (is_name_char " ") with false. cbn iota.
    rewrite (sax_pair _ _ k v [] _ Hk eq_refl). cbn [List.app].
    rewrite (sax_pairs _ _ _ _ _ Hrest). cbn.
    reflexivity.
Qed.

Lemma sax_element_open (stack stack' : list frame) (raw name : string)
    (attrs : attributes) (rest : string) :
  flush raw stack = Some stack' ->
  name_ok name = true -> keys_ok [] attrs = true ->
  sax (Content raw, stack) ("<" ++ name ++ attrs_text attrs ++ ">" ++ rest)
  = sax (Content "",
         {| f_name := name; f_attrs := read_attrs attrs; f_children := [] |}
           :: stack') rest.
Proof.
  intros Hflush Hname Hkeys.
  change ("<" ++ name ++ attrs_text attrs ++ ">" ++ rest)
    with (String "<" (name ++ attrs_text attrs ++ String ">" rest)).
  cbn [sax step]. cbn. rewrite Hflush.
  now rewrite (sax_tag_head _ _ _ ">" _ Hname Hkeys eq_refl).
Qed.

Lemma sax_element_empty (stack stack' : list frame) (f : frame)
    (raw name : string) (attrs : attributes) (rest : string) :
  flush raw stack = Some (f :: stack') ->
  name_ok name = true -> keys_ok [] attrs = true ->
  sax (Content raw, stack) ("<" ++ name ++ attrs_text attrs ++ "/>" ++ rest)
  = sax (Content "",
         with_child f (Element name (read_attrs attrs) true []) :: stack') rest.
Proof.
  intros Hflush Hname Hkeys.
  change ("<" ++ name ++ attrs_text attrs ++ "/>" ++ rest)
    with (String "<" (name ++ attrs_text attrs ++ String "/" (String ">" rest))).
  cbn [sax step]. cbn. rewrite Hflush.
  now rewrite (sax_tag_head _ _ _ "/" _ Hname Hkeys eq_refl).
Qed.

Lemma sax_element_close (stack : list frame) (f f' parent : frame)
    (raw name rest : string) :
  flush raw (f :: parent :: stack) = Some (f' :: parent :: stack) ->
  name_ok name = true -> f_name f' = name ->
  sax (Content raw, f :: parent :: stack) ("</" ++ name ++ ">" ++ rest)
  = sax (Content "",
         with_child parent (Element name (f_attrs f') false (f_children f'))
           :: stack) rest.
Proof.
  intros Hflush Hname Hf. apply name_ok_all in Hname.
  cbn [append sax step]. cbn. rewrite Hflush. cbn.
  rewrite (sax_close_name _ _ _ _ Hname). cbn.
  rewrite Hf, String.eqb_refl. reflexivity.
Qed.

Lemma flush_empty (stack : list frame) : flush "" stack = Some stack.
Proof. reflexivity. Qed.

Lemma flush_newline (f : frame) (stack : list frame) :
  flush (String "010" "") (f :: stack)
  = Some (with_child f (Text (String "010" "")) :: stack).
Proof. reflexivity. Qed.

Lemma flush_escaped (f : frame) (stack : list frame) (v : string) :
  Str.is_empty v = false ->
  flush (escape_string v) (f :: stack) = Some (with_child f (Text v) :: stack).
Proof.
  intros Hv. unfold flush. rewrite decode_escaped.
  destruct v as [|c v]; [discriminate Hv|].
  simpl. unfold escape_char.
  destruct (c =? "&")%char; [reflexivity|].
  destruct (c =? "<")%char; [reflexivity|].
  destruct (c =? ">")%char; [reflexivity|].
  destruct (c =? Str.dquote)%char; reflexivity.
Qed.

(** *** The line of a test *)

Lemma failure_content_escaped (e : Err) :
  failure_content e = escape_string (failure_text e).
Proof.
  unfold failure_content, failure_text, escape. cbn [String_of].
  rewrite !escape_string_app. reflexivity.
Qed.

Lemma failure_text_not_empty (e : Err) : Str.is_empty (failure_text e) = false.
Proof.
  unfold failure_text.
  destruct (message e); [|reflexivity].
  destruct (diff_text e); reflexivity.
Qed.

Lemma escape_string_empty (v : string) :
  Str.is_empty (escape_string v) = Str.is_empty v.
Proof.
  destruct v as [|c v]; [reflexivity|].
  simpl. unfold escape_char.
  destruct (c =? "&")%char; [reflexivity|].
  destruct (c =? "<")%char; [reflexivity|].
  destruct (c =? ">")%char; [reflexivity|].
  destruct (c =? Str.dquote)%char; reflexivity.
Qed.

Lemma app_nil_l (s : string) : "" ++ s = s.
Proof. reflexivity. Qed.

Lemma is_empty_lt (s : string) : Str.is_empty ("<" ++ s) = false.
Proof. reflexivity. Qed.

Lemma sax_test_line (t : Test) (raw rest : string) (f : frame)
    (stack stack' : list frame) :
  flush raw stack = Some (f :: stack') ->
  sax (Content raw, stack) (test_line t ++ rest)
  = sax (Content "", with_child f (test_node t) :: stack') rest.
Proof.
  intros Hflush. unfold test_line, test_node.
  destruct (is_failed t); [|destruct (isPending t)].
  - rewrite !tag_text, failure_content_escaped.
    cbn [truthy_content content_text end_text].
    rewrite escape_string_empty, failure_text_not_empty.
    cbn [negb]. rewrite is_empty_lt. cbn [negb]. rewrite !StrFacts.app_assoc.
    rewrite (sax_element_open _ _ _ "testcase" (test_attrs t) _
               Hflush eq_refl eq_refl).
    rewrite (sax_element_open _ _ _ "failure" [] _
               (flush_empty _) eq_refl eq_refl).
    rewrite (sax_content_escaped _ _ "").
    change ("" ++ escape_string (failure_text (err t)))
      with (escape_string (failure_text (err t))).
    erewrite (sax_element_close _ _ _ _ _ "failure");
      [|apply flush_escaped, failure_text_not_empty|reflexivity|reflexivity].
    erewrite (sax_element_close _ _ _ _ _ "testcase");
      [|apply flush_empty|reflexivity|reflexivity].
    reflexivity.
  - rewrite !tag_text. cbn [truthy_content content_text end_text].
    rewrite is_empty_lt. cbn [negb]. rewrite !StrFacts.app_assoc.
    rewrite (sax_element_open _ _ _ "testcase" (test_attrs t) _
               Hflush eq_refl eq_refl).
    rewrite (sax_element_empty _ _ _ _ "skipped" [] _
               (flush_empty _) eq_refl eq_refl).
    rewrite app_nil_l.
    erewrite (sax_element_close _ _ _ _ _ "testcase");
      [|apply flush_empty|reflexivity|reflexivity].
    reflexivity.
  - rewrite !tag_text. cbn [truthy_content content_text end_text].
    rewrite !StrFacts.app_assoc.
    rewrite (sax_element_empty _ _ _ _ "testcase" (test_attrs t) _
               Hflush eq_refl eq_refl).
    reflexivity.
Qed.

(** ** What an event does to the reporter *)

Lemma report_app (s s' : XUnit) (l : list effect) :
  log s' = (log s ++ l)%list ->
  report s' = report s ++ Str.flat (map written_chunk l).
Proof.
  intros H. unfold report. now rewrite H, List.map_app, StrFacts.flat_app.
Qed.

Ltac step_listener :=
  unfold emit, on_test_pending, on_test_pass, on_test_fail, on_run_begin,
    on_suite_begin, on_suite_end, indent, consoleLog, emit_effect, tests_push,
    set_indents, set_n, set_stats, get, bind, ret;
  cbn [stats tests indents n suiteName fileStream once_run_end log].

Lemma Array_join_cases (d : Z) (sep : string) :
  Array_join d sep
  = if (d <? 0)%Z then inl (RangeError "Invalid array length")
    else inr (repeat_string (Z.to_nat d - 1) sep).
Proof. reflexivity. Qed.

(** An event other than the end of the run: what it leaves in the reporter,
    whether its listener throws or not. *)
Lemma emit_fields (env : Env) (ev : event) (s : XUnit) :
  is_run_end ev = false ->
  let s' := final (emit env ev s) in
  tests s' = (tests s ++ tests_of_event ev)%list
  /\ stats s' = collect (elapsed env) ev (stats s)
  /\ indents s' = (indents s + delta ev)%Z
  /\ suiteName s' = suiteName s
  /\ fileStream s' = fileStream s
  /\ once_run_end s' = once_run_end s
  /\ report s' = report s.
Proof.
  intros Hev. destruct ev; try discriminate Hev; step_listener.
  - repeat split; try (now rewrite ?List.app_nil_r, ?Z.add_0_r).
    unfold report. cbn. rewrite List.map_app, StrFacts.flat_app. cbn.
    now rewrite StrFacts.app_nil_r.
  - rewrite Array_join_cases. cbn.
    destruct (indents s + 1 <? 0)%Z; cbn;
      repeat split; try (now rewrite ?List.app_nil_r).
    unfold report. cbn. rewrite List.map_app, StrFacts.flat_app. cbn.
    now rewrite StrFacts.app_nil_r.
  - destruct (indents s - 1 =? 1)%Z; cbn;
      repeat split; try (now rewrite ?List.app_nil_r).
    unfold report. cbn. rewrite List.map_app, StrFacts.flat_app. cbn.
    now rewrite StrFacts.app_nil_r.
  - rewrite Array_join_cases.
    destruct (indents s <? 0)%Z; cbn;
      repeat split; try (now rewrite ?Z.add_0_r).
    unfold report. cbn. rewrite List.map_app, StrFacts.flat_app. cbn.
    now rewrite StrFacts.app_nil_r.
  - destruct (speed test0 =? "fast")%string;
      cbn [stats tests indents n suiteName fileStream once_run_end log];
      rewrite Array_join_cases;
      destruct (indents s <? 0)%Z; cbn;
      repeat split; try (now rewrite ?Z.add_0_r);
      unfold report; cbn; rewrite List.map_app, StrFacts.flat_app; cbn;
      now rewrite StrFacts.app_nil_r.
  - rewrite Array_join_cases.
    destruct (indents s <? 0)%Z; cbn;
      repeat split; try (now rewrite ?Z.add_0_r).
    unfold report. cbn. rewrite List.map_app, StrFacts.flat_app. cbn.
    now rewrite StrFacts.app_nil_r.
Qed.

(** *** The end of the run *)

Lemma with_log_log (s : XUnit) : with_log s (log s) = s.
Proof. now destruct s. Qed.

Lemma write_eq (env : Env) (line : string) (s : XUnit) :
  write env line s
  = Ok tt (with_log s (log s ++ [write_effect env (fileStream s) line])%list).
Proof.
  destruct s as [st ts d k name f armed l].
  unfold write, write_effect, bind, get, consoleLog, emit_effect, with_log.
  cbn. destruct f; [reflexivity|].
  destruct (process_stdout env); reflexivity.
Qed.

Lemma forEach_test_eq (env : Env) (l : list Test) : forall s,
  forEach l (test env) s
  = Ok tt (with_log s (log s ++ map (write_effect env (fileStream s))
                                    (map test_line l))%list).
Proof.
  induction l as [|t l IH]; intros s.
  - cbn. now rewrite List.app_nil_r, with_log_log.
  - cbn [forEach]. unfold bind, test. rewrite write_eq, IH.
    unfold with_log. cbn. now rewrite <- List.app_assoc.
Qed.

Lemma on_run_end_eq (env : Env) (s : XUnit) :
  on_run_end env s
  = Ok tt (with_log s (log s ++ map (write_effect env (fileStream s))
                                    (report_lines env s) ++ [Epilogue])%list).
Proof.
  unfold on_run_end, bind, get. rewrite write_eq.
  unfold with_log at 1. cbn [tests]. rewrite forEach_test_eq.
  rewrite write_eq. unfold emit_effect, with_log, report_lines. cbn.
  f_equal. f_equal.
  rewrite List.map_app. cbn. rewrite <- !List.app_assoc. reflexivity.
Qed.

Lemma written_write_effect (env : Env) (f : option string) (line : string) :
  written_chunk (write_effect env f line) = line ++ String "010" "".
Proof.
  unfold write_effect. destruct f; [reflexivity|].
  destruct (process_stdout env); reflexivity.
Qed.

Lemma written_lines (env : Env) (f : option string) (lines : list string) :
  Str.flat (map written_chunk (map (write_effect env f) lines))
  = lines_text lines.
Proof.
  unfold lines_text. induction lines as [|x lines IH]; [reflexivity|].
  cbn. now rewrite written_write_effect, IH.
Qed.

(** The run-end event, the first time: the report is written, and nothing
    else in the reporter moves but the summary. *)
Lemma emit_run_end (env : Env) (s : XUnit) :
  once_run_end s = true ->
  let st := collect (elapsed env) EVENT_RUN_END (stats s) in
  let s1 := {| stats := st; tests := tests s; indents := indents s; n := n s;
               suiteName := suiteName s; fileStream := fileStream s;
               once_run_end := false; log := log s |} in
  emit env EVENT_RUN_END s
  = Ok tt (with_log s1 (log s ++ map (write_effect env (fileStream s))
                                     (report_lines env s1) ++ [Epilogue])%list).
Proof.
  intros Harmed. unfold emit, bind, get, set_stats, set_once_run_end.
  cbn [stats tests indents n suiteName fileStream once_run_end log].
  rewrite Harmed. now rewrite on_run_end_eq.
Qed.

Lemma emit_run_end_again (env : Env) (s : XUnit) :
  once_run_end s = false ->
  emit env EVENT_RUN_END s
  = Ok tt {| stats := collect (elapsed env) EVENT_RUN_END (stats s);
             tests := tests s; indents := indents s; n := n s;
             suiteName := suiteName s; fileStream := fileStream s;
             once_run_end := false; log := log s |}.
Proof.
  intros Harmed. unfold emit, bind, get, set_stats, ret.
  cbn [stats tests indents n suiteName fileStream once_run_end log].
  now rewrite Harmed.
Qed.

(** Only [indent()] throws, and only on a negative counter. *)
Lemma emit_thrown (env : Env) (ev : event) (s : XUnit) :
  thrown (emit env ev s)
  = if calls_indent ev && (indents s + delta ev <? 0)%Z
    then Some (RangeError "Invalid array length") else None.
Proof.
  destruct ev; cbn [calls_indent delta andb].
  - reflexivity.
  - step_listener. rewrite Array_join_cases.
    now destruct (indents s + 1 <? 0)%Z.
  - step_listener. now destruct (indents s - 1 =? 1)%Z.
  - step_listener. rewrite Array_join_cases, Z.add_0_r.
    now destruct (indents s <? 0)%Z.
  - step_listener. rewrite Z.add_0_r.
    destruct (speed test0 =? "fast")%string;
      cbn [stats tests indents n suiteName fileStream once_run_end log];
      rewrite Array_join_cases; now destruct (indents s <? 0)%Z.
  - step_listener. rewrite Array_join_cases, Z.add_0_r.
    now destruct (indents s <? 0)%Z.
  - destruct (once_run_end s) eqn:Harmed.
    + now rewrite (emit_run_end env s Harmed).
    + now rewrite (emit_run_end_again env s Harmed).
Qed.

Lemma emit_indents (env : Env) (ev : event) (s : XUnit) :
  indents (final (emit env ev s)) = (indents s + delta ev)%Z.
Proof.
  destruct (is_run_end ev) eqn:Hev.
  - destruct ev; try discriminate Hev. cbn [delta]. rewrite Z.add_0_r.
    destruct (once_run_end s) eqn:Harmed.
    + now rewrite (emit_run_end env s Harmed).
    + now rewrite (emit_run_end_again env s Harmed).
  - now destruct (emit_fields env ev s Hev) as (_ & _ & H & _).
Qed.

(** ** A run of events *)

Lemma run_cons (env : Env) (ev : event) (evs : list event) (s : XUnit) :
  run env (ev :: evs) s
  = match emit env ev s with
    | Ok _ s' => run env evs s'
    | Throw e s' => Throw e s'
    end.
Proof. reflexivity. Qed.

Lemma run_app (env : Env) (a b : list event) : forall s,
  run env (a ++ b) s
  = match run env a s with
    | Ok _ s' => run env b s'
    | Throw e s' => Throw e s'
    end.
Proof.
  induction a as [|ev a IH]; intros s; [reflexivity|].
  cbn [List.app]. rewrite !run_cons.
  destruct (emit env ev s); [apply IH | reflexivity].
Qed.

Lemma run_thrown (env : Env) (evs : list event) : forall s,
  thrown (run env evs s)
  = if safe (indents s) evs then None
    else Some (RangeError "Invalid array length").
Proof.
  induction evs as [|ev evs IH]; intros s; [reflexivity|].
  rewrite run_cons. cbn [safe].
  pose proof (emit_thrown env ev s) as Ht.
  pose proof (emit_indents env ev s) as Hi.
  destruct (emit env ev s) as [[] s'|e s']; cbn [thrown final] in Ht, Hi.
  - destruct (calls_indent ev && (indents s + delta ev <? 0)%Z);
      [discriminate Ht|].
    cbn [negb andb]. rewrite IH, Hi. reflexivity.
  - destruct (calls_indent ev && (indents s + delta ev <? 0)%Z);
      [|discriminate Ht].
    cbn [negb andb thrown]. exact Ht.
Qed.

Lemma run_fields (env : Env) (evs : list event) : forall s,
  forallb (fun ev => negb (is_run_end ev)) evs = true ->
  safe (indents s) evs = true ->
  let s' := final (run env evs s) in
  tests s' = (tests s ++ tests_of evs)%list
  /\ stats s' = summary env evs (stats s)
  /\ suiteName s' = suiteName s
  /\ fileStream s' = fileStream s
  /\ once_run_end s' = once_run_end s
  /\ report s' = report s.
Proof.
  induction evs as [|ev evs IH]; intros s Hne Hsafe.
  - cbn. now rewrite List.app_nil_r.
  - cbn [forallb] in Hne. apply andb_true_iff in Hne as [Hev Hne].
    apply negb_true_iff in Hev.
    cbn [safe] in Hsafe. apply andb_true_iff in Hsafe as [Hok Hsafe].
    apply negb_true_iff in Hok.
    pose proof (emit_thrown env ev s) as Ht. rewrite Hok in Ht.
    pose proof (emit_indents env ev s) as Hi.
    pose proof (emit_fields env ev s Hev) as (Hts & Hst & _ & Hn & Hf & Ha & Hr).
    rewrite run_cons.
    destruct (emit env ev s) as [[] s'|e s']; [|discriminate Ht].
    cbn [final] in *. rewrite <- Hi in Hsafe.
    destruct (IH s' Hne Hsafe) as (Hts' & Hst' & Hn' & Hf' & Ha' & Hr').
    cbn zeta in *.
    rewrite Hts', Hst', Hn', Hf', Ha', Hr', Hts, Hst, Hn, Hf, Ha, Hr.
    unfold tests_of. cbn [flat_map summary fold_left].
    now rewrite <- List.app_assoc.
Qed.

(** *** The document *)

#[local] Arguments read_attrs : simpl never.
#[local] Arguments number_to_string : simpl never.

Lemma sax_test_lines (ts : list Test) : forall f stack rest,
  Xml.sax (Xml.Content (String "010" ""), f :: stack)
          (lines_text (map test_line ts) ++ rest)
  = Xml.sax (Xml.Content (String "010" ""),
             with_children f
               (flat_map (fun t => [Xml.Text (String "010" ""); test_node t]) ts)
               :: stack) rest.
Proof.
  induction ts as [|t ts IH]; intros f stack rest.
  - cbn. unfold with_children. rewrite List.app_nil_r. now destruct f.
  - unfold lines_text. cbn [map Str.flat]. rewrite !StrFacts.app_assoc.
    rewrite (sax_test_line t _ _ _ _ _ (flush_newline f stack)).
    cbn [append Xml.sax Xml.step]. cbn.
    fold (lines_text (map test_line ts)). rewrite IH.
    unfold with_children, Xml.with_child. cbn.
    now rewrite <- !List.app_assoc.
Qed.

Lemma parse_document (env : Env) (name : string) (st : Stats) (ts : list Test) :
  Xml.parse (document_text env name st ts)
  = Some (document_node env name st ts).
Proof.
  unfold Xml.parse, document_text, lines_text.
  cbn [map Str.flat]. rewrite tag_text.
  cbn [truthy_content content_text end_text]. rewrite !StrFacts.app_assoc.
  rewrite (sax_element_open _ _ _ "testsuite" (summary_attrs env name st) _
             (flush_empty _) eq_refl eq_refl).
  rewrite app_nil_l. cbn [append Xml.sax Xml.step]. cbn.
  rewrite List.map_app, StrFacts.flat_app.
  fold (lines_text (map test_line ts)). rewrite sax_test_lines.
  change (Str.flat (map (fun line => line ++ String "010" "") ["</testsuite>"]))
    with ("</" ++ "testsuite" ++ ">" ++ String "010" "").
  erewrite (sax_element_close _ _ _ _ _ "testsuite");
    [|apply flush_newline|reflexivity|reflexivity].
  cbn. reflexivity.
Qed.

(** ** The constructor *)

Lemma new_XUnit_cases (env : Env) (options : option Options) :
  new_XUnit env options
  = if truthy (resolve_outputPath env options) then
      if createWriteStream env then
        match mkdirSync env (dirname env (content_text (resolve_outputPath env options))) with
        | Some msg =>
            Throw (FsError msg)
                  (with_log blank
                     [MkdirSync (dirname env (content_text (resolve_outputPath env options)))])
        | None => Ok tt (constructed env options)
        end
      else Throw (UnsupportedError "file output not supported in browser") blank
    else Ok tt (constructed env options).
Proof.
  unfold new_XUnit, construct, constructed, open_file.
  destruct (truthy (resolve_outputPath env options)); [|reflexivity].
  destruct (createWriteStream env); [|reflexivity].
  unfold bind, ret, emit_effect. cbn.
  destruct (mkdirSync env _); reflexivity.
Qed.

Lemma new_XUnit_ok (env : Env) (options : option Options) (s : XUnit) :
  new_XUnit env options = Ok tt s -> s = constructed env options.
Proof.
  rewrite new_XUnit_cases. intros H.
  destruct (truthy (resolve_outputPath env options)).
  - destruct (createWriteStream env); [|discriminate H].
    destruct (mkdirSync env _); [discriminate H|]. now inversion H.
  - now inversion H.
Qed.

Lemma constructed_report (env : Env) (options : option Options) :
  report (constructed env options) = "".
Proof.
  unfold report, constructed. cbn [log].
  now destruct (truthy (resolve_outputPath env options)).
Qed.

Lemma truthy_resolved (env : Env) (options : option Options) :
  truthy (resolve_outputPath env options)
  = truthy (MOCHA_FILE env) || truthy (option_output options).
Proof.
  unfold resolve_outputPath, option_output.
  destruct options as [[[ro|]]|]; try now rewrite orb_false_r.
  destruct (truthy (output ro)) eqn:Ho, (truthy (MOCHA_FILE env)) eqn:He;
    cbn; congruence.
Qed.

(** ** The report of a run *)

Lemma run_ok (env : Env) (evs : list event) (s : XUnit) :
  safe (indents s) evs = true ->
  run env evs s = Ok tt (final (run env evs s)).
Proof.
  intros Hsafe. pose proof (run_thrown env evs s) as Ht. rewrite Hsafe in Ht.
  destruct (run env evs s) as [[] s'|e s']; [reflexivity | discriminate Ht].
Qed.

Lemma report_after_run (env : Env) (options : option Options)
    (s : XUnit) (pre : list event) :
  new_XUnit env options = Ok tt s ->
  forallb (fun ev => negb (is_run_end ev)) pre = true ->
  safe 0 pre = true ->
  thrown (run env (pre ++ [EVENT_RUN_END]) s) = None
  /\ report (final (run env (pre ++ [EVENT_RUN_END]) s))
     = document_text env (suiteName s) (final_summary env pre) (tests_of pre).
Proof.
  intros Hnew Hne Hsafe. apply new_XUnit_ok in Hnew.
  assert (Hs : indents s = 0%Z /\ tests s = [] /\ stats s = no_stats
               /\ once_run_end s = true /\ report s = "").
  { subst s. repeat split. apply constructed_report. }
  destruct Hs as (Hi & Hts & Hst & Harmed & Hrep).
  rewrite <- Hi in Hsafe.
  destruct (run_fields env pre s Hne Hsafe) as (Hts' & Hst' & Hn' & Hf' & Ha' & Hr').
  rewrite run_app, (run_ok env pre s Hsafe).
  set (s' := final (run env pre s)) in *. cbn zeta in *.
  rewrite run_cons, (emit_run_end env s') by congruence.
  cbn [run ret thrown final]. split; [reflexivity|].
  erewrite (report_app s') by reflexivity.
  rewrite List.map_app, StrFacts.flat_app, written_lines.
  cbn [map written_chunk Str.flat]. rewrite StrFacts.app_nil_r.
  rewrite Hr', Hrep.
  unfold document_text, report_lines, final_summary, root_attrs.
  cbn [tests suiteName stats append].
  rewrite Hts', Hts, Hst', Hst, Hn'. reflexivity.
Qed.

Lemma summary_counts (env : Env) (evs : list event) : forall st,
  stats_tests (summary env evs st) = (stats_tests st + count is_test_event evs)%Z
  /\ stats_failures (summary env evs st) = (stats_failures st + count is_fail evs)%Z
  /\ stats_passes (summary env evs st) = (stats_passes st + count is_pass evs)%Z.
Proof.
  unfold count.
  induction evs as [|ev evs IH]; intros st.
  - cbn. now rewrite !Z.add_0_r.
  - cbn [summary fold_left]. fold (summary env evs (collect (elapsed env) ev st)).
    destruct (IH (collect (elapsed env) ev st)) as (Ht & Hf & Hp).
    rewrite Ht, Hf, Hp.
    destruct ev; cbn [collect filter is_test_event is_fail is_pass List.length
                      stats_tests stats_failures stats_passes];
      repeat split; lia.
Qed.

Lemma summary_duration (env : Env) (evs : list event) : forall st,
  forallb (fun ev => negb (is_run_end ev)) evs = true ->
  stats_duration (summary env evs st) = stats_duration st.
Proof.
  induction evs as [|ev evs IH]; intros st H; [reflexivity|].
  cbn in H. apply andb_true_iff in H as [Hev H].
  cbn [summary fold_left]. fold (summary env evs (collect (elapsed env) ev st)).
  rewrite (IH _ H). now destruct ev.
Qed.

Lemma count_all (p : event -> bool) (evs : list event) :
  forallb p evs = true -> count p evs = Z.of_nat (List.length evs).
Proof.
  unfold count. induction evs as [|ev evs IH]; intros H; [reflexivity|].
  cbn in H. apply andb_true_iff in H as [Hev H].
  cbn [filter]. rewrite Hev. cbn [List.length]. specialize (IH H). lia.
Qed.

Lemma test_events_safe (evs : list event) : forall d,
  forallb is_test_event evs = true -> (0 <= d)%Z -> safe d evs = true.
Proof.
  induction evs as [|ev evs IH]; intros d H Hd; [reflexivity|].
  cbn in H. apply andb_true_iff in H as [Hev H].
  destruct ev; try discriminate Hev; cbn [safe delta calls_indent andb];
    rewrite Z.add_0_r; rewrite (IH d H Hd);
    (destruct (d <? 0)%Z eqn:E; [apply Z.ltb_lt in E; lia | reflexivity]).
Qed.

Lemma test_events_no_run_end (evs : list event) :
  forallb is_test_event evs = true ->
  forallb (fun ev => negb (is_run_end ev)) evs = true.
Proof.
  induction evs as [|ev evs IH]; intros H; [reflexivity|].
  cbn in H. apply andb_true_iff in H as [Hev H].
  cbn. rewrite (IH H). now destruct ev.
Qed.

(** ** The properties of the specification *)

(** C1: after any N pass, fail and pending events and the run-end event, the
    report parses to a root element whose [tests] attribute is N, whose
    [errors] is the number of fail events, whose [skipped] is N minus the
    fail and the pass events, and whose [failures] is 0.  The summary holds
    these counts when the run ends, and whatever the summary holds, the root
    the run-end listener writes has [tests] from [stats.tests], [errors] from
    [stats.failures], [skipped] from their difference with [stats.passes],
    and [failures] 0. *)
Theorem root_summary_counts (env : Env) (options : option Options)
    (s : XUnit) (evs : list event) :
  new_XUnit env options = Ok tt s ->
  forallb is_test_event evs = true ->
  let N := Z.of_nat (List.length evs) in
  let fails := count is_fail evs in
  let passes := count is_pass evs in
  (exists root,
      Xml.parse (report (final (run env (evs ++ [EVENT_RUN_END]) s))) = Some root
      /\ Xml.attribute "tests" root = Some (number_to_string (of_Z N))
      /\ Xml.attribute "errors" root = Some (number_to_string (of_Z fails))
      /\ Xml.attribute "skipped" root
         = Some (number_to_string (of_Z (N - fails - passes)))
      /\ Xml.attribute "failures" root = Some "0")
  /\ stats (final (run env evs s))
     = {| stats_tests := N; stats_passes := passes; stats_failures := fails;
          stats_duration := None |}
  /\ forall r : XUnit,
      exists root,
        Xml.parse (lines_text (report_lines env r)) = Some root
        /\ Xml.attribute "tests" root
           = Some (number_to_string (of_Z (stats_tests (stats r))))
        /\ Xml.attribute "errors" root
           = Some (number_to_string (of_Z (stats_failures (stats r))))
        /\ Xml.attribute "skipped" root
           = Some (number_to_string
                     (of_Z (stats_tests (stats r) - stats_failures (stats r)
                            - stats_passes (stats r))))
        /\ Xml.attribute "failures" root = Some "0".
Proof.
  intros Hnew Htests N fails passes.
  destruct (summary_counts env evs no_stats) as (Ht & Hf & Hp).
  rewrite (count_all _ _ Htests) in Ht. cbn [no_stats stats_tests stats_failures
    stats_passes Z.add] in Ht, Hf, Hp.
  split; [|split].
  2: { pose proof (new_XUnit_ok _ _ _ Hnew) as Hs.
       assert (Hi : indents s = 0%Z) by now subst s.
       assert (Hst : stats s = no_stats) by now subst s.
       pose proof (test_events_safe evs 0 Htests (Z.le_refl 0)) as Hsafe.
       rewrite <- Hi in Hsafe.
       pose proof (test_events_no_run_end evs Htests) as Hne.
       destruct (run_fields env evs s Hne Hsafe) as (_ & Hst' & _).
       cbn zeta in Hst'. rewrite Hst', Hst.
       pose proof (summary_duration env evs no_stats Hne) as Hd.
       subst N fails passes.
       destruct (summary env evs no_stats) as [a b c d]; cbn in *.
       now subst. }
  2: { intros r.
       exists (document_node env (suiteName r) (stats r) (tests r)).
       change (lines_text (report_lines env r))
         with (document_text env (suiteName r) (stats r) (tests r)).
       rewrite parse_document. repeat split. }
  destruct (report_after_run env options s evs Hnew
              (test_events_no_run_end evs Htests)
              (test_events_safe evs 0 Htests (Z.le_refl 0))) as [_ Hrep].
  exists (document_node env (suiteName s) (final_summary env evs) (tests_of evs)).
  rewrite Hrep, parse_document. split; [reflexivity|].
  unfold document_node, Xml.attribute, read_attrs, summary_attrs, final_summary.
  cbn [map fst snd Xml.lookup String_of collect stats_tests stats_failures
       stats_passes].
  cbn. rewrite Ht, Hf, Hp. repeat split.
Qed.

Lemma root_summary_counts_witness :
  exists root,
    Xml.parse (report (final (run sample_env (sample_tests ++ [EVENT_RUN_END])
                                  (constructed sample_env None)))) = Some root
    /\ Xml.attribute "tests" root = Some "2"
    /\ Xml.attribute "errors" root = Some "1"
    /\ Xml.attribute "skipped" root = Some "0"
    /\ Xml.attribute "failures" root = Some "0".
Proof.
  exact (proj1 (root_summary_counts sample_env None (constructed sample_env None)
                  sample_tests eq_refl eq_refl)).
Defined.

Lemma all_app (p : ascii -> bool) (a b : string) :
  Str.all p (a ++ b) = Str.all p a && Str.all p b.
Proof.
  induction a as [|c a IH]; [reflexivity|].
  cbn. now rewrite IH, andb_assoc.
Qed.


Lemma test_node_is_element (t : Test) : Xml.is_element (test_node t) = true.
Proof.
  unfold test_node. destruct (is_failed t); [reflexivity|].
  destruct (isPending t); reflexivity.
Qed.

Lemma elements_document (env : Env) (name : string) (st : Stats)
    (ts : list Test) :
  Xml.elements (document_node env name st ts) = map test_node ts.
Proof.
  unfold document_node, Xml.elements.
  rewrite List.filter_app. cbn [filter Xml.is_element]. rewrite List.app_nil_r.
  induction ts as [|t ts IH]; [reflexivity|].
  cbn [flat_map List.app filter Xml.is_element].
  now rewrite test_node_is_element, IH.
Qed.



Lemma test_node_shape (t : Test) : test_node t = shape (outcome t) t.
Proof.
  unfold test_node, outcome, is_failed.
  destruct (state t) as [[]|]; destruct (isPending t); reflexivity.
Qed.

Lemma parse_test_line (t : Test) : Xml.parse (test_line t) = Some (test_node t).
Proof.
  unfold Xml.parse. rewrite <- (StrFacts.app_nil_r (test_line t)).
  rewrite (sax_test_line t _ _ _ _ _ (flush_empty _)).
  cbn. unfold test_node.
  destruct (is_failed t); [|destruct (isPending t)]; reflexivity.
Qed.


Lemma run_after_end (env : Env) (evs : list event) : forall s,
  once_run_end s = false -> report (final (run env evs s)) = report s.
Proof.
  induction evs as [|ev evs IH]; intros s Harmed; [reflexivity|].
  rewrite run_cons. destruct (is_run_end ev) eqn:Hev.
  - destruct ev; try discriminate Hev.
    rewrite (emit_run_end_again env s Harmed). now rewrite IH.
  - destruct (emit_fields env ev s Hev) as (_ & _ & _ & _ & _ & Ha & Hr).
    destruct (emit env ev s) as [[] s'|e s']; cbn [final] in *.
    + rewrite IH; congruence.
    + exact Hr.
Qed.

(** C4: the run-end listener writes one [testcase] element for each test
    buffered before it, in the order the pass, fail and pending events came;
    what comes after the end of the run adds nothing. *)
Theorem children_in_arrival_order (env : Env) (options : option Options)
    (s : XUnit) (pre post : list event) :
  new_XUnit env options = Ok tt s ->
  forallb (fun ev => negb (is_run_end ev)) pre = true ->
  thrown (run env pre s) = None ->
  tests (final (run env pre s)) = tests_of pre
  /\ exists root,
      Xml.parse (report (final (run env (pre ++ EVENT_RUN_END :: post) s)))
      = Some root
      /\ Xml.elements root = map (fun t => shape (outcome t) t) (tests_of pre)
      /\ List.length (Xml.elements root) = List.length (tests_of pre).
Proof.
  intros Hnew Hne Hok.
  assert (Hsafe : safe 0 pre = true).
  { rewrite run_thrown in Hok. rewrite (new_XUnit_ok _ _ _ Hnew) in Hok.
    cbn [constructed indents] in Hok. now destruct (safe 0 pre). }
  destruct (report_after_run env options s pre Hnew Hne Hsafe) as [Hthrown Hrep].
  pose proof (new_XUnit_ok _ _ _ Hnew) as Hs.
  assert (Hi : indents s = 0%Z) by now subst s.
  assert (Hts : tests s = []) by now subst s.
  assert (Harmed : once_run_end s = true) by now subst s.
  rewrite <- Hi in Hsafe.
  destruct (run_fields env pre s Hne Hsafe) as (Hts' & _ & _ & _ & Ha' & _).
  cbn zeta in *. split; [now rewrite Hts', Hts|].
  exists (document_node env (suiteName s) (final_summary env pre) (tests_of pre)).
  assert (Hpost : report (final (run env (pre ++ EVENT_RUN_END :: post) s))
                  = report (final (run env (pre ++ [EVENT_RUN_END]) s))).
  { rewrite !run_app, (run_ok env pre s Hsafe).
    set (s' := final (run env pre s)) in *.
    rewrite !run_cons, (emit_run_end env s') by congruence.
    cbn [run ret final]. now rewrite run_after_end. }
  rewrite Hpost, Hrep, parse_document, elements_document.
  split; [reflexivity|]. split.
  - apply List.map_ext. intros t. apply test_node_shape.
  - now rewrite List.length_map.
Qed.

Lemma children_in_arrival_order_witness :
  tests (final (run sample_env [EVENT_SUITE_BEGIN "A"; EVENT_TEST_PASS t1;
                                EVENT_TEST_FAIL t2; EVENT_SUITE_END]
                    (constructed sample_env None)))
  = [t1; t2]
  /\ exists root,
      Xml.parse (report (final (run sample_env
                   ([EVENT_SUITE_BEGIN "A"; EVENT_TEST_PASS t1;
                     EVENT_TEST_FAIL t2; EVENT_SUITE_END]
                      ++ EVENT_RUN_END :: [EVENT_TEST_PASS t3])
                   (constructed sample_env None))))
      = Some root
      /\ Xml.elements root = [shape Passed t1; shape Failed t2]
      /\ List.length (Xml.elements root) = 2.
Proof.
  exact (children_in_arrival_order sample_env None (constructed sample_env None)
           [EVENT_SUITE_BEGIN "A"; EVENT_TEST_PASS t1; EVENT_TEST_FAIL t2;
            EVENT_SUITE_END]
           [EVENT_TEST_PASS t3] eq_refl eq_refl eq_refl).
Defined.

(** ** The file sink *)

Lemma turn_inv (chunks : list string) (ended : option Z) (w : World) :
  stream_inv chunks ended w -> stream_inv chunks ended (turn w).
Proof.
  intros (Hfile & Hend & Hdone). unfold turn.
  destruct w as [[q fl cb fin] done]; cbn in *.
  destruct q as [|chunk q].
  - destruct Hdone as [[Hc Hf]|(f & He & _ & Hf & Hc)].
    + subst done fin cb. destruct ended as [f|]; cbn.
      * unfold stream_inv; cbn. repeat split; try assumption.
        right. exists f. rewrite List.app_nil_r in Hfile. now subst fl.
      * unfold stream_inv; cbn. repeat split; try assumption. now left.
    + subst fin cb ended. cbn. unfold stream_inv; cbn.
      repeat split; try assumption. right. now exists f.
  - unfold stream_inv; cbn. split; [now rewrite <- List.app_assoc|].
    split; [assumption|].
    destruct Hdone as [Hc|(f & _ & Hq & _)]; [now left | discriminate Hq].
Qed.

Lemma quiet_inv (chunks : list string) (ended : option Z) (sched : list tick) :
  forall w,
  filter is_file_call (calls sched) = [] ->
  stream_inv chunks ended w -> stream_inv chunks ended (play sched w).
Proof.
  induction sched as [|t sched IH]; intros w Hcalls Hinv; [exact Hinv|].
  cbn [play fold_left]. fold (play sched (play_tick w t)).
  destruct t as [e|].
  - cbn [calls flat_map List.app filter] in Hcalls.
    destruct (is_file_call e) eqn:He; [discriminate Hcalls|].
    apply IH; [exact Hcalls|].
    destruct e; try discriminate He; destruct w; exact Hinv.
  - apply IH; [exact Hcalls | now apply turn_inv].
Qed.

Lemma writes_then_end_inv (f : Z) (sched : list tick) : forall cs chunks w,
  filter is_file_call (calls sched)
  = (map FileWrite cs ++ [FileEnd (call_fn f)])%list ->
  stream_inv chunks None w ->
  stream_inv (chunks ++ cs) (Some f) (play sched w).
Proof.
  induction sched as [|t sched IH]; intros cs chunks w Hcalls Hinv.
  - destruct cs; discriminate Hcalls.
  - cbn [play fold_left]. fold (play sched (play_tick w t)).
    destruct t as [e|].
    + cbn [calls flat_map List.app filter] in Hcalls.
      fold (calls sched) in Hcalls.
      destruct (is_file_call e) eqn:He.
      * destruct e; try discriminate He.
        -- destruct cs as [|c cs]; [discriminate Hcalls|].
           cbn [map List.app] in Hcalls. inversion Hcalls; subst.
           replace (chunks ++ c :: cs)%list with ((chunks ++ [c]) ++ cs)%list
             by now rewrite <- List.app_assoc.
           apply IH; [assumption|].
           destruct Hinv as (Hfile & Hend & Hdone).
           destruct w as [[q fl cb fin] done]; cbn in *.
           unfold stream_inv; cbn. split; [|split; [assumption|]].
           ++ now rewrite List.app_assoc, Hfile.
           ++ destruct Hdone as [Hc|(f' & He' & _)]; [now left | discriminate He'].
        -- destruct cs as [|c cs]; [|discriminate Hcalls].
           cbn [map List.app] in Hcalls. inversion Hcalls; subst.
           rewrite List.app_nil_r. apply quiet_inv; [assumption|].
           destruct Hinv as (Hfile & Hend & Hdone).
           destruct w as [[q fl cb' fin] done]; cbn in *.
           unfold stream_inv; cbn. repeat split; try assumption.
           destruct Hdone as [Hc|(f' & He' & _)]; [now left | discriminate He'].
      * apply (IH cs chunks); [exact Hcalls|].
        destruct e; try discriminate He; destruct w; exact Hinv.
    + apply (IH cs chunks); [exact Hcalls | now apply turn_inv].
Qed.

Lemma idle_turns (k : nat) : forall w,
  queued (stream w) = [] -> finished (stream w) = true ->
  play (repeat Turn k) w = w.
Proof.
  induction k as [|k IH]; intros w Hq Hf; [reflexivity|].
  cbn [repeat play fold_left]. fold (play (repeat Turn k) (play_tick w Turn)).
  assert (Hw : play_tick w Turn = w).
  { unfold play_tick, turn. rewrite Hq, Hf.
    destruct (on_finish (stream w)) as [[]|]; reflexivity. }
  rewrite Hw. now apply IH.
Qed.

Lemma drain (chunks : list string) (f : Z) (k : nat) : forall w,
  stream_inv chunks (Some f) w ->
  (List.length (queued (stream w)) < k)%nat ->
  completions (play (repeat Turn k) w) = [(f, chunks)].
Proof.
  induction k as [|k IH]; intros w Hinv Hlen; [lia|].
  cbn [repeat play fold_left]. fold (play (repeat Turn k) (play_tick w Turn)).
  pose proof (turn_inv _ _ _ Hinv) as Hinv'.
  destruct (queued (stream w)) as [|chunk rest] eqn:Hq.
  - assert (Hdone : queued (stream (turn w)) = []
                    /\ finished (stream (turn w)) = true).
    { destruct Hinv as (_ & Hend & _). unfold turn. rewrite Hq, Hend. cbn.
      destruct (finished (stream w)) eqn:Hf; cbn; [now rewrite Hq, Hf | now split]. }
    destruct Hdone as [Hq' Hf']. cbn [play_tick].
    rewrite (idle_turns k _ Hq' Hf').
    destruct Hinv' as (_ & _ & [[_ Hnot]|(f' & He & _ & _ & Hc)]).
    + rewrite Hf' in Hnot. discriminate Hnot.
    + now inversion He; subst.
  - apply IH; [exact Hinv'|].
    cbn [play_tick]. unfold turn. rewrite Hq. cbn in *. lia.
Qed.

Lemma play_app (a b : list tick) (w : World) :
  play (a ++ b) w = play b (play a w).
Proof. unfold play. apply List.fold_left_app. Qed.

Lemma file_calls_are_writes (l : list effect) :
  forallb (fun e => negb (is_file_end e)) l = true ->
  filter is_file_call l = map FileWrite (file_chunks l).
Proof.
  induction l as [|e l IH]; intros H; [reflexivity|].
  cbn in H. apply andb_true_iff in H as [He H].
  cbn [filter file_chunks flat_map]. fold (file_chunks l).
  destruct e; try discriminate He; cbn; rewrite ?(IH H); reflexivity.
Qed.

Lemma done_eq (failures : Z) (s : XUnit) :
  done failures s
  = Ok tt (with_log s (log s ++ [match fileStream s with
                                 | Some _ => FileEnd (call_fn failures)
                                 | None => Completion failures
                                 end])%list).
Proof.
  destruct s as [st ts d k name f armed l].
  unfold done, bind, get, emit_effect, with_log. cbn.
  destruct f; reflexivity.
Qed.

Lemma opened_inv : stream_inv [] None opened.
Proof. unfold stream_inv, opened; cbn. repeat split. now left. Qed.

(** C5: without a file sink [done] calls [fn(failures)] itself, at once.
    With a file sink [done] only hands the call to the stream's [end]; in
    every schedule of the stream that makes the file calls of the reporter,
    [fn] is called at most once, with [failures], and when it is called the
    file holds every chunk written before [done] and the stream has
    finished; once the stream has had a turn for each chunk and one more,
    [fn] has been called. *)
Theorem teardown_order (failures : Z) (s : XUnit) (sched : list tick) :
  forallb (fun e => negb (is_file_end e)) (log s) = true ->
  filter is_file_call (calls sched)
  = filter is_file_call (log (final (done failures s))) ->
  thrown (done failures s) = None
  /\ match fileStream s with
     | None => log (final (done failures s)) = (log s ++ [Completion failures])%list
     | Some _ =>
         let written := file_chunks (log s) in
         let w := play sched opened in
         log (final (done failures s))
         = (log s ++ [FileEnd (call_fn failures)])%list
         /\ (completions w = [] \/ completions w = [(failures, written)])
         /\ (completions w <> [] ->
             file (stream w) = written /\ queued (stream w) = []
             /\ finished (stream w) = true)
         /\ completions (play (sched ++ repeat Turn (S (List.length written))) opened)
            = [(failures, written)]
     end.
Proof.
  intros Hfirst Hsched. rewrite done_eq in *. cbn [thrown final] in *.
  split; [reflexivity|].
  unfold with_log in *. cbn [log] in *.
  destruct (fileStream s) as [path|]; [|reflexivity].
  cbn zeta. split; [reflexivity|].
  rewrite List.filter_app, (file_calls_are_writes _ Hfirst) in Hsched.
  cbn [filter is_file_call] in Hsched.
  pose proof (writes_then_end_inv failures sched _ [] opened Hsched opened_inv)
    as Hinv.
  cbn [List.app] in Hinv.
  split; [|split].
  - destruct Hinv as (_ & _ & [[Hc _]|(f & He & _ & _ & Hc)]); [now left|].
    right. now inversion He; subst.
  - intros Hfired.
    destruct Hinv as (Hfile & _ & [[Hc _]|(f & He & Hq & Hf & Hc)]);
      [contradiction|].
    rewrite Hq, List.app_nil_r in Hfile. now repeat split.
  - rewrite play_app. apply drain; [exact Hinv|].
    destruct Hinv as (Hfile & _).
    rewrite <- Hfile, List.length_app. lia.
Qed.

Lemma teardown_order_witness :
  thrown (done 0 three_writes) = None
  /\ log (final (done 0 three_writes))
     = (log three_writes ++ [FileEnd (call_fn 0)])%list
  /\ (completions (play three_writes_sched opened) = []
      \/ completions (play three_writes_sched opened)
         = [(0%Z, file_chunks (log three_writes))])
  /\ (completions (play three_writes_sched opened) <> [] ->
      file (stream (play three_writes_sched opened)) = file_chunks (log three_writes)
      /\ queued (stream (play three_writes_sched opened)) = []
      /\ finished (stream (play three_writes_sched opened)) = true)
  /\ completions (play (three_writes_sched ++ repeat Turn 4) opened)
     = [(0%Z, file_chunks (log three_writes))].
Proof.
  exact (teardown_order 0 three_writes three_writes_sched eq_refl eq_refl).
Defined.

(** ** Construction *)

(** C6: the constructor throws the unsupported error exactly when an output
    path comes out of the environment variable or of the options and
    [fs.createWriteStream] is missing; it has then done nothing: no
    directory, no stream, no output, no listener. *)
Theorem unsupported_iff (env : Env) (options : option Options) :
  ((exists msg, thrown (new_XUnit env options) = Some (UnsupportedError msg))
   <-> (truthy (resolve_outputPath env options) = true
        /\ createWriteStream env = false))
  /\ truthy (resolve_outputPath env options)
     = truthy (MOCHA_FILE env) || truthy (option_output options)
  /\ match thrown (new_XUnit env options) with
     | Some (UnsupportedError _) => final (new_XUnit env options) = blank
     | _ => True
     end.
Proof.
  rewrite new_XUnit_cases. split; [|split; [apply truthy_resolved|]].
  - destruct (truthy (resolve_outputPath env options)).
    + destruct (createWriteStream env).
      * destruct (mkdirSync env _); cbn; split.
        -- intros [msg H]; discriminate H.
        -- intros [_ H]; discriminate H.
        -- intros [msg H]; discriminate H.
        -- intros [_ H]; discriminate H.
      * cbn. split; [now intros _ | intros _; eexists; reflexivity].
    + cbn. split; [intros [msg H]; discriminate H | intros [H _]; discriminate H].
  - destruct (truthy (resolve_outputPath env options)); [|exact I].
    destruct (createWriteStream env); [|reflexivity].
    destruct (mkdirSync env _); exact I.
Qed.

Lemma unsupported_iff_witness :
  ((exists msg, thrown (new_XUnit no_stream_env None) = Some (UnsupportedError msg))
   <-> (truthy (resolve_outputPath no_stream_env None) = true
        /\ createWriteStream no_stream_env = false))
  /\ truthy (resolve_outputPath no_stream_env None)
     = truthy (MOCHA_FILE no_stream_env) || truthy (option_output None)
  /\ final (new_XUnit no_stream_env None) = blank.
Proof. exact (unsupported_iff no_stream_env None). Defined.

(** C7 fails as stated: with the variable set to the empty string the
    [output] of the options is the path used. *)
Lemma precedence_counterexample :
  MOCHA_FILE empty_variable_env = Some ""
  /\ option_output output_options = Some "report.xml"
  /\ resolve_outputPath empty_variable_env output_options = Some "report.xml"
  /\ ~ precedence_as_stated.
Proof.
  repeat split. intros H.
  specialize (H empty_variable_env output_options "report.xml"
                eq_refl eq_refl).
  cbn in H. assert (Hne : Some "" <> Some "report.xml") by discriminate.
  specialize (H Hne). discriminate H.
Qed.

(** C7, amended: the environment variable is read first and is the path
    whenever it is set and not empty; the [output] of the options is the
    path when the variable is unset or empty and [output] is not; otherwise
    there is no path. *)
Theorem output_path_precedence (env : Env) (options : option Options) :
  resolve_outputPath env options
  = (if truthy (MOCHA_FILE env) then MOCHA_FILE env
     else if truthy (option_output options) then option_output options
     else MOCHA_FILE env)
  /\ (truthy (MOCHA_FILE env) = false
      <-> (MOCHA_FILE env = None \/ MOCHA_FILE env = Some "")).
Proof.
  split.
  - unfold resolve_outputPath, option_output.
    destruct options as [[[ro|]]|]; try now destruct (truthy (MOCHA_FILE env)).
    destruct (truthy (MOCHA_FILE env)), (truthy (output ro)); reflexivity.
  - destruct (MOCHA_FILE env) as [[|c p]|]; cbn; split; intros H;
      try reflexivity; try discriminate H; try (now left); try (now right).
    destruct H as [H|H]; discriminate H.
Qed.

(** ** Durations *)

Lemma strip_zeros_zero (e : nat) : strip_zeros e 0 = (0%Z, 0%nat).
Proof. induction e as [|e IH]; [reflexivity | exact IH]. Qed.

Lemma seconds_string (x : number) :
  number_to_string (seconds (Some x))
  = match x with
    | NaN => "0"
    | _ => number_to_string (div1000 x)
    end.
Proof.
  destruct x as [m e| |neg]; try reflexivity.
  unfold seconds, or_number, ToNumber, div1000, truthy_number.
  destruct (m =? 0)%Z eqn:Hm; [|reflexivity].
  apply Z.eqb_eq in Hm; subst m. cbn [negb].
  unfold number_to_string, of_Z. now rewrite !strip_zeros_zero.
Qed.

(** ** Indentation *)

Lemma repeat_string_empty (k : nat) : repeat_string k "  " = "" <-> k = O.
Proof. destruct k; cbn; split; intros H; try reflexivity; discriminate H. Qed.

Lemma printed_indent_empty (d : Z) :
  printed_indent d = Some "" <-> (0 <= d <= 1)%Z.
Proof.
  unfold printed_indent. rewrite Array_join_cases.
  destruct (d <? 0)%Z eqn:Hd.
  - apply Z.ltb_lt in Hd. split; [discriminate | lia].
  - apply Z.ltb_ge in Hd. split.
    + intros H. inversion H as [H1]. apply repeat_string_empty in H1. lia.
    + intros H. f_equal. apply repeat_string_empty. lia.
Qed.

Lemma printed_indent_some (d : Z) (i : string) :
  printed_indent d = Some i -> (0 <= d)%Z.
Proof.
  unfold printed_indent. rewrite Array_join_cases.
  destruct (d <? 0)%Z eqn:Hd; [discriminate|]. apply Z.ltb_ge in Hd. now intros _.
Qed.

Lemma top_level_iff (d : Z) : returns_to_top_level d (d - 1) <-> (d - 1 = 1)%Z.
Proof.
  unfold returns_to_top_level. split.
  - intros (Hafter & i & Hbefore & Hi).
    apply printed_indent_empty in Hafter.
    assert (Hd : ~ (0 <= d <= 1)%Z).
    { intros Hd. apply printed_indent_empty in Hd. congruence. }
    lia.
  - intros Hd. replace d with 2%Z by lia. split; [reflexivity|].
    exists "  ". split; [reflexivity | discriminate].
Qed.

(** C9: the suite-end listener never throws, takes one off the counter, and
    logs a blank line exactly when the counter is at 1 afterwards, which is
    when the indentation is back at the top level. *)
Theorem suite_end_step (env : Env) (s : XUnit) :
  let r := emit env EVENT_SUITE_END s in
  thrown r = None
  /\ indents (final r) = (indents s - 1)%Z
  /\ log (final r)
     = (log s ++ (if (indents (final r) =? 1)%Z then [ConsoleLog None []] else []))%list
  /\ ((indents (final r) = 1)%Z
      <-> returns_to_top_level (indents s) (indents (final r))).
Proof.
  cbn zeta. rewrite emit_thrown, emit_indents. cbn [calls_indent andb delta].
  change (indents s + -1)%Z with (indents s - 1)%Z.
  split; [reflexivity|]. split; [reflexivity|]. split.
  - step_listener. destruct (indents s - 1 =? 1)%Z eqn:Hd; cbn.
    + reflexivity.
    + now rewrite List.app_nil_r.
  - symmetry. apply top_level_iff.
Qed.

(** *** Balance of the suite events *)

Lemma depth_counts (evs : list event) : forall d,
  depth d evs = (d + Z.of_nat (begins evs) - Z.of_nat (ends evs))%Z.
Proof.
  unfold begins, ends.
  induction evs as [|ev evs IH]; intros d; [cbn; lia|].
  cbn [depth fold_left]. fold (depth (d + delta ev) evs). rewrite IH.
  destruct ev; cbn [filter is_suite_begin is_suite_end delta List.length]; lia.
Qed.

Lemma safe_app (a b : list event) : forall d,
  safe d (a ++ b) = safe d a && safe (depth d a) b.
Proof.
  induction a as [|ev a IH]; intros d; [reflexivity|].
  cbn [List.app safe depth fold_left]. fold (depth (d + delta ev) a).
  now rewrite IH, andb_assoc.
Qed.

Lemma safe_nonneg (evs : list event) : forall d,
  (forall k, 0 <= depth d (firstn k evs))%Z -> safe d evs = true.
Proof.
  induction evs as [|ev evs IH]; intros d H; [reflexivity|].
  cbn [safe]. pose proof (H 1%nat) as H1. cbn in H1.
  rewrite IH.
  - destruct (d + delta ev <? 0)%Z eqn:E; [apply Z.ltb_lt in E; lia|].
    now rewrite andb_false_r.
  - intros k. exact (H (S k)).
Qed.

Lemma run_indents (env : Env) (evs : list event) : forall s,
  safe (indents s) evs = true ->
  indents (final (run env evs s)) = depth (indents s) evs.
Proof.
  induction evs as [|ev evs IH]; intros s Hsafe; [reflexivity|].
  cbn [safe] in Hsafe. apply andb_true_iff in Hsafe as [Hok Hsafe].
  apply negb_true_iff in Hok.
  pose proof (emit_thrown env ev s) as Ht. rewrite Hok in Ht.
  pose proof (emit_indents env ev s) as Hi.
  rewrite run_cons. cbn [depth fold_left]. fold (depth (indents s + delta ev) evs).
  destruct (emit env ev s) as [[] s'|e s']; [|discriminate Ht].
  cbn [final] in Hi. rewrite <- Hi in *. now apply IH.
Qed.

Lemma balanced_depth (evs : list event) (k : nat) :
  balanced evs -> (0 <= depth 0 (firstn k evs))%Z.
Proof. intros H. rewrite depth_counts. specialize (H k). lia. Qed.

Lemma balanced_firstn (evs : list event) (k : nat) :
  balanced evs -> balanced (firstn k evs).
Proof.
  intros H j. rewrite List.firstn_firstn. apply H.
Qed.

(** ** Worked examples *)

Example number_examples :
  map number_to_string
      [of_Z 2; div1000 (of_Z 5); div1000 (of_Z 1500); div1000 (of_Z (-20));
       div1000 (of_Z 12000); seconds None; seconds (Some (of_Z 0))]
  = ["2"; "0.005"; "1.5"; "-0.02"; "12"; "0"; "0"].
Proof. reflexivity. Qed.

Example tag_example :
  tag "testcase"
      [("classname", VStr "A"); ("name", VStr "x<y");
       ("time", VNum (div1000 (of_Z 5)))] true None
  = "<testcase classname=" ++ String Str.dquote "A" ++ String Str.dquote " name="
     ++ String Str.dquote "x&lt;y" ++ String Str.dquote " time="
     ++ String Str.dquote "0.005" ++ String Str.dquote "/>".
Proof. reflexivity. Qed.

(** The scenario of the specification: a suite with a passed and a failed
    test. *)
Example scenario_report :
  Xml.parse (report (final (run sample_env scenario (constructed sample_env None))))
  = Some (Xml.Element "testsuite"
            [("name", "Mocha Tests"); ("tests", "2"); ("failures", "0");
             ("errors", "1"); ("skipped", "0");
             ("timestamp", "Thu, 01 Jan 1970 00:00:00 GMT"); ("time", "0.007")]
            false
            [Xml.Text (String "010" "");
             Xml.Element "testcase"
               [("classname", "A"); ("name", "t1"); ("time", "0.005")] true [];
             Xml.Text (String "010" "");
             Xml.Element "testcase"
               [("classname", "A"); ("name", "t2"); ("time", "0.012")] false
               [Xml.Element "failure" [] false
                  [Xml.Text ("x<y" ++ String "010" "at <anonymous>")]];
             Xml.Text (String "010" "")]).
Proof. reflexivity. Qed.

Example scenario_failure_line :
  test_line t2
  = tag "testcase"
        [("classname", VStr "A"); ("name", VStr "t2");
         ("time", VNum (div1000 (of_Z 12)))] false
        (Some ("<failure>x&lt;y" ++ String "010" "at &lt;anonymous&gt;</failure>")).
Proof. reflexivity. Qed.

Example scenario_console :
  filter (fun e => match e with ConsoleLog _ _ => true | _ => false end)
         (log (final (run sample_env scenario (constructed sample_env None))))
  = [ConsoleLog (Some "%s%s") [VStr ""; VStr "A"];
     ConsoleLog (Some "  ok %s") [VStr "t1"];
     ConsoleLog (Some "  %d) %s") [VNum (of_Z 1); VStr "t2"]].
Proof. reflexivity. Qed.

(** Three lines are queued before [done]; [fn] is called once all three are
    in the file, and not before. *)
Example three_writes_completion :
  List.length (file_chunks (log three_writes)) = 3%nat
  /\ completions (play three_writes_sched opened)
     = [(0%Z, file_chunks (log three_writes))]
  /\ file (stream (play three_writes_sched opened)) = file_chunks (log three_writes)
  /\ completions (play (firstn (List.length three_writes_sched - 1)
                               three_writes_sched) opened) = [].
Proof. repeat split; vm_compute; reflexivity. Qed.

(** * Further properties *)

(** ** The tag helper *)

Lemma render_not_empty (m : markup) : Str.is_empty (render m) = false.
Proof. destruct m; cbn [render]; rewrite tag_text; reflexivity. Qed.

Lemma flat_render_not_empty (m : markup) (l : list markup) :
  Str.is_empty (Str.flat (map render (m :: l))) = false.
Proof.
  cbn [map Str.flat]. pose proof (render_not_empty m) as H.
  destruct (render m); [discriminate H | reflexivity].
Qed.

Lemma with_child_children (f : frame) (x : node) :
  with_child f x = with_children f [x].
Proof. reflexivity. Qed.

Lemma with_children_app (f : frame) (a b : list node) :
  with_children (with_children f a) b = with_children f (a ++ b)%list.
Proof. unfold with_children. cbn. now rewrite <- List.app_assoc. Qed.

Lemma markup_nested_ind (P : markup -> Prop) :
  (forall name attrs, P (Empty name attrs)) ->
  (forall name attrs text, P (TextElement name attrs text)) ->
  (forall name attrs children,
      Forall P children -> P (Parent name attrs children)) ->
  forall m, P m.
Proof.
  intros Hempty Htext Hparent. fix IH 1.
  intros [name attrs|name attrs text|name attrs children].
  - apply Hempty.
  - apply Htext.
  - apply Hparent.
    induction children as [|k children IHk]; constructor; [apply IH | exact IHk].
Qed.

Lemma sax_render (m : markup) : forall f stack rest,
  well_formed m = true ->
  sax (Content "", f :: stack) (render m ++ rest)
  = sax (Content "", with_child f (tree m) :: stack) rest.
Proof.
  induction m as [name attrs|name attrs text|name attrs children IH]
    using markup_nested_ind; intros f stack rest Hwf.
  - cbn [well_formed] in Hwf. apply andb_true_iff in Hwf as [Hname Hkeys].
    cbn [render tree]. rewrite tag_text.
    cbn [truthy_content content_text end_text]. rewrite !StrFacts.app_assoc.
    rewrite (sax_element_empty _ _ _ _ name attrs _ (flush_empty _) Hname Hkeys).
    reflexivity.
  - cbn [well_formed] in Hwf. apply andb_true_iff in Hwf as [Hwf Htext].
    apply andb_true_iff in Hwf as [Hname Hkeys].
    apply negb_true_iff in Htext.
    cbn [render tree]. rewrite tag_text. unfold escape. cbn [String_of].
    cbn [truthy_content content_text end_text].
    rewrite escape_string_empty, Htext. cbn [negb].
    rewrite !StrFacts.app_assoc.
    rewrite (sax_element_open _ _ _ name attrs _ (flush_empty _) Hname Hkeys).
    rewrite (sax_content_escaped _ _ "").
    change ("" ++ escape_string text) with (escape_string text).
    erewrite (sax_element_close _ _ _ _ _ name);
      [|apply flush_escaped; exact Htext|exact Hname|reflexivity].
    reflexivity.
  - cbn [well_formed] in Hwf. apply andb_true_iff in Hwf as [Hwf Hkids].
    apply andb_true_iff in Hwf as [Hwf Hsome].
    apply andb_true_iff in Hwf as [Hname Hkeys].
    assert (Hlist : forall g stk rst,
               sax (Content "", g :: stk)
                   (Str.flat (map render children) ++ rst)
               = sax (Content "", with_children g (map tree children) :: stk) rst).
    { clear Hsome. induction children as [|k children IHc]; intros g stk rst.
      - cbn. unfold with_children. rewrite List.app_nil_r. now destruct g.
      - cbn [forallb] in Hkids. apply andb_true_iff in Hkids as [Hk Hkids].
        inversion IH as [|? ? IHk IHrest]; subst.
        cbn [map Str.flat]. rewrite StrFacts.app_assoc.
        rewrite (IHk _ _ _ Hk), (IHc IHrest Hkids).
        rewrite with_child_children, with_children_app. reflexivity. }
    destruct children as [|k children]; [discriminate Hsome|].
    cbn [render tree]. rewrite tag_text.
    cbn [truthy_content content_text end_text].
    rewrite flat_render_not_empty. cbn [negb].
    rewrite !StrFacts.app_assoc.
    rewrite (sax_element_open _ _ _ name attrs _ (flush_empty _) Hname Hkeys).
    rewrite Hlist.
    erewrite (sax_element_close _ _ _ _ _ name);
      [|apply flush_empty|exact Hname|reflexivity].
    reflexivity.
Qed.

Lemma parse_render (m : markup) :
  well_formed m = true -> Xml.parse (render m) = Some (tree m).
Proof.
  intros Hwf. unfold Xml.parse.
  rewrite <- (StrFacts.app_nil_r (render m)).
  rewrite (sax_render m _ _ _ Hwf). cbn.
  destruct m; reflexivity.
Qed.

(** An end tag that ends in [/>] stops the reader, wherever it stands. *)
Lemma sax_end_tag_slash (name rest : string) (st : pstate) :
  name_ok name = true -> sax st ("</" ++ name ++ "/>" ++ rest) = None.
Proof.
  intros Hname. destruct st as [m stack]. destruct m; try reflexivity.
  change ("</" ++ name ++ "/>" ++ rest)
    with (String "<" (String "/" (name ++ "/>" ++ rest))).
  cbn [sax step]. change ("<" =? "<")%char with true. cbn iota.
  destruct (flush raw stack) as [stack'|]; [|reflexivity].
  cbn [sax step]. change ("/" =? "/")%char with true. cbn iota.
  rewrite (sax_close_name _ _ "" _ (name_ok_all _ Hname)).
  reflexivity.
Qed.

(** X2: called with a name, with [close] set and with content, [tag] writes
    an end tag that ends in [/>]: what it returns is no element, whatever
    the attributes and the content are. *)
Theorem tag_close_with_content (name : string) (attrs : attributes)
    (content : option string) :
  name_ok name = true -> truthy_content content = true ->
  tag name attrs true content
  = tag name attrs true None ++ content_text content ++ "</" ++ name ++ "/>"
  /\ Xml.parse (tag name attrs true content) = None.
Proof.
  intros Hname Hcontent. split.
  - rewrite !tag_text, Hcontent. cbn [truthy_content end_text].
    rewrite StrFacts.app_nil_r, !StrFacts.app_assoc. reflexivity.
  - rewrite tag_text, Hcontent. cbn [end_text]. unfold Xml.parse.
    replace ("<" ++ name ++ attrs_text attrs ++ "/>"
                 ++ content_text content ++ "</" ++ name ++ "/>")
      with (("<" ++ name ++ attrs_text attrs ++ "/>" ++ content_text content)
              ++ "</" ++ name ++ "/>" ++ "")
      by (rewrite !StrFacts.app_assoc; reflexivity).
    rewrite sax_app.
    destruct (sax _ ("<" ++ name ++ attrs_text attrs ++ "/>" ++ content_text content));
      [|reflexivity].
    now rewrite sax_end_tag_slash.
Qed.

Lemma tag_close_with_content_witness :
  tag "skipped" [] true (Some "x")
  = tag "skipped" [] true None ++ "x" ++ "</" ++ "skipped" ++ "/>"
  /\ Xml.parse (tag "skipped" [] true (Some "x")) = None.
Proof. exact (tag_close_with_content "skipped" [] (Some "x") eq_refl eq_refl). Defined.

(** X3: content that is absent or the empty string is no content for [tag],
    called with a name and with keys that are names and differ: with [close]
    unset it writes the start tag alone, which leaves the element open, and
    with [close] set the empty element. *)
Theorem tag_without_content (name : string) (attrs : attributes) (close : bool)
    (content : option string) :
  name_ok name = true -> keys_ok [] attrs = true ->
  truthy_content content = false ->
  tag name attrs close content = "<" ++ name ++ attrs_text attrs ++ end_text close
  /\ Xml.parse (tag name attrs close content)
     = if close then Some (Xml.Element name (read_attrs attrs) true []) else None.
Proof.
  intros Hname Hkeys Hcontent.
  assert (Htext : tag name attrs close content
                  = "<" ++ name ++ attrs_text attrs ++ end_text close).
  { rewrite tag_text, Hcontent. now rewrite !StrFacts.app_nil_r. }
  split; [exact Htext|]. rewrite Htext. unfold Xml.parse.
  destruct close; cbn [end_text].
  - replace ("<" ++ name ++ attrs_text attrs ++ "/>")
      with ("<" ++ name ++ attrs_text attrs ++ "/>" ++ "") by reflexivity.
    rewrite (sax_element_empty _ _ _ _ name attrs _ (flush_empty _) Hname Hkeys).
    reflexivity.
  - replace ("<" ++ name ++ attrs_text attrs ++ ">")
      with ("<" ++ name ++ attrs_text attrs ++ ">" ++ "") by reflexivity.
    rewrite (sax_element_open _ _ _ name attrs _ (flush_empty _) Hname Hkeys).
    reflexivity.
Qed.

Lemma tag_without_content_witness :
  tag "failure" [] false (Some "") = "<" ++ "failure" ++ attrs_text [] ++ ">"
  /\ Xml.parse (tag "failure" [] false (Some "")) = None.
Proof.
  exact (tag_without_content "failure" [] false (Some "") eq_refl eq_refl eq_refl).
Defined.

(** ** The calls of the listeners *)

Lemma printed_indent_cases (d : Z) :
  printed_indent d
  = if (d <? 0)%Z then None else Some (repeat_string (Z.to_nat d - 1) "  ").
Proof.
  unfold printed_indent. rewrite Array_join_cases. now destruct (d <? 0)%Z.
Qed.

(** What an event adds to the calls of the reporter, whether its listener
    throws or not. *)
Lemma emit_calls (env : Env) (ev : event) (s : XUnit) :
  log (final (emit env ev s)) = (log s ++ listener_calls env s ev)%list.
Proof.
  destruct ev; cbn [listener_calls delta].
  - step_listener. reflexivity.
  - rewrite printed_indent_cases. step_listener. rewrite Array_join_cases.
    destruct (indents s + 1 <? 0)%Z; cbn; [now rewrite List.app_nil_r|reflexivity].
  - step_listener.
    destruct (indents s - 1 =? 1)%Z; cbn; [reflexivity|now rewrite List.app_nil_r].
  - rewrite printed_indent_cases, Z.add_0_r. step_listener.
    rewrite Array_join_cases.
    destruct (indents s <? 0)%Z; cbn; [now rewrite List.app_nil_r|reflexivity].
  - rewrite printed_indent_cases, Z.add_0_r. step_listener.
    cbn [console_line].
    destruct (speed test0 =? "fast")%string;
      cbn [stats tests indents n suiteName fileStream once_run_end log];
      rewrite Array_join_cases;
      (destruct (indents s <? 0)%Z; cbn; [now rewrite List.app_nil_r|reflexivity]).
  - rewrite printed_indent_cases, Z.add_0_r. step_listener.
    rewrite Array_join_cases.
    destruct (indents s <? 0)%Z; cbn; [now rewrite List.app_nil_r|reflexivity].
  - destruct (once_run_end s) eqn:Harmed.
    + rewrite (emit_run_end env s Harmed). reflexivity.
    + rewrite (emit_run_end_again env s Harmed). cbn. now rewrite List.app_nil_r.
Qed.

(** The failure counter moves with the fail listener alone, once it is past
    [indent()]. *)
Lemma emit_n (env : Env) (ev : event) (s : XUnit) :
  n (final (emit env ev s))
  = if is_fail ev && negb (indents s <? 0)%Z then (n s + 1)%Z else n s.
Proof.
  destruct ev; cbn [is_fail andb].
  - step_listener. reflexivity.
  - step_listener. rewrite Array_join_cases.
    now destruct (indents s + 1 <? 0)%Z.
  - step_listener. now destruct (indents s - 1 =? 1)%Z.
  - step_listener. rewrite Array_join_cases. now destruct (indents s <? 0)%Z.
  - step_listener.
    destruct (speed test0 =? "fast")%string;
      cbn [stats tests indents n suiteName fileStream once_run_end log];
      rewrite Array_join_cases; now destruct (indents s <? 0)%Z.
  - step_listener. rewrite Array_join_cases. now destruct (indents s <? 0)%Z.
  - destruct (once_run_end s) eqn:Harmed.
    + now rewrite (emit_run_end env s Harmed).
    + now rewrite (emit_run_end_again env s Harmed).
Qed.

Lemma emit_fileStream (env : Env) (ev : event) (s : XUnit) :
  fileStream (final (emit env ev s)) = fileStream s.
Proof.
  destruct (is_run_end ev) eqn:Hev.
  - destruct ev; try discriminate Hev.
    destruct (once_run_end s) eqn:Harmed.
    + now rewrite (emit_run_end env s Harmed).
    + now rewrite (emit_run_end_again env s Harmed).
  - now destruct (emit_fields env ev s Hev) as (_ & _ & _ & _ & H & _).
Qed.

Lemma emit_disarmed (env : Env) (ev : event) (s : XUnit) :
  once_run_end s = false -> once_run_end (final (emit env ev s)) = false.
Proof.
  intros Harmed. destruct (is_run_end ev) eqn:Hev.
  - destruct ev; try discriminate Hev.
    now rewrite (emit_run_end_again env s Harmed).
  - destruct (emit_fields env ev s Hev) as (_ & _ & _ & _ & _ & H & _).
    now rewrite H.
Qed.

Lemma console_line_is_console (env : Env) (i : string) (k : Z) (ev : event) :
  forallb is_console_line (console_line env i k ev) = true.
Proof.
  destruct ev; try reflexivity. cbn [console_line].
  now destruct (speed test0 =? "fast")%string.
Qed.

Lemma listener_calls_console (env : Env) (s : XUnit) (ev : event) :
  is_run_end ev && once_run_end s = false ->
  forallb is_console_line (listener_calls env s ev) = true.
Proof.
  intros H.
  destruct ev; cbn [listener_calls]; try reflexivity;
    try (destruct (printed_indent _); [apply console_line_is_console|reflexivity]).
  - now destruct (indents s - 1 =? 1)%Z.
  - cbn in H. now rewrite H.
Qed.

Lemma forallb_weaken {A} (p q : A -> bool) (l : list A) :
  (forall x, p x = true -> q x = true) ->
  forallb p l = true -> forallb q l = true.
Proof.
  intros Hpq. induction l as [|x l IH]; [reflexivity|].
  cbn. intros H. apply andb_true_iff in H as [Hx Hl].
  now rewrite (Hpq x Hx), IH.
Qed.

Lemma write_effect_sink (env : Env) (f : option string) (line : string) :
  sink_call env f (write_effect env f line) = true.
Proof.
  unfold write_effect, sink_call. destruct f; [reflexivity|].
  now destruct (process_stdout env).
Qed.

Lemma listener_calls_run_call (env : Env) (s : XUnit) (ev : event) :
  forallb (run_call env (fileStream s)) (listener_calls env s ev) = true.
Proof.
  destruct (is_run_end ev && once_run_end s) eqn:H.
  - apply andb_true_iff in H as [Hev Harmed].
    destruct ev; try discriminate Hev. cbn [listener_calls]. rewrite Harmed.
    rewrite List.forallb_app. apply andb_true_iff. split; [|reflexivity].
    generalize (report_lines env (at_run_end env s)) as lines.
    induction lines as [|line lines IH]; [reflexivity|].
    cbn [map forallb]. rewrite IH. unfold run_call at 1.
    rewrite write_effect_sink. now rewrite orb_true_r.
  - apply (forallb_weaken is_console_line).
    + intros e He. unfold run_call. now rewrite He.
    + now apply listener_calls_console.
Qed.

(** The calls of a run: each passes a test [P] as long as the calls of every
    listener do, on the reporters that [Q] holds of and the events that pass
    [R]. *)
Lemma run_calls (env : Env) (P : effect -> bool) (R : event -> bool)
    (Q : XUnit -> Prop) :
  (forall s ev, Q s -> R ev = true ->
                forallb P (listener_calls env s ev) = true
                /\ Q (final (emit env ev s))) ->
  forall evs s, Q s -> forallb R evs = true ->
  exists l, log (final (run env evs s)) = (log s ++ l)%list
            /\ forallb P l = true /\ Q (final (run env evs s)).
Proof.
  intros Hstep. induction evs as [|ev evs IH]; intros s HQ HR.
  - exists []. cbn. now rewrite List.app_nil_r.
  - cbn [forallb] in HR. apply andb_true_iff in HR as [Hev HR].
    destruct (Hstep s ev HQ Hev) as [HP HQ'].
    pose proof (emit_calls env ev s) as Hlog.
    rewrite run_cons.
    destruct (emit env ev s) as [[] s'|e s']; cbn [final] in *.
    + destruct (IH s' HQ' HR) as (l & Hl & HPl & HQl).
      exists (listener_calls env s ev ++ l)%list.
      rewrite Hl, Hlog, <- List.app_assoc, List.forallb_app, HP, HPl.
      now repeat split.
    + exists (listener_calls env s ev). now repeat split.
Qed.

Lemma forallb_true {A} (l : list A) : forallb (fun _ => true) l = true.
Proof. induction l as [|x l IH]; [reflexivity | exact IH]. Qed.

(** Before the end of the run, and after the run-end listener has run, the
    reporter only prints console lines. *)
Lemma run_console_before_end (env : Env) (evs : list event) (s : XUnit) :
  forallb not_run_end evs = true ->
  exists l, log (final (run env evs s)) = (log s ++ l)%list
            /\ forallb is_console_line l = true.
Proof.
  intros Hne.
  destruct (run_calls env is_console_line not_run_end (fun _ => True))
    with (evs := evs) (s := s) as (l & Hl & HP & _); try easy.
  - intros s0 ev _ Hev. split; [|exact I].
    apply listener_calls_console. unfold not_run_end in Hev.
    apply negb_true_iff in Hev. now rewrite Hev.
  - now exists l.
Qed.

Lemma run_console_after_end (env : Env) (evs : list event) (s : XUnit) :
  once_run_end s = false ->
  exists l, log (final (run env evs s)) = (log s ++ l)%list
            /\ forallb is_console_line l = true.
Proof.
  intros Harmed.
  destruct (run_calls env is_console_line (fun _ => true)
                      (fun s => once_run_end s = false))
    with (evs := evs) (s := s) as (l & Hl & HP & _).
  - intros s0 ev H0 _. split; [|now apply emit_disarmed].
    apply listener_calls_console. rewrite H0. apply andb_false_r.
  - exact Harmed.
  - apply forallb_true.
  - now exists l.
Qed.

Lemma run_sink_calls (env : Env) (evs : list event) (s : XUnit) :
  exists l, log (final (run env evs s)) = (log s ++ l)%list
            /\ forallb (run_call env (fileStream s)) l = true
            /\ fileStream (final (run env evs s)) = fileStream s.
Proof.
  destruct (run_calls env (run_call env (fileStream s)) (fun _ => true)
                      (fun s0 => fileStream s0 = fileStream s))
    with (evs := evs) (s := s) as (l & Hl & HP & HQ).
  - intros s0 ev H0 _. split; [|now rewrite emit_fileStream].
    rewrite <- H0. apply listener_calls_run_call.
  - reflexivity.
  - apply forallb_true.
  - now exists l.
Qed.

Lemma console_lines_silent (l : list effect) :
  forallb is_console_line l = true ->
  Str.flat (map written_chunk l) = "" /\ file_chunks l = []
  /\ filter is_epilogue l = [] /\ filter is_fs_call l = [].
Proof.
  induction l as [|e l IH]; [now repeat split|].
  cbn [forallb]. intros H. apply andb_true_iff in H as [He Hl].
  destruct (IH Hl) as (H1 & H2 & H3 & H4).
  destruct e as [[fmt|] [|a args]| | | | | | |]; try discriminate He;
    cbn; now rewrite ?H1, ?H2, ?H3, ?H4.
Qed.

(** X4: before the run-end event the reporter only prints console lines,
    whatever the events are and whether a listener throws or not: nothing of
    the report is written, the file stream gets no chunk, and no epilogue is
    printed. *)
Theorem nothing_written_before_run_end (env : Env) (pre : list event)
    (s : XUnit) :
  forallb not_run_end pre = true ->
  let s' := final (run env pre s) in
  report s' = report s
  /\ file_chunks (log s') = file_chunks (log s)
  /\ filter is_epilogue (log s') = filter is_epilogue (log s)
  /\ exists l, log s' = (log s ++ l)%list /\ forallb is_console_line l = true.
Proof.
  intros Hne s'.
  destruct (run_console_before_end env pre s Hne) as (l & Hl & Hc).
  fold s' in Hl. destruct (console_lines_silent l Hc) as (H1 & H2 & H3 & _).
  repeat split.
  - rewrite (report_app s s' l Hl), H1. apply StrFacts.app_nil_r.
  - unfold file_chunks in *. now rewrite Hl, List.flat_map_app, H2, List.app_nil_r.
  - now rewrite Hl, List.filter_app, H3, List.app_nil_r.
  - now exists l.
Qed.

Lemma nothing_written_before_run_end_witness :
  let s' := final (run sample_env [EVENT_TEST_FAIL t2; EVENT_SUITE_END;
                                   EVENT_SUITE_END; EVENT_TEST_PASS t1]
                       (constructed sample_env None)) in
  report s' = report (constructed sample_env None)
  /\ file_chunks (log s') = file_chunks (log (constructed sample_env None))
  /\ filter is_epilogue (log s')
     = filter is_epilogue (log (constructed sample_env None))
  /\ exists l, log s' = (log (constructed sample_env None) ++ l)%list
               /\ forallb is_console_line l = true.
Proof.
  exact (nothing_written_before_run_end sample_env
           [EVENT_TEST_FAIL t2; EVENT_SUITE_END; EVENT_SUITE_END;
            EVENT_TEST_PASS t1]
           (constructed sample_env None) eq_refl).
Defined.

(** ** The failure counter *)

Lemma count_cons (p : event -> bool) (ev : event) (evs : list event) :
  count p (ev :: evs) = ((if p ev then 1 else 0) + count p evs)%Z.
Proof.
  unfold count. cbn [filter]. destruct (p ev); cbn [List.length]; lia.
Qed.

Lemma failure_lines_app (a b : list effect) :
  failure_lines (a ++ b) = (failure_lines a ++ failure_lines b)%list.
Proof. apply List.flat_map_app. Qed.

Lemma failure_lines_writes (env : Env) (f : option string) (lines : list string) :
  failure_lines (map (write_effect env f) lines) = [].
Proof.
  induction lines as [|line lines IH]; [reflexivity|].
  cbn [map]. change (failure_lines (?e :: ?l))
    with (failure_line e ++ failure_lines l)%list.
  unfold failure_lines in *. cbn [flat_map]. rewrite IH.
  unfold write_effect. destruct f; [reflexivity|].
  now destruct (process_stdout env).
Qed.

(** The failure lines a listener prints, when it does not throw. *)
Lemma listener_failure_lines (env : Env) (s : XUnit) (ev : event) :
  calls_indent ev && (indents s + delta ev <? 0)%Z = false ->
  failure_lines (listener_calls env s ev)
  = match ev with
    | EVENT_TEST_FAIL t => [(of_Z (n s + 1), title t)]
    | _ => []
    end.
Proof.
  intros Hok.
  destruct ev; cbn [listener_calls calls_indent delta andb] in *;
    rewrite ?printed_indent_cases, ?Hok; try reflexivity.
  - now destruct (indents s - 1 =? 1)%Z.
  - cbn [console_line]. now destruct (speed test0 =? "fast")%string.
  - destruct (once_run_end s); [|reflexivity].
    rewrite failure_lines_app, failure_lines_writes. reflexivity.
Qed.

Lemma run_failure_lines (env : Env) (evs : list event) : forall s,
  safe (indents s) evs = true ->
  failure_lines (log (final (run env evs s)))
  = (failure_lines (log s) ++ numbered (n s) (map title (failed_of evs)))%list
  /\ n (final (run env evs s)) = (n s + count is_fail evs)%Z.
Proof.
  induction evs as [|ev evs IH]; intros s Hsafe.
  - cbn. rewrite List.app_nil_r. split; [reflexivity|]. unfold count. cbn. lia.
  - cbn [safe] in Hsafe. apply andb_true_iff in Hsafe as [Hok Hsafe].
    apply negb_true_iff in Hok.
    pose proof (emit_thrown env ev s) as Ht. rewrite Hok in Ht.
    pose proof (emit_indents env ev s) as Hi.
    pose proof (emit_calls env ev s) as Hlog.
    pose proof (emit_n env ev s) as Hn.
    pose proof (listener_failure_lines env s ev Hok) as Hf.
    rewrite run_cons.
    destruct (emit env ev s) as [[] s'|e s']; [|discriminate Ht].
    cbn [final] in *. rewrite <- Hi in Hsafe.
    destruct (IH s' Hsafe) as [Hlines Hcount].
    rewrite Hlines, Hcount, Hlog, failure_lines_app, Hf, Hn, count_cons.
    destruct ev; cbn [is_fail andb failed_of flat_map map List.app numbered];
      rewrite ?List.app_nil_r, ?Z.add_0_l; try (split; [reflexivity|lia]).
    cbn [calls_indent delta andb] in Hok. rewrite Z.add_0_r in Hok.
    rewrite Hok. cbn [negb]. fold (failed_of evs).
    rewrite <- List.app_assoc. cbn [List.app]. split; [reflexivity|lia].
Qed.

(** X5: the failures are numbered from 1 in the order they arrive: in a run
    of a new reporter where no listener throws, the [k]-th fail event prints
    [k] with the title of its test, whatever other events come between, the
    run-end event included, and the counter ends at the number of the fail
    events. *)
Theorem failures_numbered (env : Env) (options : option Options) (s : XUnit)
    (evs : list event) :
  new_XUnit env options = Ok tt s ->
  safe 0 evs = true ->
  failure_lines (log (final (run env evs s)))
  = numbered 0 (map title (failed_of evs))
  /\ n (final (run env evs s)) = count is_fail evs.
Proof.
  intros Hnew Hsafe. apply new_XUnit_ok in Hnew.
  assert (Hs : indents s = 0%Z /\ n s = 0%Z /\ failure_lines (log s) = []).
  { subst s. unfold constructed. cbn.
    now destruct (truthy (resolve_outputPath env options)). }
  destruct Hs as (Hi & Hn & Hl).
  rewrite <- Hi in Hsafe.
  destruct (run_failure_lines env evs s Hsafe) as [Hlines Hcount].
  rewrite Hlines, Hcount, Hl, Hn. split; [reflexivity|lia].
Qed.

Lemma failures_numbered_witness :
  failure_lines (log (final (run sample_env two_ends (constructed sample_env None))))
  = [(of_Z 1, "t2"); (of_Z 2, title t3)]
  /\ n (final (run sample_env two_ends (constructed sample_env None))) = 2%Z.
Proof.
  exact (failures_numbered sample_env None (constructed sample_env None) two_ends
           eq_refl eq_refl).
Defined.

(** ** The indentation of the console lines *)

Lemma depth_app (a b : list event) (d : Z) :
  depth d (a ++ b) = depth (depth d a) b.
Proof. unfold depth. apply List.fold_left_app. Qed.

Lemma repeat_string_length (k : nat) :
  String.length (repeat_string k "  ") = (2 * k)%nat.
Proof. induction k as [|k IH]; [reflexivity|]. cbn in *. rewrite IH. lia. Qed.

(** X6: the console lines are indented by the nesting of the suites: in a
    run of a new reporter where no listener throws, when [d] suites are
    open, the one a suite-begin event opens included, the listener of a test
    or of a suite prints its line with what [indent()] returns, two spaces
    for each open suite but the first, and the line of a failure carries the
    number of the fail events up to it. *)
Theorem console_indentation (env : Env) (options : option Options) (s : XUnit)
    (pre : list event) (ev : event) :
  new_XUnit env options = Ok tt s ->
  safe 0 (pre ++ [ev]) = true ->
  calls_indent ev = true ->
  let s1 := final (run env pre s) in
  let i := repeat_string (Z.to_nat (open_suites (pre ++ [ev])) - 1) "  " in
  log (final (emit env ev s1))
  = (log s1 ++ console_line env i (count is_fail pre) ev)%list
  /\ String.length i = (2 * (Z.to_nat (open_suites (pre ++ [ev])) - 1))%nat.
Proof.
  intros Hnew Hsafe Hev s1 i. apply new_XUnit_ok in Hnew.
  assert (Hs : indents s = 0%Z /\ n s = 0%Z) by now subst s.
  destruct Hs as [Hi Hn].
  rewrite safe_app in Hsafe. apply andb_true_iff in Hsafe as [Hpre Hlast].
  rewrite <- Hi in Hpre.
  pose proof (run_indents env pre s Hpre) as Hd. fold s1 in Hd. rewrite Hi in Hd.
  destruct (run_failure_lines env pre s Hpre) as [_ Hcount]. fold s1 in Hcount.
  cbn [safe] in Hlast. rewrite Hev, andb_true_r in Hlast. cbn [andb] in Hlast.
  apply negb_true_iff in Hlast.
  assert (Hopen : open_suites (pre ++ [ev]) = (depth 0 pre + delta ev)%Z).
  { unfold open_suites. pose proof (depth_counts (pre ++ [ev]) 0) as H.
    rewrite depth_app in H. cbn [depth fold_left] in H. lia. }
  split; [|apply repeat_string_length].
  rewrite emit_calls. f_equal. subst i. rewrite Hopen, <- Hd.
  rewrite Hn in Hcount. rewrite Z.add_0_l in Hcount. rewrite <- Hcount.
  rewrite Hd in *.
  destruct ev; try discriminate Hev; cbn [listener_calls];
    rewrite printed_indent_cases, Hd, Hlast; reflexivity.
Qed.

Lemma console_indentation_witness :
  let s1 := final (run sample_env (firstn 5 nested) (constructed sample_env None)) in
  log (final (emit sample_env (EVENT_TEST_PASS t1) s1))
  = (log s1 ++ [ConsoleLog (Some "      ok %s") [VStr "t1"]])%list
  /\ String.length "    " = 4%nat.
Proof.
  exact (console_indentation sample_env None (constructed sample_env None)
           (firstn 5 nested) (EVENT_TEST_PASS t1) eq_refl eq_refl eq_refl).
Defined.

(** ** The sink of the report *)

Lemma sink_chunks (env : Env) (p : string) (l : list effect) :
  forallb (run_call env (Some p)) l = true ->
  Str.flat (map written_chunk l) = Str.flat (file_chunks l)
  /\ forallb (fun e => negb (is_file_end e)) l = true.
Proof.
  induction l as [|e l IH]; [now split|].
  cbn [forallb]. intros H. apply andb_true_iff in H as [He Hl].
  destruct (IH Hl) as [H1 H2]. unfold file_chunks in *.
  destruct e as [[fmt|] [|a args]| | | | | | |]; try discriminate He;
    cbn; now rewrite ?H1, ?H2.
Qed.

Lemma no_file_calls (env : Env) (l : list effect) :
  forallb (run_call env None) l = true ->
  forallb (fun e => negb (is_fs_call e)) l = true.
Proof.
  apply forallb_weaken. intros e He.
  destruct e as [[fmt|] [|a args]| | | | | | |]; try discriminate He; reflexivity.
Qed.

(** X7: with no output path, from the environment or from the options, the
    constructor does not throw, whether the file system is there or not, and
    the reporter never touches the file system: through any run and [done],
    it makes no call of [mkdirSync], of [createWriteStream] or of a file
    stream; the lines of the report go to [process.stdout] when it is there
    and to the console otherwise, and [done] calls [fn] at once. *)
Theorem no_path_no_file (env : Env) (options : option Options)
    (evs : list event) (failures : Z) :
  truthy (resolve_outputPath env options) = false ->
  thrown (new_XUnit env options) = None
  /\ let s := final (new_XUnit env options) in
     let s' := final (done failures (final (run env evs s))) in
     forallb (fun e => negb (is_fs_call e)) (log s') = true
     /\ exists l, log s' = (l ++ [Completion failures])%list
                  /\ forallb (run_call env None) l = true.
Proof.
  intros Hpath. rewrite new_XUnit_cases, Hpath. split; [reflexivity|].
  cbn [final]. cbn zeta.
  assert (Hs : fileStream (constructed env options) = None
               /\ log (constructed env options) = []).
  { unfold constructed. cbn. now rewrite Hpath. }
  destruct Hs as [Hf Hl].
  destruct (run_sink_calls env evs (constructed env options)) as (l & Hlog & Hc & Hf').
  rewrite Hf in *. rewrite Hl in Hlog. cbn [List.app] in Hlog.
  rewrite done_eq, Hf'. cbn [final with_log log]. rewrite Hlog.
  split.
  - rewrite List.forallb_app, (no_file_calls env l Hc). reflexivity.
  - now exists l.
Qed.

Lemma no_path_no_file_witness :
  thrown (new_XUnit console_env None) = None
  /\ let s := final (new_XUnit console_env None) in
     let s' := final (done 1 (final (run console_env two_ends s))) in
     forallb (fun e => negb (is_fs_call e)) (log s') = true
     /\ exists l, log s' = (l ++ [Completion 1])%list
                  /\ forallb (run_call console_env None) l = true.
Proof. exact (no_path_no_file console_env None two_ends 1 eq_refl). Defined.

(** X8: with an output path the constructor makes the directory of the
    path, then opens the stream on the path, once each; after that, through
    any run, the reporter prints console lines and the epilogue and writes
    to the stream, and nothing else: no line of the report goes to
    [process.stdout], and the report is what the stream has been given. *)
Theorem path_all_to_file (env : Env) (options : option Options) (s : XUnit)
    (evs : list event) :
  new_XUnit env options = Ok tt s ->
  truthy (resolve_outputPath env options) = true ->
  let p := content_text (resolve_outputPath env options) in
  let s' := final (run env evs s) in
  fileStream s' = Some p
  /\ report s' = Str.flat (file_chunks (log s'))
  /\ exists l, log s' = (MkdirSync (dirname env p) :: CreateWriteStream p :: l)%list
               /\ forallb (run_call env (Some p)) l = true.
Proof.
  intros Hnew Hpath p s'. apply new_XUnit_ok in Hnew.
  assert (Hs : fileStream s = Some p
               /\ log s = [MkdirSync (dirname env p); CreateWriteStream p]).
  { subst s. unfold constructed. cbn. now rewrite Hpath. }
  destruct Hs as [Hf Hl].
  destruct (run_sink_calls env evs s) as (l & Hlog & Hc & Hf').
  fold s' in Hlog, Hf'. rewrite Hf in *. rewrite Hl in Hlog.
  cbn [List.app] in Hlog.
  destruct (sink_chunks env p l Hc) as [Hchunks _].
  repeat split.
  - exact Hf'.
  - unfold report. rewrite Hlog. cbn. exact Hchunks.
  - now exists l.
Qed.

Lemma path_all_to_file_witness :
  let s' := final (run file_env two_ends (constructed file_env None)) in
  fileStream s' = Some "out/report.xml"
  /\ report s' = Str.flat (file_chunks (log s'))
  /\ exists l, log s' = (MkdirSync "out" :: CreateWriteStream "out/report.xml" :: l)%list
               /\ forallb (run_call file_env (Some "out/report.xml")) l = true.
Proof.
  exact (path_all_to_file file_env None (constructed file_env None) two_ends
           eq_refl eq_refl).
Defined.

(** ** The run-end listener runs once *)

Lemma split_at_run_end (evs : list event) :
  forallb not_run_end evs = true
  \/ exists pre post,
      evs = (pre ++ EVENT_RUN_END :: post)%list
      /\ forallb not_run_end pre = true.
Proof.
  induction evs as [|ev evs IH]; [now left|].
  destruct (is_run_end ev) eqn:Hev.
  - right. exists [], evs. destruct ev; try discriminate Hev. now split.
  - destruct IH as [IH|(pre & post & Heq & Hpre)].
    + left. cbn [forallb]. unfold not_run_end at 1. now rewrite Hev.
    + right. exists (ev :: pre), post. subst evs. split; [reflexivity|].
      cbn [forallb]. unfold not_run_end at 1. now rewrite Hev.
Qed.

Lemma epilogue_writes (env : Env) (f : option string) (lines : list string) :
  filter is_epilogue (map (write_effect env f) lines) = [].
Proof.
  induction lines as [|line lines IH]; [reflexivity|].
  cbn [map filter]. rewrite IH. unfold write_effect.
  destruct f; [reflexivity|]. now destruct (process_stdout env).
Qed.

(** X9: the run-end listener runs once.  Whatever events a new reporter
    gets, and whether a listener throws or not, either nothing of the report
    is written and no epilogue is printed, or the events hold a run-end
    event and the report is the one document of the tests that came before
    the first of them, with the epilogue printed once: later tests and later
    run-end events add nothing. *)
Theorem report_written_once (env : Env) (options : option Options) (s : XUnit)
    (evs : list event) :
  new_XUnit env options = Ok tt s ->
  let s' := final (run env evs s) in
  (report s' = "" /\ filter is_epilogue (log s') = [])
  \/ exists pre post,
      evs = (pre ++ EVENT_RUN_END :: post)%list
      /\ forallb not_run_end pre = true
      /\ report s'
         = document_text env (suiteName s) (final_summary env pre) (tests_of pre)
      /\ filter is_epilogue (log s') = [Epilogue].
Proof.
  intros Hnew s'. pose proof (new_XUnit_ok _ _ _ Hnew) as Hs.
  assert (H0 : indents s = 0%Z /\ once_run_end s = true /\ report s = ""
               /\ filter is_epilogue (log s) = []).
  { subst s. repeat split; [apply constructed_report|].
    unfold constructed. cbn. now destruct (truthy _). }
  destruct H0 as (Hi & Harmed & Hrep & Hepi).
  assert (Hquiet : forall pre, forallb not_run_end pre = true ->
            report (final (run env pre s)) = ""
            /\ filter is_epilogue (log (final (run env pre s))) = []).
  { intros pre Hne.
    destruct (run_console_before_end env pre s Hne) as (l & Hl & Hc).
    destruct (console_lines_silent l Hc) as (H1 & _ & H3 & _). split.
    - rewrite (report_app s _ l Hl), H1, Hrep. reflexivity.
    - rewrite Hl, List.filter_app, H3, Hepi. reflexivity. }
  destruct (split_at_run_end evs) as [Hne|(pre & post & Heq & Hne)].
  - left. now apply Hquiet.
  - destruct (Hquiet pre Hne) as [Hq1 Hq2].
    destruct (safe 0 pre) eqn:Hsafe.
    + right. exists pre, post. split; [exact Heq|]. split; [exact Hne|].
      destruct (report_after_run env options s pre Hnew Hne Hsafe) as [_ Hdoc].
      subst s'. rewrite Heq. rewrite <- Hi in Hsafe.
      destruct (run_fields env pre s Hne Hsafe) as (_ & _ & _ & _ & Ha' & _).
      cbn zeta in Ha'.
      rewrite run_app, (run_ok env pre s Hsafe) in Hdoc |- *.
      set (s1 := final (run env pre s)) in *.
      rewrite run_cons, (emit_run_end env s1) in Hdoc |- * by congruence.
      cbn [run ret final] in Hdoc.
      match goal with
      | |- context [run env post ?s2] =>
          destruct (run_console_after_end env post s2 eq_refl) as (l & Hl & Hc);
          set (r2 := s2) in *
      end.
      destruct (console_lines_silent l Hc) as (H1 & _ & H3 & _). split.
      * rewrite (report_app r2 _ l Hl), H1, StrFacts.app_nil_r. exact Hdoc.
      * rewrite Hl, List.filter_app, H3, List.app_nil_r.
        subst r2. unfold with_log. cbn [log].
        rewrite !List.filter_app, Hq2, epilogue_writes. reflexivity.
    + left. subst s'. rewrite Heq, run_app.
      pose proof (run_thrown env pre s) as Ht. rewrite Hi, Hsafe in Ht.
      destruct (run env pre s) as [[] s1|e s1]; [discriminate Ht|].
      cbn [final] in *. now split.
Qed.

Lemma report_written_once_witness :
  let s' := final (run sample_env two_ends (constructed sample_env None)) in
  (report s' = "" /\ filter is_epilogue (log s') = [])
  \/ exists pre post,
      two_ends = (pre ++ EVENT_RUN_END :: post)%list
      /\ forallb not_run_end pre = true
      /\ report s'
         = document_text sample_env "Mocha Tests" (final_summary sample_env pre)
                         (tests_of pre)
      /\ filter is_epilogue (log s') = [Epilogue].
Proof.
  exact (report_written_once sample_env None (constructed sample_env None)
           two_ends eq_refl).
Defined.

(** ** The constructor *)

(** X10: with an output path and [fs.createWriteStream] there, the
    constructor makes the directory of the path before it opens the stream;
    when [mkdirSync] throws, the constructor throws its error, and no stream
    is opened. *)
Theorem file_opening (env : Env) (options : option Options) :
  truthy (resolve_outputPath env options) = true ->
  createWriteStream env = true ->
  let p := content_text (resolve_outputPath env options) in
  let r := new_XUnit env options in
  match mkdirSync env (dirname env p) with
  | Some msg =>
      thrown r = Some (FsError msg)
      /\ log (final r) = [MkdirSync (dirname env p)]
      /\ fileStream (final r) = None
  | None =>
      thrown r = None
      /\ log (final r) = [MkdirSync (dirname env p); CreateWriteStream p]
      /\ fileStream (final r) = Some p
  end.
Proof.
  intros Hpath Hfs. cbn zeta. rewrite new_XUnit_cases, Hpath, Hfs.
  destruct (mkdirSync env _); cbn; [now repeat split|].
  rewrite Hpath. now repeat split.
Qed.

Lemma file_opening_witness :
  thrown (new_XUnit failing_mkdir_env None)
  = Some (FsError "EACCES: permission denied")
  /\ log (final (new_XUnit failing_mkdir_env None)) = [MkdirSync "out"]
  /\ fileStream (final (new_XUnit failing_mkdir_env None)) = None.
Proof. exact (file_opening failing_mkdir_env None eq_refl eq_refl). Defined.

Lemma document_name (env : Env) (name : string) (st : Stats) (ts : list Test) :
  Xml.attribute "name" (document_node env name st ts) = Some name
  /\ Xml.attribute "timestamp" (document_node env name st ts)
     = Some (now_toUTCString env)
  /\ Xml.attribute_names (document_node env name st ts)
     = ["name"; "tests"; "failures"; "errors"; "skipped"; "timestamp"; "time"].
Proof. now repeat split. Qed.



(** X12: after a run where no listener throws, the root element of the
    report carries the attributes [name], [tests], [failures], [errors],
    [skipped], [timestamp] and [time], in this order, and its [timestamp]
    reads back as what [new Date().toUTCString()] gave when the run
    ended. *)
Theorem root_attributes (env : Env) (options : option Options) (s : XUnit)
    (pre : list event) :
  new_XUnit env options = Ok tt s ->
  forallb not_run_end pre = true ->
  safe 0 pre = true ->
  exists root,
    Xml.parse (report (final (run env (pre ++ [EVENT_RUN_END]) s))) = Some root
    /\ Xml.attribute_names root
       = ["name"; "tests"; "failures"; "errors"; "skipped"; "timestamp"; "time"]
    /\ Xml.attribute "timestamp" root = Some (now_toUTCString env).
Proof.
  intros Hnew Hne Hsafe.
  destruct (report_after_run env options s pre Hnew Hne Hsafe) as [_ Hdoc].
  exists (document_node env (suiteName s) (final_summary env pre) (tests_of pre)).
  rewrite Hdoc, parse_document. split; [reflexivity|].
  split; apply document_name.
Qed.

Lemma root_attributes_witness :
  exists root,
    Xml.parse (report (final (run sample_env (nested ++ [EVENT_RUN_END])
                                  (constructed sample_env None)))) = Some root
    /\ Xml.attribute_names root
       = ["name"; "tests"; "failures"; "errors"; "skipped"; "timestamp"; "time"]
    /\ Xml.attribute "timestamp" root = Some "Thu, 01 Jan 1970 00:00:00 GMT".
Proof.
  exact (root_attributes sample_env None (constructed sample_env None) nested
           eq_refl eq_refl eq_refl).
Defined.

(** ** What the report depends on *)

Lemma tests_of_filter (evs : list event) :
  tests_of (filter is_test_event evs) = tests_of evs.
Proof.
  unfold tests_of. induction evs as [|ev evs IH]; [reflexivity|].
  destruct ev; cbn [filter is_test_event flat_map tests_of_event List.app];
    now rewrite ?IH.
Qed.

Lemma summary_filter (env : Env) (evs : list event) : forall st,
  forallb not_run_end evs = true ->
  summary env (filter is_test_event evs) st = summary env evs st.
Proof.
  unfold summary.
  induction evs as [|ev evs IH]; intros st Hne; [reflexivity|].
  cbn [forallb] in Hne. apply andb_true_iff in Hne as [Hev Hne].
  destruct ev; try discriminate Hev;
    cbn [filter is_test_event fold_left collect]; now apply IH.
Qed.

(** X13: the report is flat.  It depends on the pass, fail and pending
    events alone, in their order: two runs where no listener throws, with
    the same test events, give the same report, however their tests are
    nested in suites. *)
Theorem report_depends_on_tests_only (env : Env) (options : option Options)
    (s : XUnit) (pre pre' : list event) :
  new_XUnit env options = Ok tt s ->
  forallb not_run_end pre = true -> safe 0 pre = true ->
  forallb not_run_end pre' = true -> safe 0 pre' = true ->
  filter is_test_event pre = filter is_test_event pre' ->
  report (final (run env (pre ++ [EVENT_RUN_END]) s))
  = report (final (run env (pre' ++ [EVENT_RUN_END]) s)).
Proof.
  intros Hnew Hne Hsafe Hne' Hsafe' Hsame.
  destruct (report_after_run env options s pre Hnew Hne Hsafe) as [_ Hdoc].
  destruct (report_after_run env options s pre' Hnew Hne' Hsafe') as [_ Hdoc'].
  rewrite Hdoc, Hdoc'. unfold final_summary.
  rewrite <- (tests_of_filter pre), <- (tests_of_filter pre').
  rewrite <- (summary_filter env pre _ Hne), <- (summary_filter env pre' _ Hne').
  now rewrite Hsame.
Qed.

Lemma report_depends_on_tests_only_witness :
  report (final (run sample_env (nested ++ [EVENT_RUN_END])
                     (constructed sample_env None)))
  = report (final (run sample_env
                       ([EVENT_TEST_FAIL t2; EVENT_TEST_PASS t1; EVENT_TEST_FAIL t3]
                          ++ [EVENT_RUN_END])
                       (constructed sample_env None))).
Proof.
  exact (report_depends_on_tests_only sample_env None (constructed sample_env None)
           nested [EVENT_TEST_FAIL t2; EVENT_TEST_PASS t1; EVENT_TEST_FAIL t3]
           eq_refl eq_refl eq_refl eq_refl eq_refl eq_refl).
Defined.

(** ** The file when [fn] is called *)

Lemma file_chunks_app (a b : list effect) :
  file_chunks (a ++ b) = (file_chunks a ++ file_chunks b)%list.
Proof. apply List.flat_map_app. Qed.

(** X14: with an output path, [fn] is called with the whole report in the
    file.  After a run where no listener throws, its end and [done], under
    any schedule of the calls of the reporter and the turns of the stream,
    [fn] has not been called or it has been called once, with the failures,
    on a file that holds the document of the run; and it is called once the
    stream has had more turns than it was given chunks. *)
Theorem file_complete_at_completion (env : Env) (options : option Options)
    (s : XUnit) (pre : list event) (failures : Z) (sched : list tick) :
  new_XUnit env options = Ok tt s ->
  truthy (resolve_outputPath env options) = true ->
  forallb not_run_end pre = true ->
  safe 0 pre = true ->
  let s' := final (done failures (final (run env (pre ++ [EVENT_RUN_END]) s))) in
  let doc := document_text env (suiteName s) (final_summary env pre) (tests_of pre) in
  filter is_file_call (calls sched) = filter is_file_call (log s') ->
  Str.flat (file_chunks (log s')) = doc
  /\ Xml.parse doc
     = Some (document_node env (suiteName s) (final_summary env pre) (tests_of pre))
  /\ (let w := play sched opened in
      completions w = []
      \/ (completions w = [(failures, file_chunks (log s'))]
          /\ file (stream w) = file_chunks (log s')
          /\ queued (stream w) = []))
  /\ forall k, (List.length (file_chunks (log s')) < k)%nat ->
       completions (play (sched ++ repeat Turn k) opened)
       = [(failures, file_chunks (log s'))].
Proof.
  intros Hnew Hpath Hne Hsafe s' doc Hsched.
  destruct (report_after_run env options s pre Hnew Hne Hsafe) as [_ Hdoc].
  apply new_XUnit_ok in Hnew.
  set (p := content_text (resolve_outputPath env options)).
  assert (Hs : fileStream s = Some p
               /\ log s = [MkdirSync (dirname env p); CreateWriteStream p]).
  { subst s. unfold constructed. cbn. now rewrite Hpath. }
  destruct Hs as [Hf Hl].
  destruct (run_sink_calls env (pre ++ [EVENT_RUN_END]) s) as (l & Hlog & Hc & Hf').
  set (s2 := final (run env (pre ++ [EVENT_RUN_END]) s)) in *.
  rewrite Hf in *. rewrite Hl in Hlog. cbn [List.app] in Hlog.
  destruct (sink_chunks env p l Hc) as [Hchunks Hnoend].
  assert (Hlog' : log s' = (log s2 ++ [FileEnd (call_fn failures)])%list).
  { subst s'. rewrite done_eq, Hf'. reflexivity. }
  assert (Hfile : file_chunks (log s') = file_chunks l).
  { rewrite Hlog', file_chunks_app, Hlog. cbn. apply List.app_nil_r. }
  assert (Hrep : report s2 = Str.flat (file_chunks l)).
  { unfold report. rewrite Hlog. cbn. exact Hchunks. }
  assert (Hcalls : filter is_file_call (log s')
                   = (map FileWrite (file_chunks l)
                        ++ [FileEnd (call_fn failures)])%list).
  { rewrite Hlog', List.filter_app, Hlog. cbn [filter is_file_call].
    now rewrite (file_calls_are_writes l Hnoend). }
  rewrite Hcalls in Hsched.
  pose proof (writes_then_end_inv failures sched _ [] opened Hsched opened_inv)
    as Hinv.
  cbn [List.app] in Hinv. rewrite Hfile.
  split; [now rewrite <- Hrep|].
  split; [apply parse_document|].
  split.
  - cbn zeta.
    destruct Hinv as (Hw & _ & [[Hc0 _]|(f & He & Hq & _ & Hc1)]); [now left|].
    right. inversion He; subst f. rewrite Hq, List.app_nil_r in Hw.
    now repeat split.
  - intros k Hk. rewrite play_app. apply drain; [exact Hinv|].
    destruct Hinv as (Hw & _).
    apply (Nat.le_lt_trans _ (List.length (file_chunks l))); [|exact Hk].
    rewrite <- Hw, List.length_app. lia.
Qed.

Lemma file_complete_at_completion_witness :
  let s' := final (done 0 three_writes) in
  let doc := document_text file_env "Mocha Tests"
               (final_summary file_env [EVENT_TEST_PASS t1]) [t1] in
  Str.flat (file_chunks (log s')) = doc
  /\ Xml.parse doc
     = Some (document_node file_env "Mocha Tests"
               (final_summary file_env [EVENT_TEST_PASS t1]) [t1])
  /\ (let w := play three_writes_sched opened in
      completions w = []
      \/ (completions w = [(0%Z, file_chunks (log s'))]
          /\ file (stream w) = file_chunks (log s')
          /\ queued (stream w) = []))
  /\ forall k, (List.length (file_chunks (log s')) < k)%nat ->
       completions (play (three_writes_sched ++ repeat Turn k) opened)
       = [(0%Z, file_chunks (log s'))].
Proof.
  exact (file_complete_at_completion file_env None (constructed file_env None)
           [EVENT_TEST_PASS t1] 0 three_writes_sched
           eq_refl eq_refl eq_refl eq_refl eq_refl).
Defined.

(** ** The same report on every sink *)

Lemma summary_elapsed (env env' : Env) (evs : list event) (st : Stats) :
  elapsed env = elapsed env' -> summary env evs st = summary env' evs st.
Proof. intros H. unfold summary. now rewrite H. Qed.

(** X15: the report is the same text on every sink.  Two reporters with the
    same suite name, one writing to a file and the other to
    [process.stdout] or to the console, write the same document for the
    same events of a run where no listener throws, when the clock and the
    duration of the run are the same; the colours and the symbols of the
    console leave no trace in it. *)
Theorem report_same_on_every_sink (env env' : Env)
    (options options' : option Options) (s s' : XUnit) (pre : list event) :
  new_XUnit env options = Ok tt s ->
  new_XUnit env' options' = Ok tt s' ->
  resolve_suiteName options = resolve_suiteName options' ->
  now_toUTCString env = now_toUTCString env' ->
  elapsed env = elapsed env' ->
  forallb not_run_end pre = true ->
  safe 0 pre = true ->
  report (final (run env (pre ++ [EVENT_RUN_END]) s))
  = report (final (run env' (pre ++ [EVENT_RUN_END]) s')).
Proof.
  intros Hnew Hnew' Hname Hnow Helapsed Hne Hsafe.
  destruct (report_after_run env options s pre Hnew Hne Hsafe) as [_ Hdoc].
  destruct (report_after_run env' options' s' pre Hnew' Hne Hsafe) as [_ Hdoc'].
  rewrite Hdoc, Hdoc'.
  apply new_XUnit_ok in Hnew, Hnew'. subst s s'.
  unfold document_text, summary_attrs, final_summary, constructed.
  cbn [suiteName].
  now rewrite Hname, Hnow, Helapsed, (summary_elapsed env env' pre _ Helapsed).
Qed.

Lemma report_same_on_every_sink_witness :
  report (final (run file_env (nested ++ [EVENT_RUN_END]) (constructed file_env None)))
  = report (final (run console_env (nested ++ [EVENT_RUN_END])
                       (constructed console_env None))).
Proof.
  exact (report_same_on_every_sink file_env console_env None None
           (constructed file_env None) (constructed console_env None) nested
           eq_refl eq_refl eq_refl eq_refl eq_refl eq_refl eq_refl).
Defined.

(** * The balance of the suite events and [indent()] *)

(** A run is not safe exactly when some listener that calls [indent()]
    finds the counter negative. *)
Lemma unsafe_iff (evs : list event) : forall d,
  safe d evs = false
  <-> exists pre e rest,
      evs = (pre ++ e :: rest)%list /\ calls_indent e = true
      /\ (depth d pre + delta e < 0)%Z.
Proof.
  induction evs as [|ev evs IH]; intros d.
  - split; [discriminate|]. intros (pre & e & rest & H & _).
    destruct pre; discriminate H.
  - split.
    + cbn [safe]. intros H. apply andb_false_iff in H as [H|H].
      * apply negb_false_iff, andb_true_iff in H as [Hc Hd].
        exists [], ev, evs. cbn. apply Z.ltb_lt in Hd. now repeat split.
      * apply IH in H as (pre & e & rest & Heq & Hc & Hd).
        exists (ev :: pre), e, rest. subst evs. now repeat split.
    + intros (pre & e & rest & Heq & Hc & Hd). rewrite Heq, safe_app.
      cbn [safe]. rewrite Hc.
      assert (Hlt : (depth d pre + delta e <? 0)%Z = true) by now apply Z.ltb_lt.
      rewrite Hlt. cbn. apply andb_false_r.
Qed.

(** C10: the claim as stated fails: after a suite-end event the suite-end
    events outnumber the suite-begin events, and yet no listener of the
    events that follow throws, as the suite-begin listener counts its event
    before it computes the indent. *)
Lemma outnumbering_counterexample :
  (begins (firstn 1 late_begin) < ends (firstn 1 late_begin))%nat
  /\ existsb calls_indent (skipn 1 late_begin) = true
  /\ thrown (run sample_env late_begin (constructed sample_env None)) = None
  /\ ~ outnumbering_as_stated.
Proof.
  split; [cbn; lia|]. split; [reflexivity|]. split; [reflexivity|].
  intros H.
  apply (H sample_env None (constructed sample_env None)
           (firstn 1 late_begin) (skipn 1 late_begin));
    [reflexivity | cbn; lia | reflexivity | reflexivity].
Qed.

(** C10: from a new reporter, when at every prefix of the events the
    suite-end events do not outnumber the suite-begin events, no listener
    throws and the counter is never negative.  A run throws exactly when a
    pending, pass, fail or suite-begin listener computes the indent while
    the suite-end events outnumber the suite-begin events, the event of the
    suite-begin listener counted; what it throws is a RangeError.  That the
    suite-end events outnumber the suite-begin events is not enough: a
    suite-begin event can make up for it before any indent is computed. *)
Theorem indent_safety (env : Env) (options : option Options) (s : XUnit)
    (evs : list event) :
  new_XUnit env options = Ok tt s ->
  (balanced evs ->
   thrown (run env evs s) = None
   /\ forall k, (0 <= indents (final (run env (firstn k evs) s)))%Z)
  /\ (thrown (run env evs s) = Some (RangeError "Invalid array length")
      <-> exists pre e rest,
          evs = (pre ++ e :: rest)%list /\ calls_indent e = true
          /\ (Z.of_nat (begins pre) + delta e < Z.of_nat (ends pre))%Z)
  /\ (thrown (run env evs s) = None
      <-> forall pre e rest,
          evs = (pre ++ e :: rest)%list -> calls_indent e = true ->
          (Z.of_nat (ends pre) <= Z.of_nat (begins pre) + delta e)%Z).
Proof.
  intros Hnew. apply new_XUnit_ok in Hnew.
  assert (Hi : indents s = 0%Z) by now subst s.
  assert (Hsafe : forall l, balanced l -> safe (indents s) l = true).
  { intros l Hl. rewrite Hi. apply safe_nonneg.
    intros k. now apply balanced_depth. }
  split; [|split].
  - intros Hbal. split.
    + now rewrite run_thrown, (Hsafe evs Hbal).
    + intros k. pose proof (balanced_firstn evs k Hbal) as Hk.
      rewrite (run_indents env _ s (Hsafe _ Hk)), Hi.
      rewrite <- (List.firstn_all (firstn k evs)). now apply balanced_depth.
  - rewrite run_thrown, Hi. split.
    + intros H. destruct (safe 0 evs) eqn:Hs; [discriminate H|].
      apply unsafe_iff in Hs as (pre & e & rest & Heq & Hc & Hd).
      exists pre, e, rest. rewrite depth_counts in Hd. repeat split; try easy. lia.
    + intros (pre & e & rest & Heq & Hc & Hd).
      assert (Hs : safe 0 evs = false).
      { apply unsafe_iff. exists pre, e, rest. rewrite depth_counts.
        repeat split; try easy. lia. }
      now rewrite Hs.
  - rewrite run_thrown, Hi. split.
    + intros H pre e rest Heq Hc.
      destruct (safe 0 evs) eqn:Hs; [|discriminate H].
      destruct (Z_lt_le_dec (Z.of_nat (begins pre) + delta e) (Z.of_nat (ends pre)))
        as [Hlt|Hle]; [|exact Hle].
      assert (Hu : safe 0 evs = false).
      { apply unsafe_iff. exists pre, e, rest. rewrite depth_counts.
        repeat split; try easy. lia. }
      congruence.
    + intros H. destruct (safe 0 evs) eqn:Hs; [reflexivity|].
      apply unsafe_iff in Hs as (pre & e & rest & Heq & Hc & Hd).
      specialize (H pre e rest Heq Hc). rewrite depth_counts in Hd. lia.
Qed.

Lemma indent_safety_witness :
  (balanced [EVENT_SUITE_END; EVENT_TEST_PASS t1] ->
   thrown (run sample_env [EVENT_SUITE_END; EVENT_TEST_PASS t1]
               (constructed sample_env None)) = None
   /\ forall k, (0 <= indents (final (run sample_env
                                          (firstn k [EVENT_SUITE_END; EVENT_TEST_PASS t1])
                                          (constructed sample_env None))))%Z)
  /\ (thrown (run sample_env [EVENT_SUITE_END; EVENT_TEST_PASS t1]
                  (constructed sample_env None))
      = Some (RangeError "Invalid array length")
      <-> exists pre e rest,
          [EVENT_SUITE_END; EVENT_TEST_PASS t1] = (pre ++ e :: rest)%list
          /\ calls_indent e = true
          /\ (Z.of_nat (begins pre) + delta e < Z.of_nat (ends pre))%Z)
  /\ (thrown (run sample_env [EVENT_SUITE_END; EVENT_TEST_PASS t1]
                  (constructed sample_env None)) = None
      <-> forall pre e rest,
          [EVENT_SUITE_END; EVENT_TEST_PASS t1] = (pre ++ e :: rest)%list ->
          calls_indent e = true ->
          (Z.of_nat (ends pre) <= Z.of_nat (begins pre) + delta e)%Z).
Proof.
  exact (indent_safety sample_env None (constructed sample_env None)
           [EVENT_SUITE_END; EVENT_TEST_PASS t1] eq_refl).
Defined.

(** * Durations *)

Lemma printed_fraction_table :
  forallb (fun k => (printed_fraction (Z.of_nat k) =? thousandths (Z.of_nat k))%string)
          (seq 0 1000) = true.
Proof. vm_compute. reflexivity. Qed.

Lemma printed_fraction_thousandths (r : Z) :
  (0 <= r < 1000)%Z -> printed_fraction r = thousandths r.
Proof.
  intros Hr. pose proof printed_fraction_table as H.
  rewrite List.forallb_forall in H.
  specialize (H (Z.to_nat r)). rewrite Z2Nat.id in H by lia.
  apply String.eqb_eq, H, List.in_seq. lia.
Qed.

Lemma thousandth_text (d : Z) :
  (0 <= d)%Z ->
  number_to_string (Dec d 3) = digits (d / 1000) ++ printed_fraction (d mod 1000).
Proof.
  intros Hd. unfold number_to_string, printed_fraction. cbn [strip_zeros].
  assert (H1 : ((d mod 1000) mod 10 = d mod 10)%Z)
    by (Z.div_mod_to_equations; lia).
  assert (H2 : (((d mod 1000) / 10) mod 10 = (d / 10) mod 10)%Z)
    by (Z.div_mod_to_equations; lia).
  assert (H3 : (((d mod 1000) / 100) mod 10 = (d / 10 / 10) mod 10)%Z)
    by (Z.div_mod_to_equations; lia).
  rewrite H1, H2, H3.
  destruct (d mod 10 =? 0)%Z eqn:E1; cbn [negb].
  - destruct (d / 10 mod 10 =? 0)%Z eqn:E2; cbn [negb].
    + destruct (d / 10 / 10 mod 10 =? 0)%Z eqn:E3; cbn [negb].
      * assert (Hs : (d / 10 / 10 / 10 <? 0)%Z = false)
          by (apply Z.ltb_ge; Z.div_mod_to_equations; lia).
        rewrite Hs, Z.abs_eq by (Z.div_mod_to_equations; lia).
        rewrite StrFacts.app_nil_r. cbn [append]. f_equal.
        Z.div_mod_to_equations; lia.
      * assert (Hs : (d / 10 / 10 <? 0)%Z = false)
          by (apply Z.ltb_ge; Z.div_mod_to_equations; lia).
        rewrite Hs, Z.abs_eq by (Z.div_mod_to_equations; lia).
        change (10 ^ Z.of_nat 1)%Z with 10%Z. cbn [append].
        assert (Ha : (d / 10 / 10 / 10 = d / 1000)%Z)
          by (Z.div_mod_to_equations; lia).
        assert (Hb : (d / 10 / 10 mod 10 = d mod 1000 / 100)%Z)
          by (apply Z.eqb_neq in E3; Z.div_mod_to_equations; lia).
        now rewrite Ha, Hb.
    + assert (Hs : (d / 10 <? 0)%Z = false)
        by (apply Z.ltb_ge; Z.div_mod_to_equations; lia).
      rewrite Hs, Z.abs_eq by (Z.div_mod_to_equations; lia).
      change (10 ^ Z.of_nat 2)%Z with 100%Z. cbn [append].
      assert (Ha : (d / 10 / 100 = d / 1000)%Z) by (Z.div_mod_to_equations; lia).
      assert (Hb : (d / 10 mod 100 = d mod 1000 / 10)%Z)
        by (Z.div_mod_to_equations; lia).
      now rewrite Ha, Hb.
  - assert (Hs : (d <? 0)%Z = false) by (apply Z.ltb_ge; lia).
    rewrite Hs, Z.abs_eq by lia.
    change (10 ^ Z.of_nat 3)%Z with 1000%Z. reflexivity.
Qed.

Lemma seconds_text (d : Z) :
  (0 <= d)%Z -> number_to_string (seconds (Some (of_Z d))) = decimal_text d.
Proof.
  intros Hd. rewrite seconds_string. unfold of_Z, div1000, decimal_text.
  change (0 + 3)%nat with 3%nat. rewrite (thousandth_text d Hd).
  rewrite printed_fraction_thousandths; [reflexivity|].
  Z.div_mod_to_equations; lia.
Qed.

Lemma seconds_value (d : Z) :
  match value (seconds (Some (of_Z d))) with
  | Some q => (q == inject_Z d / inject_Z 1000)%Q
  | None => False
  end.
Proof.
  unfold seconds, or_number, ToNumber, of_Z, div1000, truthy_number.
  destruct (d =? 0)%Z eqn:E; cbn [negb value].
  - apply Z.eqb_eq in E. subst d. reflexivity.
  - reflexivity.
Qed.

Lemma test_node_time (t : Test) :
  time_of (test_node t) = Some (number_to_string (seconds (duration t))).
Proof.
  unfold test_node. destruct (is_failed t); [|destruct (isPending t)]; reflexivity.
Qed.

(** What [test()] does with a test of the runner: it does not throw, it
    writes one line, and the line reads back with the seconds of the
    duration as its [time]. *)
Lemma test_time (env : Env) (t : Test) (s : XUnit) :
  thrown (test env t s) = None
  /\ exists line x,
      report (final (test env t s)) = report s ++ line ++ String "010" ""
      /\ Xml.parse line = Some x
      /\ time_of x = Some (number_to_string (seconds (duration t))).
Proof.
  unfold test. rewrite write_eq. cbn [thrown final]. split; [reflexivity|].
  exists (test_line t), (test_node t). split; [|split].
  - erewrite (report_app s) by reflexivity.
    cbn [map Str.flat]. now rewrite written_write_effect, StrFacts.app_nil_r.
  - apply parse_test_line.
  - apply test_node_time.
Qed.

(** What the run-end listener writes, and the [time] of its root. *)
Lemma root_time (env : Env) (s : XUnit) :
  thrown (on_run_end env s) = None
  /\ report (final (on_run_end env s))
     = report s ++ lines_text (report_lines env s)
  /\ exists root,
      Xml.parse (lines_text (report_lines env s)) = Some root
      /\ time_of root
         = Some (number_to_string (seconds (stats_duration (stats s)))).
Proof.
  rewrite on_run_end_eq. cbn [thrown final]. split; [reflexivity|]. split.
  - erewrite (report_app s) by reflexivity.
    rewrite List.map_app, StrFacts.flat_app, written_lines. cbn.
    now rewrite StrFacts.app_nil_r.
  - exists (document_node env (suiteName s) (stats s) (tests s)).
    change (lines_text (report_lines env s))
      with (document_text env (suiteName s) (stats s) (tests s)).
    rewrite parse_document. split; reflexivity.
Qed.

Lemma test_line_duration (t : Test) :
  test_line (with_duration t (Some NaN)) = test_line (with_duration t None).
Proof. reflexivity. Qed.

(** C8: the claim as stated fails: a duration that is a Symbol makes the
    division throw a TypeError, which leaves [test()] with nothing
    written. *)
Lemma duration_counterexample :
  seconds_of_value no_numeral (DSymbol "ms")
  = inl (TypeError "Cannot convert a Symbol value to a number")
  /\ thrown (test_with_duration sample_env no_numeral (DSymbol "ms") t1
                                (constructed sample_env None))
     = Some (TypeError "Cannot convert a Symbol value to a number")
  /\ report (final (test_with_duration sample_env no_numeral (DSymbol "ms") t1
                                       (constructed sample_env None))) = ""
  /\ ~ no_duration_error_as_stated.
Proof.
  repeat split. intros H.
  specialize (H sample_env no_numeral (DSymbol "ms") t1
                (constructed sample_env None)).
  discriminate H.
Qed.

(** C8: [test()] does not throw on a test whose duration is a whole number
    of milliseconds, and the [time] it writes is the duration divided by
    1000, in decimal notation: the seconds, a point and the thousandths;
    so is the [time] of the root, from the total duration.  A duration that
    is undefined or NaN gives the [time] 0 and no error, as [null], [false]
    and a string that stands for no number do; an infinite duration stays
    infinite.  A duration that has no number, a BigInt or a Symbol, makes
    the division throw a TypeError before anything is written. *)
Theorem duration_coercion (env : Env) (StringToNumber : string -> number)
    (s : XUnit) (t : Test) (d total : Z) :
  whole_ms d = true ->
  whole_ms total = true ->
  duration t = Some (of_Z d) ->
  stats_duration (stats s) = Some (of_Z total) ->
  (thrown (test env t s) = None
   /\ exists line x,
       report (final (test env t s)) = report s ++ line ++ String "010" ""
       /\ Xml.parse line = Some x
       /\ time_of x = Some (decimal_text d))
  /\ match value (seconds (duration t)) with
     | Some q => (q == inject_Z d / inject_Z 1000)%Q
     | None => False
     end
  /\ (thrown (on_run_end env s) = None
      /\ report (final (on_run_end env s))
         = report s ++ lines_text (report_lines env s)
      /\ exists root,
          Xml.parse (lines_text (report_lines env s)) = Some root
          /\ time_of root = Some (decimal_text total))
  /\ (forall (t' : Test) (s' : XUnit),
         duration t' = None \/ duration t' = Some NaN ->
         thrown (test env t' s') = None
         /\ exists line x,
             report (final (test env t' s')) = report s' ++ line ++ String "010" ""
             /\ Xml.parse line = Some x
             /\ time_of x = Some "0")
  /\ (forall s' : XUnit,
         stats_duration (stats s') = None \/ stats_duration (stats s') = Some NaN ->
         thrown (on_run_end env s') = None
         /\ exists root,
             Xml.parse (lines_text (report_lines env s')) = Some root
             /\ time_of root = Some "0")
  /\ (forall dd : option number,
         seconds_of_value StringToNumber (value_of_field dd) = inr (seconds dd))
  /\ (forall (dd : option number) (t' : Test) (s' : XUnit),
         test_with_duration env StringToNumber (value_of_field dd) t' s'
         = test env (with_duration t' dd) s')
  /\ seconds_of_value StringToNumber DNull = inr (of_Z 0)
  /\ seconds_of_value StringToNumber (DBoolean false) = inr (of_Z 0)
  /\ (forall str : string,
         StringToNumber str = NaN ->
         seconds_of_value StringToNumber (DString str) = inr (of_Z 0))
  /\ number_to_string (seconds (Some (Infinity false))) = "Infinity"
  /\ (forall (v : dvalue) (t' : Test) (s' : XUnit),
         match v with
         | DBigInt _ | DSymbol _ =>
             (exists msg,
                 seconds_of_value StringToNumber v = inl (TypeError msg)
                 /\ thrown (test_with_duration env StringToNumber v t' s')
                    = Some (TypeError msg))
             /\ final (test_with_duration env StringToNumber v t' s') = s'
         | _ => thrown (test_with_duration env StringToNumber v t' s') = None
         end).
Proof.
  intros Hd Htotal Ht Hs.
  apply andb_true_iff in Hd as [Hd _]. apply Z.leb_le in Hd.
  apply andb_true_iff in Htotal as [Htotal _]. apply Z.leb_le in Htotal.
  split.
  { destruct (test_time env t s) as [Hok (line & x & H1 & H2 & H3)].
    split; [exact Hok|]. exists line, x.
    rewrite Ht, (seconds_text d Hd) in H3. now repeat split. }
  split; [rewrite Ht; apply seconds_value|].
  split.
  { destruct (root_time env s) as (Hok & Hrep & root & H1 & H2).
    split; [exact Hok|]. split; [exact Hrep|]. exists root.
    rewrite Hs, (seconds_text total Htotal) in H2. now split. }
  split.
  { intros t' s' Hmissing.
    destruct (test_time env t' s') as [Hok (line & x & H1 & H2 & H3)].
    split; [exact Hok|]. exists line, x.
    destruct Hmissing as [H|H]; rewrite H in H3; now repeat split. }
  split.
  { intros s' Hmissing.
    destruct (root_time env s') as (Hok & _ & root & H1 & H2).
    split; [exact Hok|]. exists root.
    destruct Hmissing as [H|H]; rewrite H in H2; now split. }
  split; [intros [x|]; reflexivity|].
  split.
  { intros [x|] t' s'; [reflexivity|].
    unfold test_with_duration, value_of_field, numeric_operand, test.
    now rewrite test_line_duration. }
  split; [reflexivity|]. split; [reflexivity|].
  split.
  { intros str Hstr. unfold seconds_of_value. cbn [numeric_operand].
    now rewrite Hstr. }
  split; [reflexivity|].
  intros v t' s'. unfold test_with_duration, seconds_of_value.
  destruct v as [| |b|x|str|z|description]; cbn [numeric_operand];
    try apply (proj1 (test_time env _ s')).
  - split; [|reflexivity]. eexists. split; reflexivity.
  - split; [|reflexivity]. eexists. split; reflexivity.
Qed.

Lemma duration_coercion_witness :
  (thrown (test sample_env t_slow after_a_minute) = None
   /\ exists line x,
       report (final (test sample_env t_slow after_a_minute))
       = report after_a_minute ++ line ++ String "010" ""
       /\ Xml.parse line = Some x
       /\ time_of x = Some "1.25")
  /\ (thrown (on_run_end sample_env after_a_minute) = None
      /\ report (final (on_run_end sample_env after_a_minute))
         = report after_a_minute ++ lines_text (report_lines sample_env after_a_minute)
      /\ exists root,
          Xml.parse (lines_text (report_lines sample_env after_a_minute)) = Some root
          /\ time_of root = Some "61.005").
Proof.
  pose proof (duration_coercion sample_env no_numeral after_a_minute t_slow
                1250 61005 eq_refl eq_refl eq_refl eq_refl) as (H1 & _ & H3 & _).
  split; [exact H1 | exact H3].
Defined.

(** * The report as a conforming processor reads it *)

Lemma prepare_app (a b : string) : forall st,
  prepare_from st (a ++ b)
  = match prepare_from st a with
    | Some (a', st') =>
        match prepare_from st' b with
        | Some (b', st'') => Some (a' ++ b', st'')
        | None => None
        end
    | None => None
    end.
Proof.
  induction a as [|c a IH]; intros st.
  - cbn. now destruct (prepare_from st b) as [[b' st'']|].
  - cbn [append prepare_from].
    destruct (prepare_step st c) as [[out st']|]; [|reflexivity].
    rewrite IH. destruct (prepare_from st' a) as [[a' st1]|]; [|reflexivity].
    destruct (prepare_from st1 b) as [[b' st2]|]; [|reflexivity].
    now rewrite StrFacts.app_assoc.
Qed.

Lemma tag_kept_app (a b : string) : tag_kept a -> tag_kept b -> tag_kept (a ++ b).
Proof. unfold tag_kept. intros Ha Hb. now rewrite prepare_app, Ha, Hb. Qed.

Lemma value_kept_app (a b : string) :
  value_kept a -> value_kept b -> value_kept (a ++ b).
Proof. unfold value_kept. intros Ha Hb. now rewrite prepare_app, Ha, Hb. Qed.

Lemma kept_app (a b : string) : kept a -> kept b -> kept (a ++ b).
Proof.
  intros Ha Hb n0. destruct (Ha n0) as [n1 H1]. destruct (Hb n1) as [n2 H2].
  exists n2. now rewrite prepare_app, H1, H2.
Qed.

Lemma kept_empty : kept "".
Proof. intros b. now exists b. Qed.

Lemma name_char_kept (c : ascii) :
  is_name_char c = true -> tag_kept (String c "").
Proof.
  destruct c as [[] [] [] [] [] [] [] []]; vm_compute; intros H;
    try discriminate H; reflexivity.
Qed.

Lemma name_kept (s : string) : Str.all is_name_char s = true -> tag_kept s.
Proof.
  induction s as [|c s IH]; [reflexivity|].
  cbn [Str.all]. intros H. apply andb_true_iff in H as [Hc Hs].
  change (String c s) with (String c "" ++ s).
  apply tag_kept_app; [now apply name_char_kept | now apply IH].
Qed.

Lemma escaped_char_value_kept (c : ascii) :
  attr_plain c = true -> value_kept (escape_char c).
Proof.
  destruct c as [[] [] [] [] [] [] [] []]; vm_compute; intros H;
    try discriminate H; reflexivity.
Qed.

Lemma escaped_value_kept (v : string) :
  Str.all attr_plain v = true -> value_kept (escape_string v).
Proof.
  induction v as [|c v IH]; [reflexivity|].
  cbn [Str.all escape_string]. intros H. apply andb_true_iff in H as [Hc Hv].
  apply value_kept_app; [now apply escaped_char_value_kept | now apply IH].
Qed.

Lemma escaped_char_kept (c : ascii) : text_plain c = true -> kept (escape_char c).
Proof.
  intros H b. revert H.
  destruct c as [[] [] [] [] [] [] [] []]; vm_compute; intros H;
    try discriminate H; eexists; reflexivity.
Qed.

Lemma escaped_kept (v : string) :
  Str.all text_plain v = true -> kept (escape_string v).
Proof.
  induction v as [|c v IH]; [intros _; apply kept_empty|].
  cbn [Str.all escape_string]. intros H. apply andb_true_iff in H as [Hc Hv].
  apply kept_app; [now apply escaped_char_kept | now apply IH].
Qed.

(** The text of a number holds digits, a sign, a point and letters. *)
Lemma uint_plain (u : Decimal.uint) :
  Str.all attr_plain (NilEmpty.string_of_uint u) = true.
Proof. induction u; cbn [NilEmpty.string_of_uint Str.all]; now rewrite ?IHu. Qed.

Lemma digits_plain (z : Z) : Str.all attr_plain (digits z) = true.
Proof.
  unfold digits, NilZero.string_of_uint.
  destruct (N.to_uint (Z.to_N z)) eqn:E; try reflexivity;
    rewrite <- E; apply uint_plain.
Qed.

Lemma zeros_plain (k : nat) : Str.all attr_plain (zeros k) = true.
Proof. induction k as [|k IH]; [reflexivity | exact IH]. Qed.

Lemma number_plain (x : number) : Str.all attr_plain (number_to_string x) = true.
Proof.
  destruct x as [m e| |[]]; try reflexivity.
  unfold number_to_string. destruct (strip_zeros e m) as [m' e'].
  destruct e' as [|e'].
  - rewrite all_app, digits_plain. now destruct (m' <? 0)%Z.
  - rewrite !all_app. unfold pad_left.
    rewrite all_app, !digits_plain, zeros_plain. now destruct (m' <? 0)%Z.
Qed.

Lemma value_text_plain (v : jsval) :
  plain_value v = true -> Str.all attr_plain (String_of v) = true.
Proof.
  destruct v as [|s|x]; intros H; [reflexivity | exact H | apply number_plain].
Qed.

Lemma keys_are_names (attrs : attributes) : forall seen,
  keys_ok seen attrs = true ->
  forallb (fun kv => name_ok (fst kv)) attrs = true.
Proof.
  induction attrs as [|[k v] attrs IH]; intros seen H; [reflexivity|].
  cbn [keys_ok] in H. apply andb_true_iff in H as [H Hrest].
  apply andb_true_iff in H as [Hk _].
  cbn [forallb fst]. now rewrite Hk, (IH _ Hrest).
Qed.

Lemma pair_kept (k : string) (v : jsval) :
  name_ok k = true -> plain_value v = true ->
  tag_kept (" " ++ pair_text (k, v)).
Proof.
  intros Hk Hv. unfold pair_text. cbn [fst snd].
  apply tag_kept_app; [reflexivity|].
  apply tag_kept_app; [now apply name_kept, name_ok_all|].
  apply tag_kept_app; [reflexivity|].
  pose proof (escaped_value_kept _ (value_text_plain v Hv)) as Hval.
  unfold tag_kept, value_kept in *. unfold escape.
  cbn [prepare_from]. change (prepare_step (InTag, false) Str.dquote)
    with (Some (String Str.dquote "", (InValue, false))).
  cbn iota. rewrite prepare_app, Hval. reflexivity.
Qed.

Lemma attrs_kept (attrs : attributes) :
  forallb (fun kv => name_ok (fst kv)) attrs = true ->
  plain_attrs attrs = true ->
  tag_kept (attrs_text attrs).
Proof.
  unfold plain_attrs.
  induction attrs as [|[k v] attrs IH]; intros Hk Hv; [reflexivity|].
  cbn [forallb fst snd] in Hk, Hv.
  apply andb_true_iff in Hk as [Hk Hks]. apply andb_true_iff in Hv as [Hv Hvs].
  change (attrs_text ((k, v) :: attrs))
    with ((" " ++ pair_text (k, v)) ++ attrs_text attrs).
  apply tag_kept_app; [now apply pair_kept | now apply IH].
Qed.

(** A start tag or an empty-element tag, and an end tag. *)
Lemma open_tag_kept (name : string) (attrs : attributes) (close : bool) :
  name_ok name = true -> keys_ok [] attrs = true -> plain_attrs attrs = true ->
  kept ("<" ++ name ++ attrs_text attrs ++ end_text close).
Proof.
  intros Hname Hkeys Hplain b. exists 0%nat.
  pose proof (tag_kept_app _ _ (name_kept _ (name_ok_all _ Hname))
                (attrs_kept attrs (keys_are_names attrs [] Hkeys) Hplain)) as H.
  unfold tag_kept in H.
  change ("<" ++ name ++ attrs_text attrs ++ end_text close)
    with (String "<" (name ++ attrs_text attrs ++ end_text close)).
  cbn [prepare_from].
  change (prepare_step (InContent b, false) "<")
    with (Some ("<", (InTag, false))).
  cbn iota. rewrite <- StrFacts.app_assoc, prepare_app, H.
  destruct close; reflexivity.
Qed.

Lemma end_tag_kept (name : string) (close : bool) :
  name_ok name = true -> kept ("</" ++ name ++ end_text close).
Proof.
  intros Hname b. exists 0%nat.
  pose proof (name_kept _ (name_ok_all _ Hname)) as H. unfold tag_kept in H.
  change ("</" ++ name ++ end_text close)
    with (String "<" (String "/" (name ++ end_text close))).
  cbn [prepare_from].
  change (prepare_step (InContent b, false) "<")
    with (Some ("<", (InTag, false))).
  cbn iota.
  change (prepare_step (InTag, false) "/") with (Some ("/", (InTag, false))).
  cbn iota. rewrite prepare_app, H. destruct close; reflexivity.
Qed.

(** What [tag] returns, when its content is character data as [prepare]
    leaves it. *)
Lemma tag_kept_text (name : string) (attrs : attributes) (close : bool)
    (content : option string) :
  name_ok name = true -> keys_ok [] attrs = true -> plain_attrs attrs = true ->
  (truthy_content content = true -> kept (content_text content)) ->
  kept (tag name attrs close content).
Proof.
  intros Hname Hkeys Hplain Hcontent. rewrite tag_text.
  rewrite <- !StrFacts.app_assoc.
  destruct (truthy_content content).
  - rewrite !StrFacts.app_assoc.
    replace ("<" ++ name ++ attrs_text attrs ++ end_text close
                 ++ content_text content ++ "</" ++ name ++ end_text close)
      with (("<" ++ name ++ attrs_text attrs ++ end_text close)
              ++ content_text content ++ "</" ++ name ++ end_text close)
      by (rewrite !StrFacts.app_assoc; reflexivity).
    apply kept_app; [now apply open_tag_kept|].
    apply kept_app; [now apply Hcontent | now apply end_tag_kept].
  - rewrite !StrFacts.app_assoc, StrFacts.app_nil_r.
    now apply open_tag_kept.
Qed.

Lemma test_attrs_keys (t : Test) : keys_ok [] (test_attrs t) = true.
Proof. reflexivity. Qed.






Lemma kept_standard (s : string) : kept s -> standard_parse s = Xml.parse s.
Proof.
  intros H. destruct (H 0%nat) as [b Hb].
  unfold standard_parse, prepare. now rewrite Hb.
Qed.





(** * What [tag] writes, as a conforming processor reads it *)

Lemma render_kept (m : markup) :
  well_formed m = true -> plain m = true -> kept (render m).
Proof.
  induction m as [name attrs|name attrs text|name attrs children IH]
    using markup_nested_ind; intros Hwf Hplain; cbn [well_formed plain] in *.
  - apply andb_true_iff in Hwf as [Hname Hkeys].
    cbn [render]. now apply tag_kept_text.
  - apply andb_true_iff in Hwf as [Hwf _].
    apply andb_true_iff in Hwf as [Hname Hkeys].
    apply andb_true_iff in Hplain as [Hattrs Htext].
    cbn [render]. apply tag_kept_text; try easy. intros _.
    cbn [content_text]. unfold escape. cbn [String_of]. now apply escaped_kept.
  - apply andb_true_iff in Hwf as [Hwf Hkids].
    apply andb_true_iff in Hwf as [Hwf _].
    apply andb_true_iff in Hwf as [Hname Hkeys].
    apply andb_true_iff in Hplain as [Hattrs Hpk].
    cbn [render]. apply tag_kept_text; try easy. intros _.
    cbn [content_text].
    induction children as [|k children IHc]; [apply kept_empty|].
    cbn [forallb] in Hkids, Hpk.
    apply andb_true_iff in Hkids as [Hk Hkids].
    apply andb_true_iff in Hpk as [Hp Hpk].
    inversion IH as [|? ? IHk IHrest]; subst.
    cbn [map Str.flat]. apply kept_app; [now apply IHk | now apply IHc].
Qed.

(** X1: what nested calls of [tag] write, a conforming processor reads as
    the elements they were called for, with the attribute values and the
    text as they were before escaping, whenever the names are names, no
    attribute comes twice, no content is empty, the attribute values hold
    characters of XML other than TAB, LF and CR, and the texts characters of
    XML other than CR. *)
Theorem render_round_trip (m : markup) :
  well_formed m = true -> plain m = true ->
  standard_parse (render m) = Some (tree m)
  /\ Xml.parse (render m) = Some (tree m).
Proof.
  intros Hwf Hplain.
  rewrite (kept_standard _ (render_kept m Hwf Hplain)).
  split; now apply parse_render.
Qed.

Lemma render_round_trip_witness :
  standard_parse (render sample_markup) = Some (tree sample_markup)
  /\ Xml.parse (render sample_markup) = Some (tree sample_markup).
Proof. exact (render_round_trip sample_markup eq_refl eq_refl). Defined.
